(** * VideoConverter (src/main.py): a shallow embedding and its properties

    The program is a Python script that locates an ffmpeg binary, walks
    the input folder for video files, and either re-encodes every file
    to a height chosen by the user or extracts its audio track, writing
    the results into a mirror of the input tree under the output folder.

    Modelling choices, in one place:
    - a Python [str] is a list of Unicode code points ([list N]);
      literals are written as UTF-8 text and decoded by [u8];
    - [int] is [Z], without bound (the optional limit of CPython on
      the number of digits [int] reads is not modelled);
    - the script's effects (console, standard input, the file system
      below the working directory, child processes, exceptions) are
      threaded through a state-and-exception monad [M] over [World];
    - [os.path] is [posixpath], as the pure-Python library defines it;
    - the file system holds regular files and directories (no links,
      no permissions), and records what the script itself does to it:
      what the encoder writes is seen as the child process that
      writes it, not as a change of the tree;
    - a child process is an oracle of the world: given the history and
      the command line it yields an exit status and captured output, or
      the exception [subprocess.run] raises;
    - every call that acts on the outside (text written to the console,
      a child process, [shutil.rmtree], [os.makedirs]) is recorded, in
      order, in the world's [trace];
    - standard input is the list of the lines that will be typed,
      followed by end of file. *)

From Stdlib Require Import List ZArith NArith Bool Lia.
From Stdlib Require Ascii String DecimalString.
Import ListNotations.
Import String.StringSyntax.
Delimit Scope string_scope with string.

(* ================================================================= *)
(** ** Python values: strings of code points *)

Module Py.

Definition char := N.
Definition str := list char.

(** UTF-8 decoding of a literal written in this file. *)
Fixpoint utf8_decode (bs : list N) : str :=
  match bs with
  | [] => []
  | b :: t =>
    if (b <? 128)%N then b :: utf8_decode t
    else if (b <? 224)%N then
      match t with
      | b1 :: t1 => ((b mod 32) * 64 + b1 mod 64)%N :: utf8_decode t1
      | _ => []
      end
    else if (b <? 240)%N then
      match t with
      | b1 :: b2 :: t2 =>
        ((b mod 16) * 4096 + (b1 mod 64) * 64 + b2 mod 64)%N :: utf8_decode t2
      | _ => []
      end
    else
      match t with
      | b1 :: b2 :: b3 :: t3 =>
        ((b mod 8) * 262144 + (b1 mod 64) * 4096 + (b2 mod 64) * 64 + b3 mod 64)%N
          :: utf8_decode t3
      | _ => []
      end
  end.

Definition u8 (s : String.string) : str :=
  utf8_decode (map Ascii.N_of_ascii (String.list_ascii_of_string s)).

Arguments u8 s%_string.

(** [a == b] on strings. *)
Fixpoint eqb (a b : str) : bool :=
  match a, b with
  | [], [] => true
  | x :: a', y :: b' => (x =? y)%N && eqb a' b'
  | _, _ => false
  end.

(** [a < b] on strings: the order of the code points, a proper
    prefix coming first. *)
Fixpoint ltb (a b : str) : bool :=
  match a, b with
  | _, [] => false
  | [], _ :: _ => true
  | x :: a', y :: b' => (x <? y)%N || ((x =? y)%N && ltb a' b')
  end.

(** [x in l] for a list of strings. *)
Definition mem (x : str) (l : list str) : bool := existsb (eqb x) l.

(** [s.startswith(p)] and [s.endswith(p)]. *)
Fixpoint startswith (s p : str) : bool :=
  match p, s with
  | [], _ => true
  | y :: p', x :: s' => (x =? y)%N && startswith s' p'
  | _ :: _, [] => false
  end.

Definition endswith (s p : str) : bool := startswith (rev s) (rev p).

(** [sub in s]: substring test. *)
Fixpoint contains (s sub : str) : bool :=
  startswith s sub ||
  match s with
  | [] => false
  | _ :: s' => contains s' sub
  end.

(** [s.rfind(c)] for a one-character [c]: the highest index of [c] in
    [s], or -1. *)
Fixpoint rfind (s : str) (c : char) : Z :=
  match s with
  | [] => -1
  | x :: t =>
    let r := rfind t c in
    if (0 <=? r)%Z then (r + 1)%Z
    else if (x =? c)%N then 0%Z else (-1)%Z
  end.

(** Slices [s[:i]], [s[i:]] and [s[i:j]] for indices [0 <= i <= j]. *)
Definition upto (s : str) (i : Z) : str := firstn (Z.to_nat i) s.
Definition from (s : str) (i : Z) : str := skipn (Z.to_nat i) s.
Definition slice (s : str) (i j : Z) : str := upto (from s i) (j - i).

(** [s.split(c)] for a one-character separator: never empty. *)
Fixpoint split (s : str) (c : char) : list str :=
  match s with
  | [] => [[]]
  | x :: t =>
    if (x =? c)%N then [] :: split t c
    else match split t c with
         | [] => [[x]]
         | w :: ws => (x :: w) :: ws
         end
  end.

(** [sep.join(parts)]. *)
Fixpoint join (sep : str) (parts : list str) : str :=
  match parts with
  | [] => []
  | [p] => p
  | p :: ps => p ++ sep ++ join sep ps
  end.

(** [c * n] for a one-character string. *)
Definition times (c : char) (n : nat) : str := repeat c n.

(** [str.isspace] per character (Py_UNICODE_ISSPACE): the code points
    whose bidirectional class is WS, B or S, or whose category is Zs. *)
Definition isspace (c : char) : bool :=
  ((9 <=? c) && (c <=? 13) || (28 <=? c) && (c <=? 32)
   || (c =? 133) || (c =? 160) || (c =? 5760)
   || (8192 <=? c) && (c <=? 8202)
   || (c =? 8232) || (c =? 8233) || (c =? 8239) || (c =? 8287)
   || (c =? 12288))%N.

Fixpoint lstrip (s : str) : str :=
  match s with
  | [] => []
  | x :: t => if isspace x then lstrip t else s
  end.

Definition rstrip (s : str) : str := rev (lstrip (rev s)).

(** [s.strip()]. *)
Definition strip (s : str) : str := rstrip (lstrip s).

(** [s.rstrip(c)] for a one-character argument. *)
Fixpoint lstrip_char (c : char) (s : str) : str :=
  match s with
  | [] => []
  | x :: t => if (x =? c)%N then lstrip_char c t else s
  end.

Definition rstrip_char (s : str) (c : char) : str :=
  rev (lstrip_char c (rev s)).

(** [s.lower()], one code point at a time.  ASCII letters are exact.
    Among the code points above 127 only two have a lowercase form
    that contains an ASCII character: KELVIN SIGN (U+212A, to [k]) and
    LATIN CAPITAL LETTER I WITH DOT ABOVE (U+0130, to [i] followed by
    U+0307); both are exact here.  Every other code point above 127
    lowercases to code points above 127 and is left as it is, which no
    comparison against an ASCII literal can tell apart. *)
Definition lower_char (c : char) : str :=
  if ((65 <=? c) && (c <=? 90))%N then [(c + 32)%N]
  else if (c =? 8490)%N then [107%N]
  else if (c =? 304)%N then [105%N; 775%N]
  else [c].

Definition lower (s : str) : str := flat_map lower_char s.

(** *** [int(s)] *)

(** The first code point of each run of ten decimal digits (Unicode
    category Nd, Unicode 14): [Py_UNICODE_TODECIMAL]. *)
Definition decimal_zeros : list N :=
  [ 48; 1632; 1776; 1984; 2406; 2534; 2662; 2790; 2918; 3046; 3174;
    3302; 3430; 3558; 3664; 3792; 3872; 4160; 4240; 6112; 6160; 6470;
    6608; 6784; 6800; 6992; 7088; 7232; 7248; 42528; 43216; 43264;
    43472; 43504; 43600; 44016; 65296; 66720; 68912; 69734; 69872;
    69942; 70096; 70384; 70736; 70864; 71248; 71360; 71472; 71904;
    72016; 72784; 73040; 73120; 92768; 92864; 93008; 120782; 120792;
    120802; 120812; 120822; 123200; 123632; 125264; 130032 ]%N.

Definition todecimal (c : char) : option N :=
  match find (fun z => (z <=? c) && (c <? z + 10))%N decimal_zeros with
  | Some z => Some (c - z)%N
  | None => None
  end.

(** [_PyUnicode_TransformDecimalAndSpaceToASCII]: code points below
    127 are kept, other whitespace becomes a space, other decimal
    digits become ASCII digits, and the first code point that is
    neither becomes [?] and ends the string. *)
Fixpoint to_ascii_decimal (s : str) : str :=
  match s with
  | [] => []
  | c :: t =>
    if (c <? 127)%N then c :: to_ascii_decimal t
    else if isspace c then 32%N :: to_ascii_decimal t
    else match todecimal c with
         | Some d => (48 + d)%N :: to_ascii_decimal t
         | None => [63%N]
         end
  end.

(** C's [isspace] in the C locale ([Py_ISSPACE]). *)
Definition c_isspace (c : char) : bool :=
  ((9 <=? c) && (c <=? 13) || (c =? 32))%N.

Fixpoint skip_spaces (s : str) : str :=
  match s with
  | [] => []
  | x :: t => if c_isspace x then skip_spaces t else s
  end.

Definition is_digit (c : char) : bool := ((48 <=? c) && (c <=? 57))%N.

(** The digit scan of [PyLong_FromString] in base ten: digits with
    single underscores between them.  [prev] tells whether the
    previous character was an underscore.  Returns the value read and
    the rest of the string, or [None] for a doubled or trailing
    underscore. *)
Fixpoint scan_digits (s : str) (prev : bool) (acc : Z) : option (Z * str) :=
  match s with
  | [] => if prev then None else Some (acc, [])
  | c :: t =>
    if (c =? 95)%N then
      if prev then None else scan_digits t true acc
    else if is_digit c then
      scan_digits t false (acc * 10 + Z.of_N (c - 48))
    else if prev then None else Some (acc, s)
  end.

(** [PyLong_FromString(s, 10)] on the transformed string: leading
    white space, an optional sign, at least one digit, trailing white
    space, and nothing else. *)
Definition long_from_string (s : str) : option Z :=
  let s := skip_spaces s in
  let '(sign, s) :=
    match s with
    | 43%N :: t => (1%Z, t)
    | 45%N :: t => ((-1)%Z, t)
    | _ => (1%Z, s)
    end in
  match s with
  | [] => None
  | c :: _ =>
    if is_digit c then
      match scan_digits s false 0 with
      | Some (v, rest) =>
        match skip_spaces rest with
        | [] => Some (sign * v)%Z
        | _ :: _ => None
        end
      | None => None
      end
    else None
  end.

(** [int(s)]: [None] stands for [ValueError]. *)
Definition int (s : str) : option Z := long_from_string (to_ascii_decimal s).

(** [str(n)] for an [int]. *)
Definition str_of_int (n : Z) : str :=
  map Ascii.N_of_ascii
      (String.list_ascii_of_string
         (DecimalString.NilEmpty.string_of_int (Z.to_int n))).

(** The text an f-string puts for [{x}] when [x] is [None] or an
    [int]. *)
Definition format (x : option Z) : str :=
  match x with
  | None => u8 "None"
  | Some n => str_of_int n
  end.

End Py.

Abbreviation str := Py.str.
Abbreviation u8 := Py.u8.

(* ================================================================= *)
(** ** The world the script runs in *)

(** The classes of exception the script can meet, all subclasses of
    [Exception] (an asynchronous [KeyboardInterrupt] is outside the
    model).  An exception value carries its message. *)
Inductive exc_kind :=
| ValueError
| UnicodeDecodeError
| EOFError
| OSError
| FileNotFoundError
| FileExistsError
| NotADirectoryError
| PermissionError.

(** What unwinds the stack: an exception, or [SystemExit] from
    [sys.exit]. *)
Inductive raised :=
| Exc (k : exc_kind) (msg : str)
| SystemExit (code : Z).

(** The class tests of the [except] clauses in use. *)
Definition Exception (k : exc_kind) : bool := true.

Definition isValueError (k : exc_kind) : bool :=
  match k with ValueError | UnicodeDecodeError => true | _ => false end.

Definition isOSError (k : exc_kind) : bool :=
  match k with
  | OSError | FileNotFoundError | FileExistsError
  | NotADirectoryError | PermissionError => true
  | _ => false
  end.

Definition isFileExistsError (k : exc_kind) : bool :=
  match k with FileExistsError => true | _ => false end.

(** The file system below the working directory: a directory is the
    list of its entries in the order the operating system lists
    them. *)
#[warnings="-register-all"]
Inductive node :=
| File
| Dir (entries : list (str * node)).

Definition entries := list (str * node).

(** What [subprocess.run] does for one command line: the child runs to
    completion with an exit status and its captured standard output,
    or the call fails with an exception (the program is missing, its
    output cannot be decoded, ...). *)
Inductive outcome :=
| Completed (returncode : Z) (stdout : str)
| Failed (k : exc_kind) (msg : str).

(** What the script does to the outside, in order. *)
Inductive event :=
| Out (text : str)
| Spawn (args : list str)
| Rmtree (path : str)
| Makedirs (path : str) (exist_ok : bool).

Inductive Mode := convert | extract.

Record World := mkWorld {
  cli_mode : Mode;                           (* the parsed [--mode] *)
  cwd : str;                                 (* [os.getcwd()] *)
  fs : entries;                              (* entries of the working directory *)
  stdin : list str;                          (* lines waiting on standard input *)
  trace : list event;                        (* events so far, oldest first *)
  proc : list event -> list str -> outcome   (* the child processes, given the history *)
}.

Definition with_fs (w : World) (f : entries) : World :=
  mkWorld (cli_mode w) (cwd w) f (stdin w) (trace w) (proc w).

Definition with_stdin (w : World) (l : list str) : World :=
  mkWorld (cli_mode w) (cwd w) (fs w) l (trace w) (proc w).

Definition log (e : event) (w : World) : World :=
  mkWorld (cli_mode w) (cwd w) (fs w) (stdin w) (trace w ++ [e]) (proc w).

(** *** The monad *)

(** [OutOfFuel] is the result of a loop whose bound was too small; the
    loops below are given bounds that are never reached. *)
Inductive result (A : Type) :=
| Ret (a : A)
| Raise (e : raised)
| OutOfFuel.

Arguments Ret {A} a.
Arguments Raise {A} e.
Arguments OutOfFuel {A}.

Definition M (A : Type) := World -> result A * World.

Definition ret {A} (a : A) : M A := fun w => (Ret a, w).

Definition bind {A B} (m : M A) (k : A -> M B) : M B :=
  fun w =>
    match m w with
    | (Ret a, w') => k a w'
    | (Raise e, w') => (Raise e, w')
    | (OutOfFuel, w') => (OutOfFuel, w')
    end.

Definition raise {A} (k : exc_kind) (msg : str) : M A :=
  fun w => (Raise (Exc k msg), w).

Declare Scope monad_scope.
Delimit Scope monad_scope with monad.
Notation "x <- c ;; k" := (bind c (fun x => k))
  (at level 100, c at next level, right associativity) : monad_scope.
Notation "c ;; k" := (bind c (fun _ => k))
  (at level 100, right associativity) : monad_scope.
Notation "' pat <- c ;; k" := (bind c (fun x => match x with pat => k end))
  (at level 100, pat pattern, c at next level, right associativity) : monad_scope.
Open Scope monad_scope.

(** [try: body except cls as e: handler]. *)
Definition try_except {A} (body : M A) (cls : exc_kind -> bool)
    (handler : exc_kind -> str -> M A) : M A :=
  fun w =>
    match body w with
    | (Raise (Exc k msg), w') =>
      if cls k then handler k msg w' else (Raise (Exc k msg), w')
    | r => r
    end.

(** [while True: body], where the body either returns from the
    function ([Some]) or goes round again ([None]). *)
Fixpoint while_true {A} (fuel : nat) (body : M (option A)) : M A :=
  match fuel with
  | O => fun w => (OutOfFuel, w)
  | S n =>
    r <- body;;
    match r with
    | Some a => ret a
    | None => while_true n body
    end
  end.

(** [for i, x in enumerate(l): body], counting from [i]. *)
Fixpoint for_enumerate {A} (i : nat) (l : list A) (body : nat -> A -> M unit) : M unit :=
  match l with
  | [] => ret tt
  | x :: t => body i x;; for_enumerate (S i) t body
  end.

(** *** Console *)

Definition newline : str := [10%N].

(** [print(s)], [print(s, end=e)] and [print()]. *)
Definition print (s : str) : M unit := fun w => (Ret tt, log (Out (s ++ newline)) w).

Definition print_end (s e : str) : M unit := fun w => (Ret tt, log (Out (s ++ e)) w).

Definition print_ : M unit := print [].

(** [input(prompt)]: the prompt is written, then one line is read. *)
Definition input (prompt : str) : M str :=
  fun w =>
    let w := log (Out prompt) w in
    match stdin w with
    | [] => (Raise (Exc EOFError (u8 "EOF when reading a line")), w)
    | l :: rest => (Ret l, with_stdin w rest)
    end.

Module sys.

Definition exit {A} (code : Z) : M A := fun w => (Raise (SystemExit code), w).

End sys.

(* ================================================================= *)
(** ** The library calls of the script *)

Module os.

Definition sep : Py.char := 47%N.
Definition extsep : Py.char := 46%N.
Definition curdir : str := [46%N].
Definition pardir : str := [46%N; 46%N].

Definition getcwd : M str := fun w => (Ret (cwd w), w).

(** *** The file system *)

Fixpoint lookup (es : entries) (name : str) : option node :=
  match es with
  | [] => None
  | (n, x) :: t => if Py.eqb n name then Some x else lookup t name
  end.

(** The names a relative path goes through.  Empty components and [.]
    stay where they are.  Paths that leave the tree below the working
    directory (absolute ones, or through [..]) are not resolved. *)
Definition path_names (p : str) : option (list str) :=
  if Py.startswith p [sep] then None
  else
    let comps := filter (fun c => negb (Py.eqb c [] || Py.eqb c curdir))
                        (Py.split p sep) in
    if existsb (Py.eqb pardir) comps then None else Some comps.

Fixpoint get (root : node) (names : list str) : option node :=
  match names with
  | [] => Some root
  | n :: ns =>
    match root with
    | Dir es =>
      match lookup es n with
      | Some child => get child ns
      | None => None
      end
    | File => None
    end
  end.

(** The node a path names, if any. *)
Definition resolve (f : entries) (p : str) : option node :=
  if Py.eqb p [] then None
  else match path_names p with
       | Some names => get (Dir f) names
       | None => None
       end.

(** Rewrites the entries of the directory reached through [names]. *)
Fixpoint update (names : list str) (g : entries -> entries) (es : entries) : entries :=
  match names with
  | [] => g es
  | n :: ns =>
    map (fun e : str * node =>
           if Py.eqb (fst e) n then
             (fst e, match snd e with
                     | Dir sub => Dir (update ns g sub)
                     | File => File
                     end)
           else e) es
  end.

Definition remove (name : str) (es : entries) : entries :=
  filter (fun e : str * node => negb (Py.eqb (fst e) name)) es.

(** *** [os.path], as [posixpath] *)

Module path.

Definition isabs (s : str) : bool := Py.startswith s [sep].

(** [join(a, b)]. *)
Definition join (a b : str) : str :=
  if Py.startswith b [sep] then b
  else if Py.eqb a [] || Py.endswith a [sep] then a ++ b
  else a ++ [sep] ++ b.

(** [join(a, *p)]. *)
Definition join_all (a : str) (p : list str) : str := fold_left join p a.

(** [split(p)]: head and tail around the last separator. *)
Definition split (p : str) : str * str :=
  let i := (Py.rfind p sep + 1)%Z in
  let head := Py.upto p i in
  let tail := Py.from p i in
  let head :=
    if negb (Py.eqb head []) && negb (Py.eqb head (Py.times sep (length head)))
    then Py.rstrip_char head sep else head in
  (head, tail).

Definition dirname (p : str) : str :=
  let i := (Py.rfind p sep + 1)%Z in
  let head := Py.upto p i in
  if negb (Py.eqb head []) && negb (Py.eqb head (Py.times sep (length head)))
  then Py.rstrip_char head sep else head.

(** [splitext(p)] ([genericpath._splitext]): the extension starts at
    the last dot of the last component, unless only dots come before
    it in that component. *)
Definition splitext (p : str) : str * str :=
  let sepIndex := Py.rfind p sep in
  let dotIndex := Py.rfind p extsep in
  if (sepIndex <? dotIndex)%Z
     && negb (forallb (N.eqb extsep) (Py.slice p (sepIndex + 1) dotIndex))
  then (Py.upto p dotIndex, Py.from p dotIndex)
  else (p, []).

(** One round of the loop of [normpath] over the components. *)
Definition norm_step (initial_slashes : nat) (new_comps : list str) (comp : str)
    : list str :=
  if Py.eqb comp [] || Py.eqb comp curdir then new_comps
  else if negb (Py.eqb comp pardir)
          || (Nat.eqb initial_slashes 0 && Nat.eqb (length new_comps) 0)
          || (negb (Nat.eqb (length new_comps) 0)
              && Py.eqb (last new_comps []) pardir)
  then new_comps ++ [comp]
  else removelast new_comps.

Definition norm_comps (initial_slashes : nat) (p : str) : list str :=
  fold_left (norm_step initial_slashes) (Py.split p sep) [].

Definition initial_slashes (p : str) : nat :=
  if Py.startswith p [sep] then
    if Py.startswith p [sep; sep] && negb (Py.startswith p [sep; sep; sep])
    then 2 else 1
  else 0.

Definition normpath (p : str) : str :=
  if Py.eqb p [] then curdir
  else
    let k := initial_slashes p in
    let r := Py.times sep k ++ Py.join [sep] (norm_comps k p) in
    if Py.eqb r [] then curdir else r.

(** [abspath(p)] when the working directory is [cwd]. *)
Definition abspath_in (cwd p : str) : str :=
  normpath (if isabs p then p else join cwd p).

Definition abspath (p : str) : M str :=
  cwd <- getcwd;; ret (abspath_in cwd p).

(** [a < b] on lists of strings: decided at the first place where
    they differ, a proper prefix coming first. *)
Fixpoint list_ltb (a b : list str) : bool :=
  match a, b with
  | _, [] => false
  | [], _ :: _ => true
  | x :: a', y :: b' => if Py.eqb x y then list_ltb a' b' else Py.ltb x y
  end.

(** The loop of [commonprefix]: the part of [s1] before the first
    place where [s2] differs.  ([s2] does not end before that place,
    [s1] being the smaller of the two.) *)
Fixpoint prefix_scan (s1 s2 : list str) : list str :=
  match s1, s2 with
  | c :: s1', d :: s2' => if Py.eqb c d then c :: prefix_scan s1' s2' else []
  | _, _ => []
  end.

(** [commonprefix([a, b])] on two lists of components: the scan of
    [min] against [max]. *)
Definition commonprefix (a b : list str) : list str :=
  let s1 := if list_ltb b a then b else a in
  let s2 := if list_ltb a b then b else a in
  prefix_scan s1 s2.

(** [relpath(path, start)]. *)
Definition relpath (p start : str) : M str :=
  if Py.eqb p [] then raise ValueError (u8 "no path specified")
  else
    start_abs <- abspath start;;
    path_abs <- abspath p;;
    let start_list := filter (fun x => negb (Py.eqb x [])) (Py.split start_abs sep) in
    let path_list := filter (fun x => negb (Py.eqb x [])) (Py.split path_abs sep) in
    let i := length (commonprefix start_list path_list) in
    let rel_list := repeat pardir (length start_list - i) ++ skipn i path_list in
    match rel_list with
    | [] => ret curdir
    | a :: rest => ret (join_all a rest)
    end.

(** [exists(p)], [isfile(p)] and [isdir(p)]. *)
Definition exists_ (p : str) : M bool :=
  fun w => (Ret (match resolve (fs w) p with Some _ => true | None => false end), w).

Definition isfile (p : str) : M bool :=
  fun w => (Ret (match resolve (fs w) p with Some File => true | _ => false end), w).

Definition isdir (p : str) : M bool :=
  fun w => (Ret (match resolve (fs w) p with Some (Dir _) => true | _ => false end), w).

End path.

(** [os.mkdir(p)]. *)
Definition mkdir (p : str) : M unit :=
  fun w =>
    match path_names p with
    | None => (Raise (Exc FileNotFoundError p), w)
    | Some names =>
      if Py.eqb p [] then (Raise (Exc FileNotFoundError p), w)
      else
        match names with
        | [] => (Raise (Exc FileExistsError p), w)
        | _ :: _ =>
          let parent := removelast names in
          let name := last names [] in
          match get (Dir (fs w)) parent with
          | None => (Raise (Exc FileNotFoundError p), w)
          | Some File => (Raise (Exc NotADirectoryError p), w)
          | Some (Dir es) =>
            match lookup es name with
            | Some _ => (Raise (Exc FileExistsError p), w)
            | None =>
              (Ret tt, with_fs w (update parent (fun es => es ++ [(name, Dir [])]) (fs w)))
            end
          end
        end
    end.

(** The recursion of [os.makedirs]; [head] is shorter than [name], so
    a bound of the length of [name] is never reached. *)
Fixpoint makedirs_rec (fuel : nat) (name : str) (exist_ok : bool) : M unit :=
  match fuel with
  | O => fun w => (OutOfFuel, w)
  | S n =>
    let '(head, tail) := path.split name in
    let '(head, tail) := if Py.eqb tail [] then path.split head else (head, tail) in
    head_exists <- path.exists_ head;;
    stop <-
      (if negb (Py.eqb head []) && negb (Py.eqb tail []) && negb head_exists then
         try_except (makedirs_rec n head exist_ok)
                    isFileExistsError (fun _ _ => ret tt);;
         ret (Py.eqb tail curdir)
       else ret false);;
    if stop : bool then ret tt
    else
      try_except (mkdir name) isOSError
        (fun k msg =>
           d <- path.isdir name;;
           if negb exist_ok || negb d then raise k msg else ret tt)
  end.

(** [os.makedirs(name, exist_ok=...)]. *)
Definition makedirs (name : str) (exist_ok : bool) : M unit :=
  fun w => makedirs_rec (S (length name)) name exist_ok (log (Makedirs name exist_ok) w).

(** [os.walk(top)] from a directory whose entries are [es]: top-down,
    each directory gives [(top, dirs, files)] and is followed by the
    walks of its sub-directories in listing order. *)
Definition is_dir (e : str * node) : bool :=
  match snd e with Dir _ => true | File => false end.

Fixpoint walk_node (top : str) (n : node) : list (str * list str * list str) :=
  match n with
  | File => []
  | Dir es =>
    (top, map fst (filter is_dir es), map fst (filter (fun e => negb (is_dir e)) es))
      :: flat_map (fun e : str * node => walk_node (path.join top (fst e)) (snd e)) es
  end.

(** A top that cannot be listed gives an empty walk (the error of
    [scandir] is dropped, [onerror] being [None]). *)
Definition walk (top : str) : M (list (str * list str * list str)) :=
  fun w =>
    (Ret (match resolve (fs w) top with
          | Some n => walk_node top n
          | None => []
          end), w).

End os.

Module shutil.

(** [shutil.rmtree(p)]. *)
Definition rmtree (p : str) : M unit :=
  fun w =>
    let w := log (Rmtree p) w in
    match os.resolve (fs w) p, os.path_names p with
    | Some (Dir _), Some (n :: ns) =>
      let names := n :: ns in
      (Ret tt, with_fs w (os.update (removelast names) (os.remove (last names [])) (fs w)))
    | Some (Dir _), _ => (Raise (Exc OSError p), with_fs w [])
    | Some File, _ => (Raise (Exc NotADirectoryError p), w)
    | None, _ => (Raise (Exc FileNotFoundError p), w)
    end.

End shutil.

Module subprocess.

Record CompletedProcess := { returncode : Z; stdout : str }.

(** [subprocess.run(args, capture_output=True, ...)]: the child's
    output is captured, never shown. *)
Definition run (args : list str) : M CompletedProcess :=
  fun w =>
    let w' := log (Spawn args) w in
    match proc w (trace w) args with
    | Completed rc out => (Ret {| returncode := rc; stdout := out |}, w')
    | Failed k msg => (Raise (Exc k msg), w')
    end.

End subprocess.

Import subprocess.

(* ================================================================= *)
(** ** The script *)

Definition APP_NAME : str := u8 "動画変換ツール".
Definition APP_VERSION : str := u8 "1.0.0".
Definition COPYRIGHT : str := u8 "Copyright 2024 led-mirage".
Definition APP_DESCRIPTION_RESOLUTION_CONVERT : str :=
  u8 "指定の解像度に動画を変換します。コーデックは H264/AAC となります。".
Definition APP_DESCRIPTION_AUDIO_EXTRACT : str :=
  u8 "動画から音声を抽出します。コーデックは mp3 となります。".
Definition BIN_FFMPEG_PATH : str := os.path.join (u8 "bin") (u8 "ffmpeg.exe").
Definition SYSTEM_FFMPEG_PATH : str := u8 "ffmpeg.exe".
Definition INPUT_FOLDER : str := u8 "01.入力".
Definition OUTPUT_FOLDER : str := u8 "02.出力".
Definition SUPPORTED_FORMATS : list str :=
  [u8 ".mp4"; u8 ".avi"; u8 ".mkv"; u8 ".flv"; u8 ".mov"; u8 ".wmv"].

(** [argparse] is taken as given: the world holds the mode it parsed
    ([--mode], one of [convert] and [extract], [convert] when
    absent). *)
Definition parse_argument : M (Mode * str) :=
  fun w =>
    let mode := cli_mode w in
    let description :=
      match mode with
      | convert => APP_DESCRIPTION_RESOLUTION_CONVERT
      | extract => APP_DESCRIPTION_AUDIO_EXTRACT
      end in
    (Ret (mode, description), w).

Definition find_ffmpeg : M (option str) :=
  bundled <- os.path.isfile BIN_FFMPEG_PATH;;
  if bundled : bool then ret (Some BIN_FFMPEG_PATH)
  else
    result <- subprocess.run [SYSTEM_FFMPEG_PATH; u8 "-version"];;
    if (returncode result =? 0)%Z then ret (Some SYSTEM_FFMPEG_PATH)
    else ret None.

(** The [return] inside the [try] is the [Some] of the block; falling
    out of it, or out of the handler, reaches the last line. *)
Definition get_ffmpeg_version (ffmpeg_path : str) : M str :=
  early <-
    try_except
      (result <- subprocess.run [ffmpeg_path; u8 "-version"];;
       if (returncode result =? 0)%Z then
         let version_info := hd [] (Py.split (stdout result) 10%N) in
         ret (Some version_info)
       else ret None)
      Exception
      (fun _ e => print (u8 "Error retrieving FFmpeg version: " ++ e);; ret None);;
  match early with
  | Some version_info => ret version_info
  | None => ret (u8 "不明")
  end.

Definition is_nvenc_available (ffmpeg_path : str) : M bool :=
  try_except
    (result <- subprocess.run [ffmpeg_path; u8 "-encoders"];;
     ret (Py.contains (stdout result) (u8 "h264_nvenc")))
    Exception
    (fun _ e => print (u8 "Error checking NVENC availability: " ++ e);; ret false).

Definition clear_output_folder : M unit :=
  there <- os.path.exists_ OUTPUT_FOLDER;;
  (if there : bool then shutil.rmtree OUTPUT_FOLDER else ret tt);;
  os.makedirs OUTPUT_FOLDER false.

Definition supported (file : str) : bool :=
  Py.mem (Py.lower (snd (os.path.splitext file))) SUPPORTED_FORMATS.

Definition get_input_files : M (list str) :=
  walked <- os.walk INPUT_FOLDER;;
  ret (flat_map
         (fun step : str * list str * list str =>
            let '(root, _, files) := step in
            flat_map
              (fun file => if supported file then [os.path.join root file] else [])
              files)
         walked).

Definition get_output_path (input_path input_folder output_folder : str)
    (target_height : option Z) (is_audio_only : bool) : M str :=
  relative_path <- os.path.relpath input_path input_folder;;
  let '(base, ext) := os.path.splitext relative_path in
  let output_relative_path :=
    if is_audio_only then base ++ u8 ".mp3"
    else base ++ u8 "_" ++ Py.format target_height ++ u8 "p" ++ ext in
  ret (os.path.join output_folder output_relative_path).

Definition convert_video (input_path output_path : str) (target_height : Z)
    (video_codec audio_codec ffmpeg_path : str) : M unit :=
  let command :=
    [ffmpeg_path; u8 "-y"; u8 "-i"; input_path;
     u8 "-vf"; u8 "scale=-1:" ++ Py.str_of_int target_height;
     u8 "-c:v"; video_codec;
     u8 "-c:a"; audio_codec] in
  let command :=
    if Py.eqb audio_codec (u8 "aac")
    then command ++ [u8 "-strict"; u8 "experimental"] else command in
  let command := command ++ [output_path] in
  subprocess.run command;; ret tt.

Definition extract_audio (input_path output_path audio_codec audio_bitrate
    ffmpeg_path : str) : M unit :=
  let command :=
    [ffmpeg_path; u8 "-y"; u8 "-i"; input_path;
     u8 "-vn";
     u8 "-c:a"; audio_codec;
     u8 "-b:a"; audio_bitrate;
     output_path] in
  subprocess.run command;; ret tt.

(** One round of the prompt loop. *)
Definition get_target_height_round : M (option Z) :=
  try_except
    (print (u8 "変換後の動画の高さを入力してください（例：480）");;
     line <- input (u8 "> ");;
     match Py.int line with
     | None => raise ValueError (u8 "invalid literal for int() with base 10")
     | Some target_height => print_;; ret (Some target_height)
     end)
    isValueError
    (fun _ _ => print (u8 "数値を入力してください。");; print_;; ret None).

(** Every round reads a line, so one round more than there are lines
    waiting is enough. *)
Definition get_target_height : M Z :=
  fun w => while_true (S (length (stdin w))) get_target_height_round w.

Definition progress (i total_files : nat) (input_file : str) : str :=
  u8 "・(" ++ Py.str_of_int (Z.of_nat (i + 1)) ++ u8 "/"
    ++ Py.str_of_int (Z.of_nat total_files) ++ u8 ") " ++ input_file ++ u8 "...".

Definition process_convert_resolution (ffmpeg_path : str) (input_files : list str)
    : M unit :=
  target_height <- get_target_height;;
  nvenc <- is_nvenc_available ffmpeg_path;;
  video_codec <-
    (if nvenc : bool then
       print (u8 "GPUを使用して動画のエンコーディングを行います。");;
       print_;;
       ret (u8 "h264_nvenc")
     else ret (u8 "libx264"));;
  let audio_codec := u8 "aac" in
  clear_output_folder;;
  print (u8 "動画の変換を開始します。");;
  let total_files := length input_files in
  for_enumerate 0 input_files (fun i input_file =>
    print_end (progress i total_files input_file) [];;
    output_path <- get_output_path input_file INPUT_FOLDER OUTPUT_FOLDER
                     (Some target_height) false;;
    os.makedirs (os.path.dirname output_path) true;;
    convert_video input_file output_path target_height video_codec audio_codec
      ffmpeg_path;;
    print (u8 "変換完了！")).

Definition process_extract_audio (ffmpeg_path : str) (input_files : list str)
    : M unit :=
  line <- input (u8 "音声抽出を開始しますか？ (y/n): ");;
  let user_input := Py.lower (Py.strip line) in
  if negb (Py.eqb user_input (u8 "y")) then ret tt
  else
    print_;;
    let audio_codec := u8 "mp3" in
    let audio_bitrate := u8 "192k" in
    clear_output_folder;;
    print (u8 "音声の抽出を開始します。");;
    let total_files := length input_files in
    for_enumerate 0 input_files (fun i input_file =>
      print_end (progress i total_files input_file) [];;
      output_path <- get_output_path input_file INPUT_FOLDER OUTPUT_FOLDER
                       None true;;
      os.makedirs (os.path.dirname output_path) true;;
      extract_audio input_file output_path audio_codec audio_bitrate ffmpeg_path;;
      print (u8 "抽出完了！")).

Definition rule : str :=
  u8 "----------------------------------------------------------------------".

Definition main : M unit :=
  '(mode, description) <- parse_argument;;
  print rule;;
  print (u8 " " ++ APP_NAME ++ u8 " " ++ APP_VERSION);;
  print_;;
  print (u8 " " ++ description);;
  print_;;
  print (u8 " " ++ COPYRIGHT);;
  print rule;;
  print_;;
  found <- find_ffmpeg;;
  ffmpeg_path <-
    match found with
    | None =>
      print (u8 "エラー: FFmpeg が見つかりません。binフォルダに配置するか、システムパスに追加してください。");;
      sys.exit 1
    | Some ffmpeg_path =>
      print (u8 "このツールは以下のFFmpegを使用して動画を変換します。");;
      version <- get_ffmpeg_version ffmpeg_path;;
      print version;;
      print_;;
      ret ffmpeg_path
    end;;
  os.makedirs INPUT_FOLDER true;;
  os.makedirs OUTPUT_FOLDER true;;
  input_files <- get_input_files;;
  if Nat.eqb (length input_files) 0 then
    print (INPUT_FOLDER ++ u8 "フォルダに変換元のファイルを保存してから実行してください。")
  else
    match mode with
    | convert => process_convert_resolution ffmpeg_path input_files
    | extract => process_extract_audio ffmpeg_path input_files
    end.

(** Names a directory entry can have: not empty, no separator, and
    neither [.] nor [..]. *)
Definition valid_name (s : str) : bool :=
  negb (Py.eqb s []) && negb (existsb (N.eqb os.sep) s)
  && negb (Py.eqb s os.curdir) && negb (Py.eqb s os.pardir).

(* ================================================================= *)
(** ** Vocabulary of the statements *)

(** The world after [rest] is what is left of standard input and
    [evs] has happened. *)
Definition advance (w : World) (rest : list str) (evs : list event) : World :=
  mkWorld (cli_mode w) (cwd w) (fs w) rest (trace w ++ evs) (proc w).

(** The world after the file system has become [f] and [evs] has
    happened. *)
Definition evolve (w : World) (f : entries) (evs : list event) : World :=
  mkWorld (cli_mode w) (cwd w) f (stdin w) (trace w ++ evs) (proc w).

(** The events between [w] and a later world [w']. *)
Definition new_events (w w' : World) : list event :=
  skipn (length (trace w)) (trace w').

(** The calls of the destructive reset of the output folder:
    [shutil.rmtree], and [os.makedirs] without [exist_ok] (the other
    calls of [os.makedirs] in the script pass [exist_ok=True]). *)
Definition is_reset (e : event) : bool :=
  match e with
  | Rmtree _ => true
  | Makedirs _ exist_ok => negb exist_ok
  | _ => false
  end.

(** The child processes that write an output file: the command lines
    of [convert_video] and [extract_audio], which start with the
    encoder and [-y]. *)
Definition is_encoding (e : event) : bool :=
  match e with
  | Spawn (_ :: flag :: _) => Py.eqb flag (u8 "-y")
  | _ => false
  end.

Definition any_event (e : event) : Prop := True.

(** Events of the start of a run: no reset and no encoding. *)
Definition quiet (e : event) : Prop := is_reset e = false /\ is_encoding e = false.

(** Events of a job once the output folder has been reset. *)
Definition job_event (e : event) : Prop := is_reset e = false.

(** The events of one call of [clear_output_folder]. *)
Definition reset_block (mid : list event) : Prop :=
  mid = [Makedirs OUTPUT_FOLDER false] \/
  mid = [Rmtree OUTPUT_FOLDER] \/
  mid = [Rmtree OUTPUT_FOLDER; Makedirs OUTPUT_FOLDER false].

(** A run in order: a quiet start, then at most one reset, and only
    after a reset the events of a job. *)
Definition disciplined (evs : list event) : Prop :=
  exists pre mid post,
    evs = pre ++ mid ++ post /\
    Forall quiet pre /\
    (mid = [] \/ reset_block mid) /\
    Forall job_event post /\
    (mid = [] -> post = []).

(** Computations whose events are [disciplined]. *)
Definition orderly {A} (m : M A) : Prop :=
  forall w, exists evs, trace (snd (m w)) = trace w ++ evs /\ disciplined evs.

Definition is_spawn (e : event) : bool :=
  match e with Spawn _ => true | _ => false end.

(** The file system has only gained entries at the top. *)
Definition grows (f g : entries) : Prop :=
  forall name n, os.lookup f name = Some n -> os.lookup g name = Some n.

(** The input files [get_input_files] finds in a file system. *)
Definition found_in (f : entries) : list str :=
  flat_map
    (fun step : str * list str * list str =>
       let '(root, _, files) := step in
       flat_map
         (fun file => if supported file then [os.path.join root file] else [])
         files)
    (match os.resolve f INPUT_FOLDER with
     | Some n => os.walk_node INPUT_FOLDER n
     | None => []
     end).

(** The question of the audio job. *)
Definition confirm_prompt : str := u8 "音声抽出を開始しますか？ (y/n): ".

(** [leads P F w w']: from [w] to [w'] the trace has grown by events
    that all satisfy [P], and the file system has moved along [F]. *)
Definition leads (P : event -> Prop) (F : entries -> entries -> Prop)
    (w w' : World) : Prop :=
  (exists evs, trace w' = trace w ++ evs /\ Forall P evs) /\ F (fs w) (fs w').

(** Every run of [m] leads from its first world to its last. *)
Definition within (P : event -> Prop) (F : entries -> entries -> Prop)
    {A} (m : M A) : Prop :=
  forall w, leads P F w (snd (m w)).

(** Any change of the file system. *)
Definition any_fs (f g : entries) : Prop := True.

(** Events that never happen. *)
Definition no_event (e : event) : Prop := False.

(** Since [w0] nothing but quiet events has happened, the file system
    has only grown, and there is still no input file to find. *)
Definition idle_since (w0 w : World) : Prop :=
  leads quiet grows w0 w /\ found_in (fs w) = [].

(** The components of the absolute, normalised form of [p], as
    [relpath] takes them. *)
Definition components (cwd p : str) : list str :=
  filter (fun x => negb (Py.eqb x [])) (Py.split (os.path.abspath_in cwd p) os.sep).

(** [p] lies below [root], through the names [segs]: made absolute
    and normalised, [p] is [root] followed by [segs]. *)
Definition below (cwd root p : str) (segs : list str) : Prop :=
  components cwd p = components cwd root ++ segs.

(** The directories written before a name: nothing, or text that ends
    with a separator. *)
Definition dir_prefix (D : str) : Prop := D = [] \/ exists D0, D = D0 ++ [os.sep].

(** A component kept by [normpath]: not empty, without separator. *)
Definition component (c : str) : Prop := c <> [] /\ ~ In os.sep c.

(** A property of the world that a computation keeps. *)
Definition keeps (I : World -> Prop) {A} (m : M A) : Prop :=
  forall w, I w -> I (snd (m w)).

(** What a round of the prompt writes when the line is taken, when it
    is refused, and when there is no line to read. *)
Definition height_prompt : list event :=
  [Out (u8 "変換後の動画の高さを入力してください（例：480）" ++ newline); Out (u8 "> ")].

Definition accepted_events : list event := height_prompt ++ [Out newline].

Definition rejected_events : list event :=
  height_prompt ++ [Out (u8 "数値を入力してください。" ++ newline); Out newline].

Definition rejected (line : str) : Prop := Py.int line = None.


(** [v] is the first line of [out]: what comes before the first
    newline, or all of [out] when it has none. *)
Definition first_line_of (out v : str) : Prop :=
  ~ In 10%N v /\ (out = v \/ exists rest, out = v ++ 10%N :: rest).

(** *** The input tree *)

(** [file_at n segs]: below the directory [n], going through the
    directories [segs] but the last, there is an entry named by the
    last of [segs] that is not a directory. *)
Inductive file_at : node -> list str -> Prop :=
| file_here es name :
    In (name, File) es -> file_at (Dir es) [name]
| file_below es name child segs :
    In (name, child) es -> file_at child segs -> file_at (Dir es) (name :: segs).

(** The extension of [file], compared without regard to case, is one
    of the supported ones. *)
Definition extension_matches (file : str) : Prop :=
  exists e, In e SUPPORTED_FORMATS /\
            Py.lower (snd (os.path.splitext file)) = Py.lower e.

Fixpoint nodupb (l : list str) : bool :=
  match l with
  | [] => true
  | x :: t => negb (Py.mem x t) && nodupb t
  end.

(** A tree as a file system has them: in every directory the names
    are valid and differ from one another. *)
Fixpoint well_formed (n : node) : bool :=
  match n with
  | File => true
  | Dir es =>
    nodupb (map fst es)
    && forallb (fun e : str * node => valid_name (fst e) && well_formed (snd e)) es
  end.

(** The supported files below a directory, each as the names that lead
    to it, in the order of the walk. *)
Fixpoint positions (n : node) : list (list str) :=
  match n with
  | File => []
  | Dir es =>
    map (fun name => [name])
        (filter supported (map fst (filter (fun e => negb (os.is_dir e)) es)))
    ++ flat_map (fun e : str * node => map (cons (fst e)) (positions (snd e))) es
  end.

(** What the loops of [get_input_files] collect from a walk. *)
Definition collect (walked : list (str * list str * list str)) : list str :=
  flat_map
    (fun step : str * list str * list str =>
       let '(root, _, files) := step in
       flat_map
         (fun file => if supported file then [os.path.join root file] else [])
         files)
    walked.

Definition str_eq_dec : forall a b : str, {a = b} + {a <> b} :=
  list_eq_dec N.eq_dec.

(** *** Worlds for the examples *)

(** A session in an empty working directory where the user types
    [lines] and every child process succeeds without output. *)
Definition typing (lines : list str) : World :=
  mkWorld convert (u8 "/work") [] lines [] (fun _ _ => Completed 0 []).

(** No ffmpeg anywhere: no bundled binary, and the bare command
    cannot be started. *)
Definition ffmpeg_missing : World :=
  mkWorld convert (u8 "/work") [] [] []
    (fun _ _ => Failed FileNotFoundError
                  (u8 "[Errno 2] No such file or directory: 'ffmpeg.exe'")).

(** A working directory that holds [f], with nobody typing. *)
Definition holding (f : entries) : World :=
  mkWorld convert (u8 "/work") f [] [] (fun _ _ => Completed 0 []).

(* ================================================================= *)
(** ** Vocabulary of the further properties *)

(** What no step of the script changes: the working directory, the
    behaviour of the child processes, the mode. *)
Definition same_setting (w0 w : World) : Prop :=
  cwd w = cwd w0 /\ proc w = proc w0 /\ cli_mode w = cli_mode w0.

(** Events that are not the start of an encoding. *)
Definition not_encoding (e : event) : Prop := is_encoding e = false.

(** The command lines of the two jobs. *)
Definition convert_command (ffmpeg_path input_path output_path : str)
    (target_height : Z) (video_codec audio_codec : str) : list str :=
  [ffmpeg_path; u8 "-y"; u8 "-i"; input_path;
   u8 "-vf"; u8 "scale=-1:" ++ Py.str_of_int target_height;
   u8 "-c:v"; video_codec;
   u8 "-c:a"; audio_codec]
  ++ (if Py.eqb audio_codec (u8 "aac") then [u8 "-strict"; u8 "experimental"] else [])
  ++ [output_path].

Definition extract_command (ffmpeg_path input_path output_path audio_codec
    audio_bitrate : str) : list str :=
  [ffmpeg_path; u8 "-y"; u8 "-i"; input_path;
   u8 "-vn";
   u8 "-c:a"; audio_codec;
   u8 "-b:a"; audio_bitrate;
   output_path].

(** The output path the script derives for an input file in the
    world [w] (the empty string stands for a derivation that
    raises). *)
Definition output_of (w : World) (input_file : str) (height : option Z)
    (audio : bool) : str :=
  match fst (get_output_path input_file INPUT_FOLDER OUTPUT_FOLDER height audio w) with
  | Ret p => p
  | _ => []
  end.

(** The encodings started between [w] and [w']. *)
Definition encodings (w w' : World) : list event :=
  filter is_encoding (new_events w w').

(** From [w], [m] starts the encodings [cmd f] for the files [f] of
    [files], in order, each once, and never more than these.  When
    [strict], it stops early only when it does not return normally. *)
Definition files_in_order (strict : bool) (w0 : World) (cmd : str -> list str)
    (files : list str) (m : M unit) (w : World) : Prop :=
  same_setting w0 (snd (m w)) /\
  exists evs n,
    trace (snd (m w)) = trace w ++ evs /\
    n <= length files /\
    filter is_encoding evs = map (fun f => Spawn (cmd f)) (firstn n files) /\
    (strict = true -> fst (m w) = Ret tt -> n = length files).

Definition in_order (w0 : World) (cmd : str -> list str) (files : list str)
    (m : M unit) : Prop :=
  forall w, same_setting w0 w -> files_in_order true w0 cmd files m w.

(** The same for one of a family of command lines, chosen by the run. *)
Definition some_order (strict : bool) (w0 : World) {C : Type} (chosen : C -> Prop)
    (cmd : C -> str -> list str) (files : list str) (m : M unit) (w : World) : Prop :=
  exists c, chosen c /\ files_in_order strict w0 (cmd c) files m w.

(** Nothing of the setting has changed, and the same input files are
    there to find. *)
Definition same_input (w0 w : World) : Prop :=
  same_setting w0 w /\ found_in (fs w) = found_in (fs w0).

(** The command lines of the two jobs of [main]. *)
Definition convert_job_command (w0 : World) (c : str * Z * bool) (input_file : str)
    : list str :=
  let '(ffmpeg_path, target_height, nvenc) := c in
  convert_command ffmpeg_path input_file
    (output_of w0 input_file (Some target_height) false) target_height
    (if nvenc then u8 "h264_nvenc" else u8 "libx264") (u8 "aac").

Definition extract_job_command (w0 : World) (ffmpeg_path input_file : str) : list str :=
  extract_command ffmpeg_path input_file (output_of w0 input_file None true)
    (u8 "mp3") (u8 "192k").

(** The encoders [find_ffmpeg] can choose. *)
Definition is_ffmpeg (p : str) : Prop := p = BIN_FFMPEG_PATH \/ p = SYSTEM_FFMPEG_PATH.

(** Every file outside the output folder is still there. *)
Definition survives (f g : entries) : Prop :=
  forall segs, hd [] segs <> OUTPUT_FOLDER ->
    file_at (Dir f) segs -> file_at (Dir g) segs.

(** The child processes that run the program [p]. *)
Definition runs (p : str) (e : event) : Prop :=
  match e with
  | Spawn args => hd [] args = p
  | _ => True
  end.

(** The encoder of a run: the bundled one when it is there, the one
    of the search path otherwise. *)
Definition ffmpeg_of (w : World) : str :=
  match fst (os.path.isfile BIN_FFMPEG_PATH w) with
  | Ret true => BIN_FFMPEG_PATH
  | _ => SYSTEM_FFMPEG_PATH
  end.

(** [hoare P m Q]: from a world where [P] holds, [m] ends with a
    result and in a world that [Q] relates. *)
Definition hoare {A} (P : World -> Prop) (m : M A)
    (Q : result A -> World -> Prop) : Prop :=
  forall w, P w -> Q (fst (m w)) (snd (m w)).

(** Computations that always return a value. *)
Definition returns {A} (m : M A) : Prop := forall w, exists a, fst (m w) = Ret a.

(** Since [w0] the file system is the same and nothing of the
    setting has changed. *)
Definition same_files (w0 w : World) : Prop :=
  same_setting w0 w /\ fs w = fs w0.

(** Since [w0], moreover, nothing has happened but writing [outs] to
    the console and then the events [evs]. *)
Definition only_written (w0 : World) (evs : list event) (w : World) : Prop :=
  same_files w0 w /\ exists outs, trace w = trace w0 ++ map Out outs ++ evs.

(** The encoder is there: bundled, or answering the query with
    status 0. *)
Definition encoder_found (w : World) : Prop :=
  os.resolve (fs w) BIN_FFMPEG_PATH = Some File \/
  forall t, exists out,
    proc w t [SYSTEM_FFMPEG_PATH; u8 "-version"] = Completed 0 out.

(** No bundled encoder, and the one of the search path answers the
    query with another status than 0. *)
Definition encoder_refused (w : World) : Prop :=
  os.resolve (fs w) BIN_FFMPEG_PATH <> Some File /\
  forall t, exists rc out,
    proc w t [SYSTEM_FFMPEG_PATH; u8 "-version"] = Completed rc out /\ rc <> 0%Z.

(** The entries after [os.makedirs(name, exist_ok=True)] has
    returned, for the name of an entry. *)
Definition ensure (name : str) (f : entries) : entries :=
  match os.lookup f name with
  | None => f ++ [(name, Dir [])]
  | Some _ => f
  end.

(** The last lines of a run without an encoder, and of a run without
    input files. *)
Definition no_encoder_message : str :=
  u8 "エラー: FFmpeg が見つかりません。binフォルダに配置するか、システムパスに追加してください。".

Definition no_input_message : str :=
  INPUT_FOLDER ++ u8 "フォルダに変換元のファイルを保存してから実行してください。".

(** What a job does for one file, when nothing fails: the progress
    line, the directory of the output file, the encoding, the line
    that reports it. *)
Definition file_events (shown output_path : str) (command : list str) (done : str)
    : list event :=
  [Out shown; Makedirs (os.path.dirname output_path) true; Spawn command;
   Out (done ++ newline)].

(** The same for the files of a job, counted from [i]. *)
Fixpoint job_events (i total_files : nat) (files : list str) (output : str -> str)
    (command : str -> str -> list str) (done : str) : list event :=
  match files with
  | [] => []
  | f :: rest =>
    file_events (progress i total_files f) (output f) (command f (output f)) done
    ++ job_events (S i) total_files rest output command done
  end.

(** From [w], [m] starts no encoding at first and then goes through
    [schedule], to its end when it returns normally. *)
Definition scheduled (w0 : World) (schedule : list event) (m : M unit) (w : World)
    : Prop :=
  same_setting w0 (snd (m w)) /\
  exists pre k,
    trace (snd (m w)) = trace w ++ pre ++ firstn k schedule /\
    Forall not_encoding pre /\
    k <= length schedule /\
    (fst (m w) = Ret tt -> k = length schedule).

(** The last part of a path as [os.makedirs] takes it: the tail of
    [split], after a final separator has been dropped. *)
Definition last_part (name : str) : str :=
  let '(head, tail) := os.path.split name in
  let '(head, tail) := if Py.eqb tail [] then os.path.split head else (head, tail) in
  tail.

(** [p] names a directory. *)
Definition is_directory (f : entries) (p : str) : Prop :=
  exists es, os.resolve f p = Some (Dir es).

(** Every directory is still a directory. *)
Definition dirs_stay (f g : entries) : Prop :=
  forall p, is_directory f p -> is_directory g p.

(** The header [main] writes before it looks for the encoder. *)
Definition header_events (mode : Mode) : list event :=
  let description :=
    match mode with
    | convert => APP_DESCRIPTION_RESOLUTION_CONVERT
    | extract => APP_DESCRIPTION_AUDIO_EXTRACT
    end in
  [Out (rule ++ newline);
   Out ((u8 " " ++ APP_NAME ++ u8 " " ++ APP_VERSION) ++ newline);
   Out ([] ++ newline);
   Out ((u8 " " ++ description) ++ newline);
   Out ([] ++ newline);
   Out ((u8 " " ++ COPYRIGHT) ++ newline);
   Out (rule ++ newline);
   Out ([] ++ newline)].

(** The world in which [main] calls [find_ffmpeg]: the one it starts
    in, after the header. *)
Definition at_find_ffmpeg (w : World) : World :=
  evolve w (fs w) (header_events (cli_mode w)).
(* ================================================================= *)
(** ** Facts about strings *)

Section Strings.

Implicit Types (s t p : str) (c : Py.char).

Lemma eqb_eq s t : Py.eqb s t = true <-> s = t.
Proof.
  revert t; induction s as [|x s IH]; intros [|y t]; simpl;
    try (split; [discriminate | intros H; inversion H]); try tauto.
  rewrite andb_true_iff, N.eqb_eq, IH.
  split; [intros [-> ->]; reflexivity | intros H; inversion H; auto].
Qed.

Lemma eqb_refl s : Py.eqb s s = true.
Proof. apply eqb_eq; reflexivity. Qed.

Lemma eqb_neq s t : Py.eqb s t = false <-> s <> t.
Proof.
  rewrite <- eqb_eq. destruct (Py.eqb s t); split; congruence.
Qed.

Lemma mem_In s (l : list str) : Py.mem s l = true <-> In s l.
Proof.
  unfold Py.mem. rewrite existsb_exists. split.
  - intros [x [Hx E]]. apply eqb_eq in E. subst; assumption.
  - intros H. exists s. split; [assumption | apply eqb_refl].
Qed.

Lemma startswith_prefix s p : Py.startswith s p = true <-> exists t, s = p ++ t.
Proof.
  revert s; induction p as [|y p IH]; intros s; simpl.
  - split; [intros _; exists s; reflexivity | destruct s; reflexivity].
  - destruct s as [|x s].
    + split; [discriminate | intros [t H]; discriminate].
    + simpl. rewrite andb_true_iff, N.eqb_eq, IH. split.
      * intros [-> [t ->]]. exists t; reflexivity.
      * intros [t H]. inversion H. split; [reflexivity | exists t; reflexivity].
Qed.

(** [sub in s] holds exactly when [sub] occurs somewhere in [s]. *)
Lemma contains_occurs s sub :
  Py.contains s sub = true <-> exists pre post, s = pre ++ sub ++ post.
Proof.
  induction s as [|x s IH]; cbn [Py.contains].
  - rewrite orb_false_r, startswith_prefix. split.
    + intros [t H]. exists [], t. assumption.
    + intros [pre [post H]]. destruct pre; simpl in H.
      * exists post; assumption.
      * discriminate.
  - rewrite orb_true_iff, IH. split.
    + intros [H | [pre [post ->]]].
      * apply startswith_prefix in H. destruct H as [t H].
        exists [], t. assumption.
      * exists (x :: pre), post. reflexivity.
    + intros [pre [post H]]. destruct pre as [|y pre]; simpl in H.
      * left. apply startswith_prefix. exists post. assumption.
      * right. inversion H. exists pre, post. reflexivity.
Qed.

Lemma startswith_cons_false s c x :
  x <> c -> Py.startswith (x :: s) [c] = false.
Proof.
  intros H. simpl. apply N.eqb_neq in H. rewrite H. reflexivity.
Qed.

Lemma endswith_snoc s x c : Py.endswith (s ++ [x]) [c] = (x =? c)%N.
Proof.
  unfold Py.endswith. rewrite rev_app_distr. simpl.
  destruct (rev s); simpl; apply andb_true_r.
Qed.

(** *** [split] and [join] *)

Lemma split_not_nil s c : Py.split s c <> [].
Proof.
  destruct s as [|x s]; simpl; [discriminate|].
  destruct (x =? c)%N; [discriminate|].
  destruct (Py.split s c); discriminate.
Qed.

Lemma split_no_sep s c : ~ In c s -> Py.split s c = [s].
Proof.
  induction s as [|x s IH]; simpl; intros H; [reflexivity|].
  destruct (N.eqb_spec x c) as [E | E]; [exfalso; auto|].
  rewrite IH by tauto. reflexivity.
Qed.

Lemma split_app_sep s t c :
  Py.split (s ++ c :: t) c = Py.split s c ++ Py.split t c.
Proof.
  induction s as [|x s IH]; simpl.
  - rewrite N.eqb_refl. reflexivity.
  - destruct (x =? c)%N.
    + rewrite IH. reflexivity.
    + rewrite IH. pose proof (split_not_nil s c) as H.
      destruct (Py.split s c); [congruence | reflexivity].
Qed.

Lemma split_parts_no_sep s c : Forall (fun p => ~ In c p) (Py.split s c).
Proof.
  induction s as [|x s IH]; simpl.
  - constructor; [tauto | constructor].
  - destruct (N.eqb_spec x c) as [E | E].
    + constructor; [tauto | assumption].
    + destruct (Py.split s c) as [|w ws]; [repeat constructor; simpl; tauto|].
      inversion IH; subst. constructor; [|assumption].
      simpl. intros [H | H]; [congruence | auto].
Qed.

Lemma join_cons c p (ps : list str) :
  Py.join [c] (p :: ps) = p ++ concat (map (cons c) ps).
Proof.
  revert p; induction ps as [|q ps IH]; intros p.
  - simpl. rewrite app_nil_r. reflexivity.
  - change (Py.join [c] (p :: q :: ps)) with (p ++ [c] ++ Py.join [c] (q :: ps)).
    rewrite IH. reflexivity.
Qed.

Lemma split_join c (ps : list str) :
  ps <> [] -> Forall (fun p => ~ In c p) ps -> Py.split (Py.join [c] ps) c = ps.
Proof.
  induction ps as [|p ps IH]; intros Hne H; [congruence|].
  inversion H as [|? ? Hp Hps]; subst.
  destruct ps as [|q ps].
  - simpl. apply split_no_sep. assumption.
  - change (Py.join [c] (p :: q :: ps)) with (p ++ c :: Py.join [c] (q :: ps)).
    rewrite split_app_sep, split_no_sep by assumption.
    rewrite IH by (assumption || discriminate). reflexivity.
Qed.

(** *** [rfind] *)

Lemma rfind_bounds s c : (-1 <= Py.rfind s c < Z.of_nat (length s))%Z.
Proof.
  induction s as [|x s IH]; simpl; [lia|].
  destruct (0 <=? Py.rfind s c)%Z eqn:E.
  - lia.
  - destruct (x =? c)%N; lia.
Qed.

Lemma rfind_absent s c : ~ In c s -> Py.rfind s c = (-1)%Z.
Proof.
  induction s as [|x s IH]; simpl; intros H; [reflexivity|].
  rewrite IH by tauto. simpl.
  destruct (N.eqb_spec x c); [exfalso; auto | reflexivity].
Qed.

Lemma rfind_app s t c :
  Py.rfind (s ++ t) c =
  if (0 <=? Py.rfind t c)%Z then (Z.of_nat (length s) + Py.rfind t c)%Z
  else Py.rfind s c.
Proof.
  induction s as [|x s IH].
  - cbn [app length Py.rfind]. pose proof (rfind_bounds t c).
    destruct (0 <=? Py.rfind t c)%Z eqn:E; [lia|].
    apply Z.leb_gt in E. lia.
  - cbn [app length Py.rfind]. rewrite IH, Nat2Z.inj_succ.
    pose proof (rfind_bounds s c).
    destruct (0 <=? Py.rfind t c)%Z eqn:E; [|reflexivity].
    apply Z.leb_le in E.
    replace (0 <=? Z.of_nat (length s) + Py.rfind t c)%Z with true
      by (symmetry; apply Z.leb_le; lia).
    lia.
Qed.

Lemma rfind_snoc s c : Py.rfind (s ++ [c]) c = Z.of_nat (length s).
Proof.
  rewrite rfind_app. cbn [Py.rfind]. rewrite N.eqb_refl. simpl. lia.
Qed.

Lemma upto_app s t : Py.upto (s ++ t) (Z.of_nat (length s)) = s.
Proof.
  unfold Py.upto. rewrite Nat2Z.id, firstn_app, Nat.sub_diag, firstn_all.
  simpl. apply app_nil_r.
Qed.

Lemma from_app s t : Py.from (s ++ t) (Z.of_nat (length s)) = t.
Proof.
  unfold Py.from. rewrite Nat2Z.id, skipn_app, Nat.sub_diag, skipn_all.
  reflexivity.
Qed.

Lemma upto_app_more s t (i : Z) :
  (0 <= i)%Z -> Py.upto (s ++ t) (Z.of_nat (length s) + i) = s ++ Py.upto t i.
Proof.
  intros H. unfold Py.upto.
  rewrite Z2Nat.inj_add, Nat2Z.id by lia.
  rewrite firstn_app.
  replace (length s + Z.to_nat i - length s) with (Z.to_nat i) by lia.
  rewrite firstn_all2 by lia. reflexivity.
Qed.

Lemma from_app_more s t (i : Z) :
  (0 <= i)%Z -> Py.from (s ++ t) (Z.of_nat (length s) + i) = Py.from t i.
Proof.
  intros H. unfold Py.from.
  rewrite Z2Nat.inj_add, Nat2Z.id by lia.
  rewrite skipn_app.
  replace (length s + Z.to_nat i - length s) with (Z.to_nat i) by lia.
  rewrite skipn_all2 by lia. reflexivity.
Qed.

Lemma upto_from s (i : Z) : Py.upto s i ++ Py.from s i = s.
Proof. apply firstn_skipn. Qed.

End Strings.

(* ================================================================= *)
(** ** The target-height prompt *)

Lemma advance_advance w r1 e1 r2 e2 :
  advance (advance w r1 e1) r2 e2 = advance w r2 (e1 ++ e2).
Proof. unfold advance; simpl. rewrite app_assoc. reflexivity. Qed.

Lemma round_accepts w line rest v :
  stdin w = line :: rest -> Py.int line = Some v ->
  get_target_height_round w = (Ret (Some v), advance w rest accepted_events).
Proof.
  intros Hin Hv.
  unfold get_target_height_round, try_except, bind, print_, print, input, ret.
  simpl. rewrite Hin, Hv. unfold advance, log, with_stdin. simpl.
  rewrite <- !app_assoc. reflexivity.
Qed.

Lemma round_rejects w line rest :
  stdin w = line :: rest -> rejected line ->
  get_target_height_round w = (Ret None, advance w rest rejected_events).
Proof.
  intros Hin Hv.
  unfold get_target_height_round, try_except, bind, print_, print, input, ret, raise.
  simpl. rewrite Hin, Hv. unfold advance, log, with_stdin. simpl.
  rewrite <- !app_assoc. reflexivity.
Qed.

Lemma round_eof w :
  stdin w = [] ->
  get_target_height_round w =
  (Raise (Exc EOFError (u8 "EOF when reading a line")), advance w [] height_prompt).
Proof.
  intros Hin.
  unfold get_target_height_round, try_except, bind, print_, print, input, ret, raise.
  simpl. rewrite Hin. unfold advance, log, with_stdin. simpl.
  rewrite <- !app_assoc, Hin. reflexivity.
Qed.

Lemma prompt_loop_returns bad : forall w n line rest v,
  stdin w = bad ++ line :: rest -> Forall rejected bad -> Py.int line = Some v ->
  length bad < n ->
  while_true n get_target_height_round w =
  (Ret v, advance w rest (flat_map (fun _ => rejected_events) bad ++ accepted_events)).
Proof.
  induction bad as [|b bad IH]; intros w n line rest v Hin Hbad Hv Hn;
    (destruct n as [|n]; [inversion Hn|]); cbn [while_true]; unfold bind at 1.
  - rewrite (round_accepts w line rest v Hin Hv). reflexivity.
  - inversion Hbad as [|? ? Hb Hbad']; subst.
    rewrite (round_rejects w b _ Hin Hb).
    rewrite (IH _ n line rest v); try assumption; try reflexivity.
    + rewrite advance_advance. cbn [flat_map]. rewrite <- app_assoc. reflexivity.
    + simpl in Hn. lia.
Qed.

Lemma prompt_loop_eof lines : forall w n,
  stdin w = lines -> Forall rejected lines -> length lines < n ->
  while_true n get_target_height_round w =
  (Raise (Exc EOFError (u8 "EOF when reading a line")),
   advance w [] (flat_map (fun _ => rejected_events) lines ++ height_prompt)).
Proof.
  induction lines as [|b lines IH]; intros w n Hin Hbad Hn;
    (destruct n as [|n]; [inversion Hn|]); cbn [while_true]; unfold bind at 1.
  - rewrite (round_eof w Hin). reflexivity.
  - inversion Hbad as [|? ? Hb Hbad']; subst.
    rewrite (round_rejects w b _ Hin Hb).
    rewrite (IH _ n); try assumption; try reflexivity.
    + rewrite advance_advance. cbn [flat_map]. rewrite <- app_assoc. reflexivity.
    + simpl in Hn. lia.
Qed.

(** Either no line is an integer, or there is a first one. *)
Lemma first_integer (lines : list str) :
  Forall rejected lines \/
  exists bad line rest v,
    lines = bad ++ line :: rest /\ Forall rejected bad /\ Py.int line = Some v.
Proof.
  induction lines as [|l lines IH].
  - left. constructor.
  - destruct (Py.int l) as [v|] eqn:E.
    + right. exists [], l, lines, v. repeat split; [constructor | assumption].
    + destruct IH as [IH | [bad [line [rest [v [H1 [H2 H3]]]]]]].
      * left. constructor; assumption.
      * right. exists (l :: bad), line, rest, v. subst lines.
        repeat split; [constructor; assumption | assumption].
Qed.

(** C1, as amended.  [get_target_height] returns [v] exactly when the
    lines typed are some lines [int] refuses followed by a line it
    reads as [v]; each refused line is answered by the error message
    and a new prompt, and nothing but these lines is consumed.  The
    value is the integer read, whatever its sign.  When no line is an
    integer the call ends with the [EOFError] of [input].  The
    sequence abc, -, 480 gives 480. *)
Theorem get_target_height_first_integer : forall w,
  (forall v,
     fst (get_target_height w) = Ret v <->
     exists bad line rest,
       stdin w = bad ++ line :: rest /\ Forall rejected bad /\
       Py.int line = Some v /\
       snd (get_target_height w) =
       advance w rest (flat_map (fun _ => rejected_events) bad ++ accepted_events))
  /\ (Forall rejected (stdin w) ->
      fst (get_target_height w) = Raise (Exc EOFError (u8 "EOF when reading a line")))
  /\ (stdin w = [u8 "abc"; u8 "-"; u8 "480"] ->
      fst (get_target_height w) = Ret 480%Z).
Proof.
  intros w.
  assert (Hret : forall bad line rest v,
             stdin w = bad ++ line :: rest -> Forall rejected bad ->
             Py.int line = Some v ->
             get_target_height w =
             (Ret v, advance w rest
                       (flat_map (fun _ => rejected_events) bad ++ accepted_events))).
  { intros bad line rest v Hin Hbad Hv. unfold get_target_height.
    apply prompt_loop_returns with (line := line); try assumption.
    rewrite Hin, length_app. simpl. lia. }
  assert (Heof : Forall rejected (stdin w) ->
                 fst (get_target_height w) =
                 Raise (Exc EOFError (u8 "EOF when reading a line"))).
  { intros Hbad. unfold get_target_height.
    rewrite (prompt_loop_eof (stdin w)); auto. }
  split; [|split].
  - intros v. split.
    + intros Hv.
      destruct (first_integer (stdin w)) as [Hall | [bad [line [rest [v' [H1 [H2 H3]]]]]]].
      * rewrite (Heof Hall) in Hv. discriminate.
      * pose proof (Hret _ _ _ _ H1 H2 H3) as E. rewrite E in Hv. simpl in Hv.
        inversion Hv; subst v'. exists bad, line, rest.
        rewrite E. auto.
    + intros [bad [line [rest [H1 [H2 [H3 _]]]]]].
      rewrite (Hret _ _ _ _ H1 H2 H3). reflexivity.
  - exact Heof.
  - intros Hin.
    rewrite (Hret [u8 "abc"; u8 "-"] (u8 "480") [] 480%Z); try reflexivity.
    + exact Hin.
    + repeat constructor.
Qed.

(** C1 as stated fails: a line that reads as a negative integer or as
    zero is returned like any other. *)
Lemma get_target_height_not_positive :
  fst (get_target_height (typing [u8 "-5"])) = Ret (-5)%Z /\
  fst (get_target_height (typing [u8 "0"])) = Ret 0%Z.
Proof. split; vm_compute; reflexivity. Qed.

(* ================================================================= *)
(** ** Locating and probing the encoder *)

Lemma split_head_first_line (s : str) (c : Py.char) :
  let v := hd [] (Py.split s c) in
  ~ In c v /\ (s = v \/ exists rest, s = v ++ c :: rest).
Proof.
  induction s as [|x s IH]; simpl.
  - split; [tauto | left; reflexivity].
  - destruct (N.eqb_spec x c) as [E | E].
    + subst x. simpl. split; [tauto | right; exists s; reflexivity].
    + pose proof (split_not_nil s c) as Hne.
      destruct (Py.split s c) as [|w ws]; [congruence|].
      simpl in IH. destruct IH as [Hw Hs]. simpl. split.
      * intros [H | H]; [congruence | auto].
      * destruct Hs as [-> | [rest ->]]; [left; reflexivity|].
        right. exists rest. reflexivity.
Qed.

(** What [find_ffmpeg] does in every case: the bundled binary wins;
    without it the exit status of the bare command decides; and an
    exception of [subprocess.run] is not handled. *)
Lemma find_ffmpeg_cases : forall w,
  fst (find_ffmpeg w) =
  match os.resolve (fs w) BIN_FFMPEG_PATH with
  | Some File => Ret (Some BIN_FFMPEG_PATH)
  | _ =>
    match proc w (trace w) [SYSTEM_FFMPEG_PATH; u8 "-version"] with
    | Completed rc _ => Ret (if (rc =? 0)%Z then Some SYSTEM_FFMPEG_PATH else None)
    | Failed k msg => Raise (Exc k msg)
    end
  end.
Proof.
  intros w. unfold find_ffmpeg, bind, os.path.isfile, subprocess.run, ret.
  cbn [fst snd].
  destruct (os.resolve (fs w) BIN_FFMPEG_PATH) as [[|es]|];
    try reflexivity;
    destruct (proc w (trace w) [SYSTEM_FFMPEG_PATH; u8 "-version"]) as [rc out|k msg];
    cbn [returncode]; try reflexivity; destruct (rc =? 0)%Z; reflexivity.
Qed.

(** C4 fails on the code: with no bundled binary and no [ffmpeg.exe]
    on the search path, [subprocess.run] raises [FileNotFoundError]
    and [find_ffmpeg] lets it through instead of returning [None]. *)
Theorem find_ffmpeg_raises_when_missing :
  fst (find_ffmpeg ffmpeg_missing) =
  Raise (Exc FileNotFoundError (u8 "[Errno 2] No such file or directory: 'ffmpeg.exe'")).
Proof. vm_compute. reflexivity. Qed.

(** C5, as amended.  [get_ffmpeg_version] always returns a string:
    the first line of the captured output when the query exits with
    status zero (the empty string when the output is empty), and the
    sentinel when the query exits with another status or
    [subprocess.run] raises. *)
Theorem get_ffmpeg_version_first_line_or_sentinel : forall ffmpeg_path w,
  exists v,
    fst (get_ffmpeg_version ffmpeg_path w) = Ret v /\
    match proc w (trace w) [ffmpeg_path; u8 "-version"] with
    | Completed rc out => if (rc =? 0)%Z then first_line_of out v else v = u8 "不明"
    | Failed _ _ => v = u8 "不明"
    end.
Proof.
  intros p w.
  unfold get_ffmpeg_version, bind, try_except, subprocess.run, ret, print, Exception.
  cbn [fst snd].
  destruct (proc w (trace w) [p; u8 "-version"]) as [rc out|k msg]; cbn [returncode stdout].
  - destruct (rc =? 0)%Z.
    + eexists. split; [reflexivity|]. apply split_head_first_line.
    + eexists. split; reflexivity.
  - eexists. split; reflexivity.
Qed.

(** C5 as stated fails: a query that succeeds without output gives the
    empty string, not the sentinel. *)
Lemma get_ffmpeg_version_empty_output :
  fst (get_ffmpeg_version SYSTEM_FFMPEG_PATH (typing [])) = Ret [] /\
  Py.eqb [] (u8 "不明") = false.
Proof. split; vm_compute; reflexivity. Qed.

(** C9.  [is_nvenc_available] always returns a boolean; it is [true]
    exactly when the listing completed (with any exit status) and its
    captured output contains [h264_nvenc], and [false] whenever
    [subprocess.run] raised. *)
Theorem is_nvenc_available_reads_the_listing : forall ffmpeg_path w,
  exists b,
    fst (is_nvenc_available ffmpeg_path w) = Ret b /\
    (b = true <->
     exists rc pre post,
       proc w (trace w) [ffmpeg_path; u8 "-encoders"] =
       Completed rc (pre ++ u8 "h264_nvenc" ++ post)) /\
    (forall k msg,
       proc w (trace w) [ffmpeg_path; u8 "-encoders"] = Failed k msg -> b = false).
Proof.
  intros p w.
  unfold is_nvenc_available, bind, try_except, subprocess.run, ret, print, Exception.
  cbn [fst snd].
  destruct (proc w (trace w) [p; u8 "-encoders"]) as [rc out|k msg]; cbn [stdout].
  - eexists. split; [reflexivity|]. split.
    + rewrite contains_occurs. split.
      * intros [pre [post ->]]. exists rc, pre, post. reflexivity.
      * intros [rc' [pre [post H]]]. inversion H. exists pre, post. reflexivity.
    + intros k msg H. discriminate.
  - exists false. split; [reflexivity|]. split.
    + split; [discriminate | intros [rc [pre [post H]]]; discriminate].
    + reflexivity.
Qed.

(* ================================================================= *)
(** ** What a computation can do to the world *)

(** A computation stays [within P F] when every run of it [leads]
    from the world it starts in to the world it ends in; the property
    follows the structure of the code. *)
Section Effects.

Variable P : event -> Prop.
Variable F : entries -> entries -> Prop.
Hypothesis F_refl : forall f, F f f.
Hypothesis F_trans : forall f g h, F f g -> F g h -> F f h.

Lemma leads_refl w : leads P F w w.
Proof.
  split; [|apply F_refl]. exists []. rewrite app_nil_r. split; [reflexivity | constructor].
Qed.

Lemma leads_trans w1 w2 w3 : leads P F w1 w2 -> leads P F w2 w3 -> leads P F w1 w3.
Proof.
  intros [[e1 [T1 P1]] F1] [[e2 [T2 P2]] F2]. split.
  - exists (e1 ++ e2). rewrite T2, T1, app_assoc. split; [reflexivity|].
    apply Forall_app; split; assumption.
  - eapply F_trans; eassumption.
Qed.

Lemma leads_log e w : P e -> leads P F w (log e w).
Proof.
  intros H. split; [|apply F_refl]. exists [e]. split; [reflexivity | repeat constructor; assumption].
Qed.

Lemma within_ret A (a : A) : within P F (ret a).
Proof. intros w. apply leads_refl. Qed.

Lemma within_raise A k msg : within P F (@raise A k msg).
Proof. intros w. apply leads_refl. Qed.

Lemma within_exit A code : within P F (@sys.exit A code).
Proof. intros w. apply leads_refl. Qed.

Lemma within_bind A B (m : M A) (k : A -> M B) :
  within P F m -> (forall a, within P F (k a)) -> within P F (bind m k).
Proof.
  intros Hm Hk w. unfold bind. specialize (Hm w).
  destruct (m w) as [[a| |] w1]; simpl in *; try assumption.
  eapply leads_trans; [eassumption | apply Hk].
Qed.

Lemma within_try_except A (body : M A) cls handler :
  within P F body -> (forall k msg, within P F (handler k msg)) ->
  within P F (try_except body cls handler).
Proof.
  intros Hb Hh w. unfold try_except. specialize (Hb w).
  destruct (body w) as [[a|[k msg|code]|] w1]; simpl in *; try assumption.
  destruct (cls k); simpl; [|assumption].
  eapply leads_trans; [eassumption | apply Hh].
Qed.

Lemma within_while_true A (body : M (option A)) n :
  within P F body -> within P F (while_true n body).
Proof.
  intros Hb. induction n as [|n IH]; cbn [while_true].
  - intros w. apply leads_refl.
  - apply within_bind; [assumption|]. intros [a|]; [apply within_ret | assumption].
Qed.

Lemma within_for_enumerate A (body : nat -> A -> M unit) l :
  (forall i x, within P F (body i x)) -> forall i, within P F (for_enumerate i l body).
Proof.
  intros Hb. induction l as [|x l IH]; intros i; cbn [for_enumerate].
  - apply within_ret.
  - apply within_bind; [apply Hb | intros _; apply IH].
Qed.

(** A computation that only looks at the world. *)
Lemma within_read A (f : World -> result A) : within P F (fun w => (f w, w)).
Proof. intros w. apply leads_refl. Qed.

Lemma within_print s : P (Out (s ++ newline)) -> within P F (print s).
Proof. intros H w. apply leads_log. assumption. Qed.

Lemma within_print_end s e : P (Out (s ++ e)) -> within P F (print_end s e).
Proof. intros H w. apply leads_log. assumption. Qed.

Lemma within_input prompt : P (Out prompt) -> within P F (input prompt).
Proof.
  intros H w. unfold input. cbn [stdin log].
  destruct (stdin w); apply (leads_log _ w H).
Qed.

Lemma within_run args : P (Spawn args) -> within P F (subprocess.run args).
Proof.
  intros H w. unfold subprocess.run.
  destruct (proc w (trace w) args); apply (leads_log _ w H).
Qed.

End Effects.

Lemma any_fs_refl f : any_fs f f.
Proof. exact I. Qed.

Lemma any_fs_trans f g h : any_fs f g -> any_fs g h -> any_fs f h.
Proof. intros _ _. exact I. Qed.

Lemma eq_fs_trans (f g h : entries) : f = g -> g = h -> f = h.
Proof. congruence. Qed.

(** Fewer promises are easier to keep. *)
Lemma within_weaken (P Q : event -> Prop) (F G : entries -> entries -> Prop) A (m : M A) :
  (forall e, P e -> Q e) -> (forall f g, F f g -> G f g) ->
  within P F m -> within Q G m.
Proof.
  intros HP HF H w. destruct (H w) as [[evs [T Hevs]] Hfs]. split.
  - exists evs. split; [assumption|]. eapply Forall_impl; [|eassumption]. assumption.
  - apply HF. assumption.
Qed.

Lemma leads_no_event F w w' : leads no_event F w w' -> trace w' = trace w.
Proof.
  intros [[evs [T H]] _]. destruct evs as [|e evs].
  - rewrite T. apply app_nil_r.
  - inversion H as [|? ? He]. destruct He.
Qed.

Lemma within_mkdir P p : within P any_fs (os.mkdir p).
Proof.
  intros w. unfold os.mkdir.
  repeat match goal with
         | |- context [match ?x with _ => _ end] => destruct x
         end;
    first [apply leads_refl; exact any_fs_refl
          | split; [exists []; rewrite app_nil_r; split; [reflexivity | constructor] | exact I]].
Qed.

Lemma within_makedirs_rec P n : forall name exist_ok,
  within P any_fs (os.makedirs_rec n name exist_ok).
Proof.
  induction n as [|n IH]; intros name ok; cbn [os.makedirs_rec].
  - intros w. apply leads_refl. exact any_fs_refl.
  - destruct (os.path.split name) as [head tail].
    destruct (if Py.eqb tail [] then os.path.split head else (head, tail)) as [head' tail'].
    apply within_bind; try exact any_fs_trans.
    { apply within_read. exact any_fs_refl. }
    intros head_exists.
    apply within_bind; try exact any_fs_trans.
    { destruct (negb (Py.eqb head' []) && negb (Py.eqb tail' []) && negb head_exists).
      - apply within_bind; try exact any_fs_trans.
        + apply within_try_except; try exact any_fs_trans; [apply IH|].
          intros k msg. apply within_ret. exact any_fs_refl.
        + intros _. apply within_ret. exact any_fs_refl.
      - apply within_ret. exact any_fs_refl. }
    intros [|]; [apply within_ret; exact any_fs_refl|].
    apply within_try_except; try exact any_fs_trans; [apply within_mkdir|].
    intros k msg. apply within_bind; try exact any_fs_trans.
    { apply within_read. exact any_fs_refl. }
    intros d. destruct (negb ok || negb d).
    + apply within_raise. exact any_fs_refl.
    + apply within_ret. exact any_fs_refl.
Qed.

Lemma within_makedirs (P : event -> Prop) name exist_ok :
  P (Makedirs name exist_ok) -> within P any_fs (os.makedirs name exist_ok).
Proof.
  intros H w. unfold os.makedirs.
  eapply leads_trans; [exact any_fs_trans | apply leads_log; [exact any_fs_refl | exact H] |].
  apply within_makedirs_rec.
Qed.

Lemma within_rmtree (P : event -> Prop) p :
  P (Rmtree p) -> within P any_fs (shutil.rmtree p).
Proof.
  intros H w. unfold shutil.rmtree. cbn [fs log].
  assert (L : forall f, leads P any_fs w (with_fs (log (Rmtree p) w) f)).
  { intros f. split; [|exact I]. exists [Rmtree p]. split; [reflexivity | repeat constructor; assumption]. }
  assert (L0 : leads P any_fs w (log (Rmtree p) w)).
  { apply leads_log; [exact any_fs_refl | assumption]. }
  destruct (os.resolve (fs w) p) as [[|es]|]; try exact L0.
  destruct (os.path_names p) as [[|n ns]|]; cbn [snd]; apply L.
Qed.

(** Following the structure of a computation. *)
Ltac fs_side := first [exact any_fs_refl | exact any_fs_trans | exact (@eq_refl entries) | exact eq_fs_trans].

Ltac within_tac :=
  repeat
    (cbv beta;
     lazymatch goal with
     | |- within _ _ (ret _) => apply within_ret; fs_side
     | |- within _ _ (raise _ _) => apply within_raise; fs_side
     | |- within _ _ (sys.exit _) => apply within_exit; fs_side
     | |- within _ _ (print _) => apply within_print; try fs_side
     | |- within _ _ print_ => apply within_print; try fs_side
     | |- within _ _ (print_end _ _) => apply within_print_end; try fs_side
     | |- within _ _ (input _) => apply within_input; try fs_side
     | |- within _ _ (subprocess.run _) => apply within_run; try fs_side
     | |- within _ _ (os.makedirs _ _) => apply within_makedirs
     | |- within _ _ (shutil.rmtree _) => apply within_rmtree
     | |- within _ _ (bind _ _) => apply within_bind; try fs_side; intros
     | |- within _ _ (try_except _ _ _) => apply within_try_except; try fs_side; intros
     | |- within _ _ (for_enumerate _ _ _) => apply within_for_enumerate; try fs_side; intros
     | |- within _ _ (while_true _ _) => apply within_while_true; try fs_side
     | |- within _ _ (fun w => (_, w)) => apply within_read; fs_side
     | |- within _ _ (if ?b then _ else _) => destruct b
     | |- within _ _ (match ?x with _ => _ end) => destruct x
     end).

Lemma skipn_new_events (l evs : list event) : skipn (length l) (l ++ evs) = evs.
Proof. rewrite skipn_app, Nat.sub_diag, skipn_all. reflexivity. Qed.



Lemma leads_new_events P F w w' :
  leads P F w w' -> trace w' = trace w ++ new_events w w' /\ Forall P (new_events w w').
Proof.
  intros [[evs [T H]] _]. unfold new_events. rewrite T, skipn_new_events. auto.
Qed.

Lemma bind_print B s (k : unit -> M B) w :
  bind (print s) k w = k tt (log (Out (s ++ newline)) w).
Proof. reflexivity. Qed.

Lemma bind_ret A B (a : A) (k : A -> M B) w : bind (ret a) k w = k a w.
Proof. reflexivity. Qed.

(* ================================================================= *)
(** ** The file system under plain names *)

Lemma existsb_sep_false (s : str) c : existsb (N.eqb c) s = false <-> ~ In c s.
Proof.
  split.
  - intros H Hin. assert (E : existsb (N.eqb c) s = true).
    { apply existsb_exists. exists c. split; [assumption | apply N.eqb_refl]. }
    congruence.
  - intros H. destruct (existsb (N.eqb c) s) eqn:E; [|reflexivity].
    apply existsb_exists in E. destruct E as [x [Hx E]].
    apply N.eqb_eq in E. subst. contradiction.
Qed.

Lemma valid_name_facts d :
  valid_name d = true <->
  d <> [] /\ ~ In os.sep d /\ d <> os.curdir /\ d <> os.pardir.
Proof.
  unfold valid_name. rewrite !andb_true_iff, !negb_true_iff, !eqb_neq, existsb_sep_false.
  tauto.
Qed.

Lemma valid_not_abs d : valid_name d = true -> Py.startswith d [os.sep] = false.
Proof.
  intros H. apply valid_name_facts in H. destruct H as [H0 [H1 _]].
  destruct d as [|x d]; [congruence|].
  apply startswith_cons_false. intros E. apply H1. left. assumption.
Qed.

Lemma path_names_valid d : valid_name d = true -> os.path_names d = Some [d].
Proof.
  intros H. unfold os.path_names. rewrite (valid_not_abs d H).
  apply valid_name_facts in H. destruct H as [H0 [H1 [H2 H3]]].
  rewrite split_no_sep by assumption. cbn [filter].
  apply eqb_neq in H0, H2. rewrite H0, H2. cbn [orb negb existsb].
  assert (E : Py.eqb os.pardir d = false) by (apply eqb_neq; congruence).
  rewrite E. reflexivity.
Qed.

Lemma resolve_valid f d : valid_name d = true -> os.resolve f d = os.lookup f d.
Proof.
  intros H. unfold os.resolve. rewrite (path_names_valid d H).
  apply valid_name_facts in H. destruct H as [H0 _]. apply eqb_neq in H0.
  rewrite H0. cbn [os.get]. destruct (os.lookup f d); reflexivity.
Qed.

Lemma split_valid d : valid_name d = true -> os.path.split d = ([], d).
Proof.
  intros H. apply valid_name_facts in H. destruct H as [_ [H1 _]].
  unfold os.path.split. rewrite rfind_absent by assumption. reflexivity.
Qed.

Lemma lookup_app f g d :
  os.lookup (f ++ g) d =
  match os.lookup f d with Some n => Some n | None => os.lookup g d end.
Proof.
  induction f as [|[n x] f IH]; simpl; [reflexivity|].
  destruct (Py.eqb n d); [reflexivity | assumption].
Qed.

Lemma lookup_remove_same f d : os.lookup (os.remove d f) d = None.
Proof.
  induction f as [|[n x] f IH]; simpl; [reflexivity|].
  destruct (Py.eqb n d) eqn:E; simpl; [assumption|].
  rewrite E. assumption.
Qed.

Lemma remove_absent f d : os.lookup f d = None -> os.remove d f = f.
Proof.
  induction f as [|[n x] f IH]; simpl; [reflexivity|].
  destruct (Py.eqb n d) eqn:E; simpl; [discriminate|].
  intros H. rewrite IH by assumption. reflexivity.
Qed.

Lemma remove_app f g d : os.remove d (f ++ g) = os.remove d f ++ os.remove d g.
Proof. apply filter_app. Qed.

Lemma remove_last f d n : os.remove d (os.remove d f ++ [(d, n)]) = os.remove d f.
Proof.
  rewrite remove_app, (remove_absent _ _ (lookup_remove_same f d)).
  simpl. rewrite eqb_refl. simpl. apply app_nil_r.
Qed.

(** [os.makedirs] on a plain name. *)
Lemma makedirs_valid d exist_ok w :
  valid_name d = true ->
  os.makedirs d exist_ok w =
  match os.lookup (fs w) d with
  | None => (Ret tt, evolve w (fs w ++ [(d, Dir [])]) [Makedirs d exist_ok])
  | Some (Dir _) =>
    if exist_ok then (Ret tt, evolve w (fs w) [Makedirs d exist_ok])
    else (Raise (Exc FileExistsError d), evolve w (fs w) [Makedirs d exist_ok])
  | Some File => (Raise (Exc FileExistsError d), evolve w (fs w) [Makedirs d exist_ok])
  end.
Proof.
  intros H. unfold os.makedirs. cbn [os.makedirs_rec].
  rewrite (split_valid d H).
  pose proof (proj1 (valid_name_facts d) H) as [H0 _]. apply eqb_neq in H0.
  rewrite H0.
  unfold bind, try_except, os.path.exists_, os.path.isdir, os.mkdir, ret, raise.
  cbn [fst snd negb andb Py.eqb fs log].
  rewrite (path_names_valid d H), H0.
  cbn [removelast last os.get os.update].
  destruct (os.lookup (fs w) d) as [[|es]|] eqn:E; cbn [isOSError];
    rewrite ?(resolve_valid _ d H); cbn [fs log]; rewrite ?E;
    try reflexivity; destruct exist_ok; reflexivity.
Qed.

(** [shutil.rmtree] on a plain name. *)
Lemma rmtree_valid d w :
  valid_name d = true ->
  shutil.rmtree d w =
  match os.lookup (fs w) d with
  | Some (Dir _) => (Ret tt, evolve w (os.remove d (fs w)) [Rmtree d])
  | Some File => (Raise (Exc NotADirectoryError d), evolve w (fs w) [Rmtree d])
  | None => (Raise (Exc FileNotFoundError d), evolve w (fs w) [Rmtree d])
  end.
Proof.
  intros H. unfold shutil.rmtree. cbn [fs log].
  rewrite (resolve_valid _ d H), (path_names_valid d H).
  destruct (os.lookup (fs w) d) as [[|es]|]; reflexivity.
Qed.

Lemma evolve_evolve w f1 e1 f2 e2 :
  evolve (evolve w f1 e1) f2 e2 = evolve w f2 (e1 ++ e2).
Proof. unfold evolve; simpl. rewrite app_assoc. reflexivity. Qed.

Lemma OUTPUT_FOLDER_valid : valid_name OUTPUT_FOLDER = true.
Proof. vm_compute. reflexivity. Qed.

Lemma INPUT_FOLDER_valid : valid_name INPUT_FOLDER = true.
Proof. vm_compute. reflexivity. Qed.

(** The three ways [clear_output_folder] can go. *)
Lemma clear_output_folder_cases w :
  clear_output_folder w =
  match os.lookup (fs w) OUTPUT_FOLDER with
  | None =>
    (Ret tt, evolve w (fs w ++ [(OUTPUT_FOLDER, Dir [])]) [Makedirs OUTPUT_FOLDER false])
  | Some (Dir _) =>
    (Ret tt, evolve w (os.remove OUTPUT_FOLDER (fs w) ++ [(OUTPUT_FOLDER, Dir [])])
                    [Rmtree OUTPUT_FOLDER; Makedirs OUTPUT_FOLDER false])
  | Some File =>
    (Raise (Exc NotADirectoryError OUTPUT_FOLDER), evolve w (fs w) [Rmtree OUTPUT_FOLDER])
  end.
Proof.
  unfold clear_output_folder, bind, os.path.exists_. cbn [fst snd].
  rewrite (resolve_valid _ _ OUTPUT_FOLDER_valid).
  destruct (os.lookup (fs w) OUTPUT_FOLDER) as [[|es]|] eqn:E.
  - rewrite (rmtree_valid _ w OUTPUT_FOLDER_valid), E. reflexivity.
  - rewrite (rmtree_valid _ w OUTPUT_FOLDER_valid), E.
    rewrite (makedirs_valid _ false _ OUTPUT_FOLDER_valid).
    cbn [fs evolve]. rewrite lookup_remove_same, evolve_evolve. reflexivity.
  - unfold ret. rewrite (makedirs_valid _ false _ OUTPUT_FOLDER_valid), E. reflexivity.
Qed.

(** C8.  Whether the output folder is missing, empty or populated,
    [clear_output_folder] returns normally and leaves it an empty
    directory; a second call changes nothing more. *)
Theorem clear_output_folder_leaves_empty_directory : forall w,
  os.resolve (fs w) OUTPUT_FOLDER = None \/
  (exists es, os.resolve (fs w) OUTPUT_FOLDER = Some (Dir es)) ->
  let w1 := snd (clear_output_folder w) in
  fst (clear_output_folder w) = Ret tt /\
  os.resolve (fs w1) OUTPUT_FOLDER = Some (Dir []) /\
  fst (clear_output_folder w1) = Ret tt /\
  fs (snd (clear_output_folder w1)) = fs w1.
Proof.
  intros w H. rewrite !(resolve_valid _ _ OUTPUT_FOLDER_valid) in H.
  assert (E : exists evs,
             clear_output_folder w =
             (Ret tt, evolve w (os.remove OUTPUT_FOLDER (fs w) ++ [(OUTPUT_FOLDER, Dir [])]) evs)).
  { rewrite clear_output_folder_cases. destruct H as [H | [es H]]; rewrite H.
    - rewrite (remove_absent _ _ H). eexists; reflexivity.
    - eexists; reflexivity. }
  destruct E as [evs E]. cbv zeta. rewrite E. cbn [fst snd].
  rewrite (resolve_valid _ _ OUTPUT_FOLDER_valid).
  assert (L : os.lookup (fs (evolve w (os.remove OUTPUT_FOLDER (fs w) ++ [(OUTPUT_FOLDER, Dir [])]) evs))
                OUTPUT_FOLDER = Some (Dir [])).
  { cbn [fs evolve]. rewrite lookup_app, lookup_remove_same.
    cbn [os.lookup]. rewrite eqb_refl. reflexivity. }
  repeat split; try assumption.
  - rewrite clear_output_folder_cases, L. reflexivity.
  - rewrite clear_output_folder_cases, L. cbn [snd fs evolve].
    rewrite remove_last. reflexivity.
Qed.

(** C8 at a missing, an empty and a populated output folder. *)
Lemma clear_output_folder_leaves_empty_directory_witness :
  (let w1 := snd (clear_output_folder (holding [])) in
   fst (clear_output_folder (holding [])) = Ret tt /\
   os.resolve (fs w1) OUTPUT_FOLDER = Some (Dir []) /\
   fst (clear_output_folder w1) = Ret tt /\
   fs (snd (clear_output_folder w1)) = fs w1) /\
  (let w := holding [(OUTPUT_FOLDER, Dir [])] in
   let w1 := snd (clear_output_folder w) in
   fst (clear_output_folder w) = Ret tt /\
   os.resolve (fs w1) OUTPUT_FOLDER = Some (Dir []) /\
   fst (clear_output_folder w1) = Ret tt /\
   fs (snd (clear_output_folder w1)) = fs w1) /\
  (let w := holding [(OUTPUT_FOLDER, Dir [(u8 "old_480p.mp4", File); (u8 "sub", Dir [(u8 "x.mp3", File)])])] in
   let w1 := snd (clear_output_folder w) in
   fst (clear_output_folder w) = Ret tt /\
   os.resolve (fs w1) OUTPUT_FOLDER = Some (Dir []) /\
   fst (clear_output_folder w1) = Ret tt /\
   fs (snd (clear_output_folder w1)) = fs w1).
Proof.
  split; [|split].
  - apply (clear_output_folder_leaves_empty_directory (holding [])).
    left. vm_compute. reflexivity.
  - apply (clear_output_folder_leaves_empty_directory (holding [(OUTPUT_FOLDER, Dir [])])).
    right. eexists. vm_compute. reflexivity.
  - apply (clear_output_folder_leaves_empty_directory
             (holding [(OUTPUT_FOLDER, Dir [(u8 "old_480p.mp4", File); (u8 "sub", Dir [(u8 "x.mp3", File)])])])).
    right. eexists. vm_compute. reflexivity.
Defined.

(* ================================================================= *)
(** ** Output paths and the two jobs *)

(** C10.  In audio mode the output path does not depend on the target
    height: any two values, [None] included, give the same result. *)
Theorem get_output_path_audio_ignores_height :
  forall input_path input_folder output_folder (h1 h2 : option Z) w,
    get_output_path input_path input_folder output_folder h1 true w =
    get_output_path input_path input_folder output_folder h2 true w.
Proof.
  intros p root out h1 h2 w. unfold get_output_path, bind.
  destruct (os.path.relpath p root w) as [[rel| |] w1]; reflexivity.
Qed.



(** The library calls behind the script's own functions. *)
Ltac within_prog :=
  unfold clear_output_folder, get_output_path, convert_video, extract_audio,
    find_ffmpeg, get_ffmpeg_version, is_nvenc_available, get_input_files,
    parse_argument, get_target_height_round,
    os.path.relpath, os.path.abspath, os.getcwd, os.walk,
    os.path.exists_, os.path.isfile, os.path.isdir;
  within_tac.





(* ================================================================= *)
(** ** The order of a run *)

Lemma get_input_files_found w : get_input_files w = (Ret (found_in (fs w)), w).
Proof. reflexivity. Qed.

Ltac quiet_side :=
  lazymatch goal with
  | |- quiet _ => split; vm_compute; reflexivity
  | |- job_event _ => reflexivity
  | |- any_event _ => exact I
  end.

Lemma get_target_height_quiet F :
  (forall f, F f f) -> (forall f g h, F f g -> F g h -> F f h) ->
  within quiet F get_target_height.
Proof.
  intros Hr Ht w. unfold get_target_height.
  generalize (S (length (stdin w))). intros n. revert w.
  change (within quiet F (while_true n get_target_height_round)).
  apply within_while_true; try assumption.
  unfold get_target_height_round, print_.
  repeat (cbv beta;
          lazymatch goal with
          | |- within _ _ (ret _) => apply within_ret; assumption
          | |- within _ _ (raise _ _) => apply within_raise; assumption
          | |- within _ _ (print _) => apply within_print; [assumption | quiet_side]
          | |- within _ _ (input _) => apply within_input; [assumption | quiet_side]
          | |- within _ _ (bind _ _) => apply within_bind; [assumption | | intros ?]
          | |- within _ _ (try_except _ _ _) =>
            apply within_try_except; [assumption | | intros ? ?]
          | |- within _ _ (match ?x with _ => _ end) => destruct x
          end).
Qed.

Lemma disciplined_quiet evs : Forall quiet evs -> disciplined evs.
Proof.
  intros H. exists evs, [], []. rewrite app_nil_r.
  repeat split; auto.
Qed.

Lemma orderly_quiet A (m : M A) : within quiet any_fs m -> orderly m.
Proof.
  intros H w. destruct (H w) as [[evs [T Q]] _].
  exists evs. split; [assumption | apply disciplined_quiet; assumption].
Qed.

Lemma orderly_bind_quiet A B (m : M A) (k : A -> M B) :
  within quiet any_fs m -> (forall a, orderly (k a)) -> orderly (bind m k).
Proof.
  intros Hm Hk w. unfold bind. destruct (Hm w) as [[e1 [T1 Q1]] _].
  destruct (m w) as [[a| |] w1]; cbn [snd] in *;
    try (exists e1; split; [assumption | apply disciplined_quiet; assumption]).
  destruct (Hk a w1) as [evs [T2 [pre [mid [post [E [Qpre [Hmid [Hpost Hemp]]]]]]]]].
  exists (e1 ++ evs). split.
  - rewrite T2, T1, app_assoc. reflexivity.
  - exists (e1 ++ pre), mid, post. subst evs. rewrite <- app_assoc.
    repeat split; auto. apply Forall_app; split; assumption.
Qed.

Lemma orderly_reset_then_job B (k : unit -> M B) :
  (forall a, within job_event any_fs (k a)) -> orderly (bind clear_output_folder k).
Proof.
  intros Hk w. unfold bind. rewrite clear_output_folder_cases.
  destruct (os.lookup (fs w) OUTPUT_FOLDER) as [[|es]|].
  - exists [Rmtree OUTPUT_FOLDER]. split; [reflexivity|].
    exists [], [Rmtree OUTPUT_FOLDER], []. unfold reset_block.
    repeat split; auto; try discriminate.
  - match goal with
    | |- context [k tt ?w1] => destruct (Hk tt w1) as [[post [T Hpost]] _]
    end.
    exists ([Rmtree OUTPUT_FOLDER; Makedirs OUTPUT_FOLDER false] ++ post). split.
    + rewrite T. cbn [trace evolve]. rewrite <- app_assoc. reflexivity.
    + exists [], [Rmtree OUTPUT_FOLDER; Makedirs OUTPUT_FOLDER false], post.
      unfold reset_block. repeat split; auto; try discriminate.
  - match goal with
    | |- context [k tt ?w1] => destruct (Hk tt w1) as [[post [T Hpost]] _]
    end.
    exists ([Makedirs OUTPUT_FOLDER false] ++ post). split.
    + rewrite T. cbn [trace evolve]. rewrite <- app_assoc. reflexivity.
    + exists [], [Makedirs OUTPUT_FOLDER false], post.
      unfold reset_block. repeat split; auto; try discriminate.
Qed.

Lemma process_convert_resolution_orderly ffmpeg_path input_files :
  orderly (process_convert_resolution ffmpeg_path input_files).
Proof.
  unfold process_convert_resolution.
  apply orderly_bind_quiet.
  { apply get_target_height_quiet; [exact any_fs_refl | exact any_fs_trans]. }
  intros target_height. apply orderly_bind_quiet.
  { within_prog; quiet_side. }
  intros nvenc. apply orderly_bind_quiet.
  { within_prog; quiet_side. }
  intros video_codec. cbv zeta.
  apply orderly_reset_then_job. intros _.
  within_prog; quiet_side.
Qed.

Lemma process_extract_audio_orderly ffmpeg_path input_files :
  orderly (process_extract_audio ffmpeg_path input_files).
Proof.
  unfold process_extract_audio.
  apply orderly_bind_quiet.
  { within_prog; quiet_side. }
  intros line. cbv zeta.
  destruct (negb (Py.eqb (Py.lower (Py.strip line)) (u8 "y"))).
  { apply orderly_quiet. within_prog. }
  apply orderly_bind_quiet.
  { within_prog; quiet_side. }
  intros _. apply orderly_reset_then_job. intros _.
  within_prog; quiet_side.
Qed.

Lemma main_orderly : orderly main.
Proof.
  unfold main.
  repeat (cbv beta;
          lazymatch goal with
          | |- orderly (bind get_input_files _) => fail
          | |- orderly (bind _ _) =>
            apply orderly_bind_quiet; [within_prog; quiet_side | intros ?]
          | |- orderly (match ?x with _ => _ end) => destruct x
          end).
  apply orderly_bind_quiet; [within_prog|].
  intros input_files.
  destruct (Nat.eqb (length input_files) 0).
  - apply orderly_quiet. within_prog; quiet_side.
  - match goal with |- orderly (match ?m with _ => _ end) => destruct m end.
    + apply process_convert_resolution_orderly.
    + apply process_extract_audio_orderly.
Qed.

(** *** A run that finds no input file *)


Lemma grows_refl f : grows f f.
Proof. intros name n H. assumption. Qed.

Lemma grows_trans f g h : grows f g -> grows g h -> grows f h.
Proof. intros H1 H2 name n H. apply H2, H1, H. Qed.

Lemma grows_app f g : grows f (f ++ g).
Proof. intros name n H. rewrite lookup_app, H. reflexivity. Qed.

Lemma keeps_bind (I : World -> Prop) A B (m : M A) (k : A -> M B) :
  keeps I m -> (forall a, keeps I (k a)) -> keeps I (bind m k).
Proof.
  intros Hm Hk w HI. unfold bind. specialize (Hm w HI).
  destruct (m w) as [[a| |] w1]; cbn [snd] in *; try assumption.
  apply Hk. assumption.
Qed.

Lemma idle_step w0 w f evs :
  idle_since w0 w -> Forall quiet evs -> grows (fs w) f -> found_in f = [] ->
  idle_since w0 (evolve w f evs).
Proof.
  intros [L Hf] Q G E. split; [|assumption].
  eapply leads_trans; [exact grows_trans | exact L |]. split; [|assumption].
  exists evs. split; [reflexivity | assumption].
Qed.

Lemma keeps_quiet w0 A (m : M A) : within quiet eq m -> keeps (idle_since w0) m.
Proof.
  intros H w [L Hf]. destruct (H w) as [[evs [T Q]] E]. split.
  - eapply leads_trans; [exact grows_trans | exact L |]. split.
    + exists evs. split; assumption.
    + rewrite <- E. apply grows_refl.
  - rewrite <- E. assumption.
Qed.

Lemma folders_differ : Py.eqb OUTPUT_FOLDER INPUT_FOLDER = false.
Proof. vm_compute. reflexivity. Qed.

Lemma found_in_new_input f :
  os.lookup f INPUT_FOLDER = None -> found_in (f ++ [(INPUT_FOLDER, Dir [])]) = [].
Proof.
  intros E. unfold found_in.
  rewrite (resolve_valid _ _ INPUT_FOLDER_valid), lookup_app, E.
  cbn [os.lookup]. rewrite eqb_refl. reflexivity.
Qed.

Lemma found_in_new_output f n :
  found_in (f ++ [(OUTPUT_FOLDER, n)]) = found_in f.
Proof.
  unfold found_in.
  rewrite !(resolve_valid _ _ INPUT_FOLDER_valid), lookup_app.
  cbn [os.lookup]. rewrite folders_differ.
  destruct (os.lookup f INPUT_FOLDER); reflexivity.
Qed.

Lemma quiet_makedirs p : Forall quiet [Makedirs p true].
Proof. repeat constructor. Qed.

Lemma keeps_makedirs_input w0 : keeps (idle_since w0) (os.makedirs INPUT_FOLDER true).
Proof.
  intros w HI. rewrite (makedirs_valid _ true w INPUT_FOLDER_valid).
  pose proof HI as [_ Hf].
  destruct (os.lookup (fs w) INPUT_FOLDER) as [[|es]|] eqn:E; cbn [snd];
    apply idle_step; try assumption; try apply quiet_makedirs;
    try apply grows_refl.
  - apply grows_app.
  - apply found_in_new_input. assumption.
Qed.

Lemma keeps_makedirs_output w0 : keeps (idle_since w0) (os.makedirs OUTPUT_FOLDER true).
Proof.
  intros w HI. rewrite (makedirs_valid _ true w OUTPUT_FOLDER_valid).
  pose proof HI as [_ Hf].
  destruct (os.lookup (fs w) OUTPUT_FOLDER) as [[|es]|] eqn:E; cbn [snd];
    apply idle_step; try assumption; try apply quiet_makedirs;
    try apply grows_refl.
  - apply grows_app.
  - rewrite found_in_new_output. assumption.
Qed.

Lemma main_idle w0 : keeps (idle_since w0) main.
Proof.
  unfold main.
  repeat (cbv beta;
          lazymatch goal with
          | |- keeps _ (bind (os.makedirs _ _) _) => fail
          | |- keeps _ (bind _ _) =>
            apply keeps_bind; [apply keeps_quiet; within_prog; quiet_side | intros ?]
          | |- keeps _ (match ?x with _ => _ end) => destruct x
          end).
  apply keeps_bind; [apply keeps_makedirs_input | intros _].
  apply keeps_bind; [apply keeps_makedirs_output | intros _].
  intros w HI. unfold bind at 1. rewrite get_input_files_found. cbv beta iota.
  pose proof HI as [_ Hf]. rewrite Hf. cbn [length Nat.eqb].
  revert w HI Hf. intros w HI _. revert w HI.
  match goal with |- forall w, _ -> idle_since _ (snd (?m w)) =>
    change (keeps (idle_since w0) m) end.
  apply keeps_quiet. within_prog; quiet_side.
Qed.

Lemma reset_block_not_quiet mid : reset_block mid -> ~ Forall quiet mid.
Proof.
  intros [-> | [-> | ->]] H; inversion H as [|? ? [R _] _]; discriminate.
Qed.

(** C6.  The events of every run of [main] are, in order: a start
    without any reset and without any encoding (the start looks for
    the encoder and asks for its version, which writes no file); then
    at most one call of [clear_output_folder]; then, only if that
    call took place, the events of the job, none of them a reset.  So
    the reset takes place at most once, and before every encoding.
    It takes place only when the discovery finds an input file; when
    it finds none, no event of the run is a reset or an encoding (no
    conversion and no extraction is started) and what the output
    folder held is still there. *)
Theorem main_resets_once_after_discovery : forall w,
  let w' := snd (main w) in
  exists pre mid post,
    trace w' = trace w ++ pre ++ mid ++ post /\
    Forall quiet pre /\
    (mid = [] \/ reset_block mid) /\
    Forall job_event post /\
    (mid = [] -> post = []) /\
    (mid <> [] -> fst (get_input_files w) <> Ret []) /\
    (fst (get_input_files w) = Ret [] ->
     mid = [] /\
     Forall quiet (new_events w w') /\
     forall n, os.resolve (fs w) OUTPUT_FOLDER = Some n ->
               os.resolve (fs w') OUTPUT_FOLDER = Some n).
Proof.
  intros w. cbv zeta.
  destruct (main_orderly w) as [evs [T [pre [mid [post [E [Qpre [Hmid [Hpost Hemp]]]]]]]]].
  subst evs. exists pre, mid, post.
  assert (Idle : fst (get_input_files w) = Ret [] ->
                 Forall quiet (pre ++ mid ++ post) /\ grows (fs w) (fs (snd (main w)))).
  { intros H0. rewrite get_input_files_found in H0. cbn [fst] in H0.
    assert (Hf : found_in (fs w) = []) by (inversion H0; reflexivity).
    assert (HI : idle_since w w).
    { split; [apply leads_refl; apply grows_refl | assumption]. }
    destruct (main_idle w w HI) as [[[evs [T' Q]] G] _].
    rewrite T in T'. apply app_inv_head in T'. subst evs. auto. }
  assert (Hnone : fst (get_input_files w) = Ret [] -> mid = []).
  { intros H0. destruct (Idle H0) as [Q _].
    destruct Hmid as [-> | Hb]; [reflexivity|].
    apply Forall_app in Q. destruct Q as [_ Q].
    apply Forall_app in Q. destruct Q as [Q _].
    exfalso. exact (reset_block_not_quiet mid Hb Q). }
  repeat split; try assumption.
  - intros Hne H0. apply Hne, Hnone, H0.
  - apply Hnone. assumption.
  - unfold new_events. rewrite T, skipn_new_events. apply (Idle H).
  - intros n Hn. destruct (Idle H) as [_ G].
    rewrite (resolve_valid _ _ OUTPUT_FOLDER_valid) in Hn.
    rewrite (resolve_valid _ _ OUTPUT_FOLDER_valid). apply G. exact Hn.
Qed.

(** The queries of the version at the start are child processes, but
    no encodings: with nothing to convert they are all that the run
    starts. *)
Lemma main_queries_encoder_without_input :
  fst (get_input_files (typing [])) = Ret [] /\
  filter is_spawn (trace (snd (main (typing [])))) =
  [Spawn [SYSTEM_FFMPEG_PATH; u8 "-version"]; Spawn [SYSTEM_FFMPEG_PATH; u8 "-version"]] /\
  filter is_encoding (trace (snd (main (typing [])))) = [].
Proof. repeat split; vm_compute; reflexivity. Qed.

(* ================================================================= *)
(** ** Paths made of valid names *)

Lemma valid_last_char d :
  valid_name d = true -> exists d' c, d = d' ++ [c] /\ c <> os.sep.
Proof.
  intros H. apply valid_name_facts in H. destruct H as [H0 [H1 _]].
  destruct (exists_last H0) as [d' [c E]]. exists d', c. split; [assumption|].
  intros Hc. apply H1. rewrite E. apply in_or_app. right. left. assumption.
Qed.

Lemma join_not_abs top b :
  Py.startswith b [os.sep] = false -> os.path.join top b = os.path.join top [] ++ b.
Proof.
  intros H. unfold os.path.join. rewrite H. cbn [Py.startswith].
  destruct (Py.eqb top [] || Py.endswith top [os.sep]).
  - rewrite app_nil_r. reflexivity.
  - rewrite <- !app_assoc. reflexivity.
Qed.

Lemma join_nil_after_name x d :
  valid_name d = true -> os.path.join (x ++ d) [] = x ++ d ++ [os.sep].
Proof.
  intros H. destruct (valid_last_char d H) as [d' [c [-> Hc]]].
  unfold os.path.join. cbn [Py.startswith].
  assert (E1 : Py.eqb (x ++ d' ++ [c]) [] = false).
  { apply eqb_neq. intros E. apply app_eq_nil in E. destruct E as [_ E].
    apply app_eq_nil in E. destruct E as [_ E]. discriminate. }
  assert (E2 : Py.endswith (x ++ d' ++ [c]) [os.sep] = false).
  { rewrite app_assoc, endswith_snoc. apply N.eqb_neq. assumption. }
  rewrite E1, E2. cbn [orb]. rewrite app_nil_r, <- !app_assoc. reflexivity.
Qed.

(** [join] over valid directory names and a last component that is
    not absolute: the names are put one after the other, each followed
    by a separator. *)
Lemma join_all_segments dirs : forall top last,
  forallb valid_name dirs = true ->
  Py.startswith last [os.sep] = false ->
  os.path.join_all top (dirs ++ [last]) =
  os.path.join top [] ++ concat (map (fun d => d ++ [os.sep]) dirs) ++ last.
Proof.
  induction dirs as [|d dirs IH]; intros top last Hd Hl.
  - cbn [app os.path.join_all fold_left map concat]. apply join_not_abs. assumption.
  - cbn [forallb] in Hd. apply andb_true_iff in Hd. destruct Hd as [Hd Hds].
    cbn [app os.path.join_all fold_left map concat].
    change (fold_left os.path.join (dirs ++ [last]) (os.path.join top d))
      with (os.path.join_all (os.path.join top d) (dirs ++ [last])).
    rewrite (IH _ _ Hds Hl).
    rewrite (join_not_abs top d (valid_not_abs d Hd)).
    rewrite (join_nil_after_name _ d Hd), <- !app_assoc. reflexivity.
Qed.

Lemma join_snoc (dirs : list str) : forall last,
  Py.join [os.sep] (dirs ++ [last]) =
  concat (map (fun d => d ++ [os.sep]) dirs) ++ last.
Proof.
  induction dirs as [|d dirs IH]; intros last; [reflexivity|].
  cbn [app map concat].
  destruct (dirs ++ [last]) as [|x xs] eqn:E.
  { destruct dirs; discriminate. }
  change (Py.join [os.sep] (d :: x :: xs)) with (d ++ [os.sep] ++ Py.join [os.sep] (x :: xs)).
  rewrite <- E, IH, <- !app_assoc. reflexivity.
Qed.

Lemma forallb_snoc A (f : A -> bool) l x :
  forallb f (l ++ [x]) = forallb f l && f x.
Proof. rewrite forallb_app. cbn [forallb]. rewrite andb_true_r. reflexivity. Qed.

Lemma join_all_names top (segs : list str) :
  segs <> [] -> forallb valid_name segs = true ->
  os.path.join_all top segs = os.path.join top [] ++ Py.join [os.sep] segs.
Proof.
  intros Hne H. destruct (exists_last Hne) as [dirs [last E]]. subst segs.
  rewrite forallb_snoc in H. apply andb_true_iff in H. destruct H as [Hd Hl].
  rewrite (join_all_segments dirs top last Hd (valid_not_abs last Hl)), join_snoc.
  reflexivity.
Qed.

Lemma names_no_sep (segs : list str) :
  forallb valid_name segs = true -> Forall (fun p => ~ In os.sep p) segs.
Proof.
  intros H. apply Forall_forall. intros s Hs.
  rewrite forallb_forall in H. specialize (H s Hs).
  apply valid_name_facts in H. tauto.
Qed.

(** Different places have different paths. *)
Lemma join_all_injective top (s1 s2 : list str) :
  s1 <> [] -> s2 <> [] ->
  forallb valid_name s1 = true -> forallb valid_name s2 = true ->
  os.path.join_all top s1 = os.path.join_all top s2 -> s1 = s2.
Proof.
  intros N1 N2 V1 V2 E.
  rewrite (join_all_names top s1 N1 V1), (join_all_names top s2 N2 V2) in E.
  apply app_inv_head in E.
  rewrite <- (split_join os.sep s1 N1 (names_no_sep s1 V1)).
  rewrite <- (split_join os.sep s2 N2 (names_no_sep s2 V2)).
  rewrite E. reflexivity.
Qed.

(* ================================================================= *)
(** ** Discovering the input files *)

Lemma node_ind' (P : node -> Prop) :
  P File ->
  (forall es, Forall (fun e : str * node => P (snd e)) es -> P (Dir es)) ->
  forall n, P n.
Proof.
  intros HF HD. fix IH 1. intros [|es]; [exact HF|].
  apply HD. induction es as [|e es IHes]; constructor; [apply IH | exact IHes].
Qed.

Lemma SUPPORTED_FORMATS_lower :
  Forall (fun e => Py.lower e = e) SUPPORTED_FORMATS.
Proof. repeat constructor. Qed.

(** The test of the script is the comparison without regard to
    case. *)
Lemma supported_iff file : supported file = true <-> extension_matches file.
Proof.
  unfold supported, extension_matches. rewrite mem_In.
  pose proof SUPPORTED_FORMATS_lower as L. rewrite Forall_forall in L. split.
  - intros H. exists (Py.lower (snd (os.path.splitext file))). split; [assumption|].
    symmetry. apply L. assumption.
  - intros [e [He E]]. rewrite E, (L e He). assumption.
Qed.

Lemma flat_map_if A B (f : A -> bool) (g : A -> B) l :
  flat_map (fun x => if f x then [g x] else []) l = map g (filter f l).
Proof.
  induction l as [|x l IH]; cbn [flat_map filter]; [reflexivity|].
  destruct (f x); cbn [map app]; rewrite IH; reflexivity.
Qed.

Lemma map_flat_map A B C (f : A -> list B) (g : B -> C) l :
  map g (flat_map f l) = flat_map (fun x => map g (f x)) l.
Proof.
  induction l as [|x l IH]; cbn [flat_map map]; [reflexivity|].
  rewrite map_app, IH. reflexivity.
Qed.

Lemma collect_app l1 l2 : collect (l1 ++ l2) = collect l1 ++ collect l2.
Proof. apply flat_map_app. Qed.

Lemma collect_cons root dirs files l :
  collect ((root, dirs, files) :: l) =
  map (os.path.join root) (filter supported files) ++ collect l.
Proof. unfold collect. cbn [flat_map]. rewrite flat_map_if. reflexivity. Qed.

(** The files collected from a walk are the paths of the supported
    files of the tree. *)
Lemma collect_walk n : forall top,
  collect (os.walk_node top n) = map (os.path.join_all top) (positions n).
Proof.
  induction n as [|es IH] using node_ind'; intros top; [reflexivity|].
  cbn [os.walk_node positions].
  rewrite collect_cons, map_app. f_equal.
  - rewrite map_map. reflexivity.
  - induction IH as [|e es He Hes IHes]; [reflexivity|].
    cbn [flat_map]. rewrite collect_app, map_app, He, IHes, map_map. reflexivity.
Qed.

Lemma file_at_nonempty n segs : file_at n segs -> segs <> [].
Proof. intros H. destruct H; discriminate. Qed.

Lemma last_cons (x : str) (l : list str) : l <> [] -> last (x :: l) [] = last l [].
Proof. destruct l; [congruence | reflexivity]. Qed.

Lemma entry_eta (e : str * node) : e = (fst e, snd e).
Proof. destruct e; reflexivity. Qed.

Lemma in_files es name :
  In name (map fst (filter (fun e => negb (os.is_dir e)) es)) <-> In (name, File) es.
Proof.
  rewrite in_map_iff. split.
  - intros [[n x] [E H]]. apply filter_In in H. destruct H as [H D].
    cbn in E. subst n. destruct x; [assumption | discriminate].
  - intros H. exists (name, File). split; [reflexivity|].
    apply filter_In. split; [assumption | reflexivity].
Qed.

Lemma positions_file_at n : forall segs,
  In segs (positions n) <-> file_at n segs /\ supported (last segs []) = true.
Proof.
  induction n as [|es IH] using node_ind'; intros segs.
  - split; [intros [] | intros [H _]; inversion H].
  - rewrite Forall_forall in IH. cbn [positions]. rewrite in_app_iff. split.
    + intros [H | H].
      * apply in_map_iff in H. destruct H as [name [<- H]].
        apply filter_In in H. destruct H as [H S].
        apply in_files in H. split; [constructor; assumption | assumption].
      * apply in_flat_map in H. destruct H as [e [He H]].
        apply in_map_iff in H. destruct H as [segs' [<- H]].
        apply (IH e He) in H. destruct H as [H S].
        rewrite (last_cons _ _ (file_at_nonempty _ _ H)). split; [|assumption].
        apply file_below with (child := snd e); [|assumption].
        rewrite <- entry_eta. assumption.
    + intros [H S]. inversion H as [es' name Hin | es' name child segs' Hin Hc]; subst.
      * left. apply in_map_iff. exists name. split; [reflexivity|].
        apply filter_In. split; [apply in_files; assumption | assumption].
      * right. apply in_flat_map. exists (name, child). split; [assumption|].
        apply in_map_iff. exists segs'. split; [reflexivity|].
        apply (IH (name, child) Hin). split; [assumption|].
        rewrite (last_cons _ _ (file_at_nonempty _ _ Hc)) in S. assumption.
Qed.

Lemma nodupb_NoDup l : nodupb l = true -> NoDup l.
Proof.
  induction l as [|x l IH]; cbn [nodupb]; intros H; constructor;
    apply andb_true_iff in H; destruct H as [H1 H2].
  - intros Hin. apply mem_In in Hin. rewrite Hin in H1. discriminate.
  - apply IH. assumption.
Qed.

Lemma NoDup_map_inj_in A B (f : A -> B) l :
  (forall x y, In x l -> In y l -> f x = f y -> x = y) ->
  NoDup l -> NoDup (map f l).
Proof.
  intros Hinj H. induction H as [|x l Hx Hl IH]; cbn [map]; constructor.
  - intros Hin. apply in_map_iff in Hin. destruct Hin as [y [E Hy]].
    assert (y = x) by (apply Hinj; [right; assumption | left; reflexivity | assumption]).
    subst y. contradiction.
  - apply IH. intros a b Ha Hb. apply Hinj; right; assumption.
Qed.

Lemma NoDup_map_filter A B (f : A -> B) (p : A -> bool) l :
  NoDup (map f l) -> NoDup (map f (filter p l)).
Proof.
  induction l as [|x l IH]; cbn [map filter]; intros H; [constructor|].
  inversion H as [|? ? Hx Hl]; subst.
  destruct (p x); cbn [map]; [|apply IH; assumption].
  constructor; [|apply IH; assumption].
  intros Hin. apply Hx. apply in_map_iff in Hin. destruct Hin as [y [E Hy]].
  apply filter_In in Hy. apply in_map_iff. exists y. tauto.
Qed.

Lemma positions_valid n : forall segs,
  well_formed n = true -> In segs (positions n) ->
  forallb valid_name segs = true /\ segs <> [].
Proof.
  induction n as [|es IH] using node_ind'; intros segs W H; [destruct H|].
  rewrite Forall_forall in IH. cbn [well_formed] in W.
  apply andb_true_iff in W. destruct W as [_ W]. rewrite forallb_forall in W.
  cbn [positions] in H. apply in_app_iff in H. destruct H as [H | H].
  - apply in_map_iff in H. destruct H as [name [<- H]].
    apply filter_In in H. destruct H as [H _]. apply in_files in H.
    specialize (W _ H). cbn [fst snd] in W. apply andb_true_iff in W.
    split; [|discriminate]. cbn [forallb]. rewrite (proj1 W). reflexivity.
  - apply in_flat_map in H. destruct H as [e [He H]].
    apply in_map_iff in H. destruct H as [segs' [<- H]].
    specialize (W _ He). apply andb_true_iff in W. destruct W as [W1 W2].
    destruct (IH e He segs' W2 H) as [V _].
    split; [|discriminate]. cbn [forallb]. rewrite W1, V. reflexivity.
Qed.

Lemma positions_NoDup n : well_formed n = true -> NoDup (positions n).
Proof.
  induction n as [|es IH] using node_ind'; intros W; [constructor|].
  cbn [well_formed] in W. apply andb_true_iff in W. destruct W as [Wn W].
  apply nodupb_NoDup in Wn. rewrite forallb_forall in W.
  cbn [positions]. apply NoDup_app.
  - apply NoDup_map_inj_in; [intros x y _ _ E; inversion E; reflexivity|].
    apply NoDup_filter, NoDup_map_filter. assumption.
  - clear - IH Wn W. induction IH as [|e es He Hes IHes]; [constructor|].
    cbn [flat_map]. cbn [map] in Wn. inversion Wn as [|? ? Hx Hl]; subst.
    apply NoDup_app.
    + apply NoDup_map_inj_in; [intros x y _ _ E; inversion E; reflexivity|].
      apply He. specialize (W e (or_introl eq_refl)).
      apply andb_true_iff in W. tauto.
    + apply IHes; [assumption|]. intros x Hin. apply W. right. assumption.
    + intros a Ha Hb. apply in_map_iff in Ha. destruct Ha as [s [<- _]].
      apply in_flat_map in Hb. destruct Hb as [e' [He' Hb]].
      apply in_map_iff in Hb. destruct Hb as [s' [E _]].
      inversion E as [[E1 E2]]. apply Hx. rewrite <- E1.
      apply in_map. assumption.
  - intros a Ha Hb. apply in_map_iff in Ha. destruct Ha as [name [<- _]].
    apply in_flat_map in Hb. destruct Hb as [e [He Hb]].
    apply in_map_iff in Hb. destruct Hb as [s [E Hs]].
    inversion E; subst s.
    rewrite Forall_forall in IH.
    assert (Ws : well_formed (snd e) = true).
    { specialize (W e He). apply andb_true_iff in W. tauto. }
    destruct (positions_valid (snd e) [] Ws Hs) as [_ Hne]. congruence.
Qed.

Lemma found_in_collect f :
  found_in f =
  collect (match os.resolve f INPUT_FOLDER with
           | Some n => os.walk_node INPUT_FOLDER n
           | None => []
           end).
Proof. reflexivity. Qed.

(** C3.  [get_input_files] never fails.  The paths it returns are
    those of the non-directory entries, at any depth below the input
    folder, whose extension is one of the six supported ones when
    compared without regard to case.  In a well-formed tree no path is
    returned twice, and every such file has its path in the result
    exactly once.  When no file matches (and when the input folder
    cannot be listed) the result is the empty list. *)
Theorem get_input_files_finds_supported_files : forall w,
  exists files,
    get_input_files w = (Ret files, w) /\
    (forall p,
       In p files <->
       exists root segs,
         os.resolve (fs w) INPUT_FOLDER = Some root /\
         file_at root segs /\ extension_matches (last segs []) /\
         p = os.path.join_all INPUT_FOLDER segs) /\
    (forall root,
       os.resolve (fs w) INPUT_FOLDER = Some root -> well_formed root = true ->
       NoDup files /\
       forall segs,
         file_at root segs -> extension_matches (last segs []) ->
         count_occ str_eq_dec files (os.path.join_all INPUT_FOLDER segs) = 1) /\
    ((forall root segs,
        os.resolve (fs w) INPUT_FOLDER = Some root -> file_at root segs ->
        ~ extension_matches (last segs [])) ->
     files = []).
Proof.
  intros w. exists (found_in (fs w)). split; [reflexivity|].
  rewrite found_in_collect.
  assert (Hin : forall p,
             In p (collect (match os.resolve (fs w) INPUT_FOLDER with
                            | Some n => os.walk_node INPUT_FOLDER n
                            | None => []
                            end)) <->
             exists root segs,
               os.resolve (fs w) INPUT_FOLDER = Some root /\
               file_at root segs /\ extension_matches (last segs []) /\
               p = os.path.join_all INPUT_FOLDER segs).
  { intros p. destruct (os.resolve (fs w) INPUT_FOLDER) as [root|].
    - rewrite collect_walk, in_map_iff. split.
      + intros [segs [<- H]]. apply positions_file_at in H. destruct H as [H S].
        exists root, segs. rewrite <- supported_iff. auto.
      + intros [root' [segs [E [H [S ->]]]]]. inversion E; subst root'.
        exists segs. split; [reflexivity|].
        apply positions_file_at. rewrite supported_iff. auto.
    - split; [intros [] | intros [root [segs [E _]]]; discriminate]. }
  split; [exact Hin | split].
  - intros root E W.
    assert (N : NoDup (collect (match os.resolve (fs w) INPUT_FOLDER with
                                | Some n => os.walk_node INPUT_FOLDER n
                                | None => []
                                end))).
    { rewrite E, collect_walk. apply NoDup_map_inj_in; [|apply positions_NoDup; assumption].
      intros x y Hx Hy. destruct (positions_valid root x W Hx), (positions_valid root y W Hy).
      apply join_all_injective; assumption. }
    split; [assumption|]. intros segs H S.
    apply (proj1 (NoDup_count_occ' str_eq_dec _) N).
    apply Hin. exists root, segs. auto.
  - intros Hnone.
    destruct (collect _) as [|p files]; [reflexivity|].
    exfalso. destruct (proj1 (Hin p) (or_introl eq_refl)) as [root [segs [R [H [S _]]]]].
    exact (Hnone root segs R H S).
Qed.

(* ================================================================= *)
(** ** Deriving the output path *)

(** *** [splitext] *)

Lemma splitext_parts p :
  fst (os.path.splitext p) ++ snd (os.path.splitext p) = p.
Proof.
  unfold os.path.splitext.
  destruct ((Py.rfind p os.sep <? Py.rfind p os.extsep)%Z
            && negb (forallb (N.eqb os.extsep)
                       (Py.slice p (Py.rfind p os.sep + 1) (Py.rfind p os.extsep))));
    cbn [fst snd]; [apply upto_from | apply app_nil_r].
Qed.

Lemma rfind_dir_prefix D : dir_prefix D -> Py.rfind D os.sep = (Z.of_nat (length D) - 1)%Z.
Proof.
  intros [-> | [D0 ->]]; [reflexivity|].
  rewrite rfind_snoc, length_app. cbn [length]. lia.
Qed.

Lemma slice_after_prefix D name (j : Z) :
  (0 <= j)%Z ->
  Py.slice (D ++ name) (Z.of_nat (length D) - 1 + 1) (Z.of_nat (length D) + j) =
  Py.slice name (-1 + 1) j.
Proof.
  intros Hj. unfold Py.slice.
  replace (Z.of_nat (length D) - 1 + 1)%Z with (Z.of_nat (length D)) by lia.
  rewrite from_app.
  replace (Z.of_nat (length D) + j - Z.of_nat (length D))%Z with (j - (-1 + 1))%Z by lia.
  reflexivity.
Qed.

(** The directories before a name do not change how the name is
    split. *)
Lemma splitext_in_dir D name :
  dir_prefix D -> ~ In os.sep name ->
  os.path.splitext (D ++ name) =
  (D ++ fst (os.path.splitext name), snd (os.path.splitext name)).
Proof.
  intros HD Hname. unfold os.path.splitext.
  rewrite (rfind_absent name os.sep Hname).
  rewrite (rfind_app D name os.sep), (rfind_absent name os.sep Hname).
  cbn [Z.leb Z.compare]. rewrite (rfind_dir_prefix D HD).
  rewrite (rfind_app D name os.extsep).
  pose proof (rfind_bounds name os.extsep) as Bn.
  pose proof (rfind_bounds D os.extsep) as Bd.
  destruct (0 <=? Py.rfind name os.extsep)%Z eqn:E.
  - apply Z.leb_le in E.
    rewrite (slice_after_prefix D name (Py.rfind name os.extsep) E).
    replace (Z.of_nat (length D) - 1 <? Z.of_nat (length D) + Py.rfind name os.extsep)%Z
      with true by (symmetry; apply Z.ltb_lt; lia).
    replace (-1 <? Py.rfind name os.extsep)%Z
      with true by (symmetry; apply Z.ltb_lt; lia).
    cbn [andb].
    destruct (negb (forallb (N.eqb os.extsep)
                      (Py.slice name (-1 + 1) (Py.rfind name os.extsep))));
      cbn [fst snd]; [|reflexivity].
    rewrite (upto_app_more D name _ E), (from_app_more D name _ E). reflexivity.
  - apply Z.leb_gt in E.
    replace (Z.of_nat (length D) - 1 <? Py.rfind D os.extsep)%Z
      with false by (symmetry; apply Z.ltb_ge; lia).
    replace (-1 <? Py.rfind name os.extsep)%Z
      with false by (symmetry; apply Z.ltb_ge; lia).
    reflexivity.
Qed.

Lemma dirs_prefix (dirs : list str) :
  dir_prefix (concat (map (fun d => d ++ [os.sep]) dirs)).
Proof.
  destruct (list_eq_dec str_eq_dec dirs []) as [-> | Hne]; [left; reflexivity|].
  right. destruct (exists_last Hne) as [ds [d ->]].
  rewrite map_app, concat_app. cbn [map concat]. rewrite app_nil_r, app_assoc.
  eexists. reflexivity.
Qed.

(** *** [normpath] and [relpath] *)

Lemma norm_step_slashes k nc c :
  k <> 0 -> os.path.norm_step k nc c = os.path.norm_step 1 nc c.
Proof.
  intros Hk. unfold os.path.norm_step.
  destruct k; [congruence | reflexivity].
Qed.

Lemma norm_step_name k nc d :
  valid_name d = true -> os.path.norm_step k nc d = nc ++ [d].
Proof.
  intros H. apply valid_name_facts in H. destruct H as [H0 [_ [H2 H3]]].
  apply eqb_neq in H0, H2, H3. unfold os.path.norm_step.
  rewrite H0, H2, H3. reflexivity.
Qed.

Lemma norm_names k (segs : list str) : forall nc,
  forallb valid_name segs = true ->
  fold_left (os.path.norm_step k) segs nc = nc ++ segs.
Proof.
  induction segs as [|d segs IH]; intros nc H; cbn [fold_left].
  - rewrite app_nil_r. reflexivity.
  - cbn [forallb] in H. apply andb_true_iff in H. destruct H as [Hd Hs].
    rewrite (norm_step_name k nc d Hd), (IH _ Hs), <- app_assoc. reflexivity.
Qed.

Lemma norm_step_component k nc c :
  Forall component nc -> ~ In os.sep c -> Forall component (os.path.norm_step k nc c).
Proof.
  intros Hnc Hc. unfold os.path.norm_step.
  destruct (Py.eqb c []) eqn:E0; cbn [orb]; [assumption|].
  destruct (Py.eqb c os.curdir); [assumption|].
  match goal with |- Forall _ (if ?b then _ else _) => destruct b end.
  - apply Forall_app. split; [assumption|]. constructor; [|constructor].
    apply eqb_neq in E0. split; assumption.
  - clear - Hnc. induction Hnc as [|x l Hx Hl IH]; [constructor|].
    cbn [removelast]. destruct l; [constructor|]. constructor; assumption.
Qed.

Lemma norm_fold_component k (cs : list str) : forall nc,
  Forall component nc -> Forall (fun c => ~ In os.sep c) cs ->
  Forall component (fold_left (os.path.norm_step k) cs nc).
Proof.
  induction cs as [|c cs IH]; intros nc Hnc Hcs; cbn [fold_left]; [assumption|].
  inversion Hcs; subst. apply IH; [|assumption].
  apply norm_step_component; assumption.
Qed.

Lemma norm_comps_component k p : Forall component (os.path.norm_comps k p).
Proof.
  unfold os.path.norm_comps. apply norm_fold_component; [constructor|].
  apply split_parts_no_sep.
Qed.

Lemma filter_components (cs : list str) :
  Forall component cs -> filter (fun x => negb (Py.eqb x [])) cs = cs.
Proof.
  intros H. induction H as [|c cs [Hc _] Hcs IH]; [reflexivity|].
  cbn [filter]. apply eqb_neq in Hc. rewrite Hc, IH. reflexivity.
Qed.

(** The components of a normalised absolute path, read back. *)
Lemma split_slashes_join k (cs : list str) :
  Forall component cs ->
  filter (fun x => negb (Py.eqb x []))
         (Py.split (Py.times os.sep k ++ Py.join [os.sep] cs) os.sep) = cs.
Proof.
  intros H. induction k as [|k IH].
  - cbn [Py.times repeat app]. destruct cs as [|c cs]; [reflexivity|].
    rewrite split_join; [apply filter_components; assumption | discriminate |].
    eapply Forall_impl; [|exact H]. intros x [_ Hx]. exact Hx.
  - cbn [Py.times repeat app Py.split]. rewrite N.eqb_refl. cbn [filter Py.eqb negb].
    exact IH.
Qed.

Lemma initial_slashes_abs p :
  Py.startswith p [os.sep] = true -> os.path.initial_slashes p <> 0.
Proof.
  intros H. unfold os.path.initial_slashes. rewrite H.
  destruct (Py.startswith p [os.sep; os.sep] && negb (Py.startswith p [os.sep; os.sep; os.sep]));
    discriminate.
Qed.

(** The components of [normpath(p)] for an absolute [p]. *)
Lemma normpath_components p :
  Py.startswith p [os.sep] = true ->
  filter (fun x => negb (Py.eqb x [])) (Py.split (os.path.normpath p) os.sep) =
  fold_left (os.path.norm_step 1) (Py.split p os.sep) [].
Proof.
  intros H. unfold os.path.normpath.
  destruct p as [|x p]; [discriminate|]. cbn [Py.eqb].
  pose proof (initial_slashes_abs (x :: p) H) as Hk.
  destruct (os.path.initial_slashes (x :: p)) as [|k]; [congruence|].
  cbn [Py.times repeat app Py.eqb].
  change (os.sep :: repeat os.sep k ++ ?t) with (Py.times os.sep (S k) ++ t).
  rewrite split_slashes_join by apply norm_comps_component.
  unfold os.path.norm_comps. clear Hk.
  generalize (@nil str). induction (Py.split (x :: p) os.sep) as [|c cs IH]; intros nc;
    cbn [fold_left]; [reflexivity|].
  rewrite (norm_step_slashes (S k) nc c) by discriminate. apply IH.
Qed.

Lemma join_nil_unfold a :
  os.path.join a [] = if Py.eqb a [] || Py.endswith a [os.sep] then a else a ++ [os.sep].
Proof.
  unfold os.path.join. cbn [Py.startswith].
  destruct (Py.eqb a [] || Py.endswith a [os.sep]); [apply app_nil_r | reflexivity].
Qed.

Lemma endswith_app x r :
  r <> [] -> Py.endswith (x ++ r) [os.sep] = Py.endswith r [os.sep].
Proof.
  intros H. destruct (exists_last H) as [r' [c ->]].
  rewrite app_assoc, !endswith_snoc. reflexivity.
Qed.

Lemma app_not_nil (x r : str) : r <> [] -> Py.eqb (x ++ r) [] = false.
Proof.
  intros H. apply eqb_neq. intros E. apply app_eq_nil in E. tauto.
Qed.

Lemma join_nil_app x r : r <> [] -> os.path.join (x ++ r) [] = x ++ os.path.join r [].
Proof.
  intros H. rewrite !join_nil_unfold, (endswith_app x r H), (app_not_nil x r H).
  assert (E : Py.eqb r [] = false) by (apply eqb_neq; assumption).
  rewrite E. cbn [orb]. destruct (Py.endswith r [os.sep]); [reflexivity|].
  rewrite app_assoc. reflexivity.
Qed.

Lemma join_nil_idem a : os.path.join (os.path.join a []) [] = os.path.join a [].
Proof.
  rewrite (join_nil_unfold a).
  destruct (Py.eqb a [] || Py.endswith a [os.sep]) eqn:E.
  - rewrite join_nil_unfold, E. reflexivity.
  - rewrite join_nil_unfold, endswith_snoc, N.eqb_refl, orb_true_r. reflexivity.
Qed.

Lemma startswith_char c k (s : str) : Py.startswith (c :: s) [k] = (c =? k)%N.
Proof. cbn [Py.startswith]. destruct s; apply andb_true_r. Qed.

Lemma startswith_app x y :
  x <> [] -> Py.startswith (x ++ y) [os.sep] = Py.startswith x [os.sep].
Proof.
  destruct x; [congruence|]. intros _. cbn [app]. rewrite !startswith_char. reflexivity.
Qed.

Lemma names_not_abs (segs : list str) :
  segs <> [] -> forallb valid_name segs = true ->
  Py.startswith (Py.join [os.sep] segs) [os.sep] = false.
Proof.
  intros Hne H. destruct segs as [|s rest]; [congruence|].
  cbn [forallb] in H. apply andb_true_iff in H. destruct H as [Hs _].
  rewrite join_cons. pose proof (valid_not_abs s Hs) as Ha.
  apply valid_name_facts in Hs. destruct Hs as [H0 _].
  rewrite startswith_app by assumption. assumption.
Qed.

Lemma join_nil_startswith a :
  a <> [] -> Py.startswith (os.path.join a []) [os.sep] = Py.startswith a [os.sep].
Proof.
  intros H. rewrite join_nil_unfold.
  destruct (Py.eqb a [] || Py.endswith a [os.sep]);
    [reflexivity | apply startswith_app; assumption].
Qed.

Lemma join_nil_not_nil a : a <> [] -> os.path.join a [] <> [].
Proof.
  intros H. rewrite join_nil_unfold.
  destruct (Py.eqb a [] || Py.endswith a [os.sep]); [assumption|].
  intros E. apply app_eq_nil in E. tauto.
Qed.

Lemma join_nil_abs a :
  Py.startswith a [os.sep] = true -> Py.startswith (os.path.join a []) [os.sep] = true.
Proof.
  intros H. rewrite join_nil_unfold.
  destruct (Py.eqb a [] || Py.endswith a [os.sep]); [assumption|].
  rewrite startswith_app; [assumption | destruct a; discriminate].
Qed.

(** Where [abspath] starts for the input folder and for a path
    below it. *)
Lemma abspath_start cwd root (segs : list str) :
  os.path.isabs cwd = true -> segs <> [] -> forallb valid_name segs = true ->
  let p := os.path.join_all root segs in
  let a := if os.path.isabs root then root else os.path.join cwd root in
  Py.startswith a [os.sep] = true /\
  (if os.path.isabs p then p else os.path.join cwd p) =
  os.path.join a [] ++ Py.join [os.sep] segs.
Proof.
  intros Hcwd Hne Hv. cbv zeta. unfold os.path.isabs in *.
  rewrite (join_all_names root segs Hne Hv).
  pose proof (names_not_abs segs Hne Hv) as HJ.
  destruct (Py.startswith root [os.sep]) eqn:Hroot.
  - split; [exact Hroot|].
    assert (Hr : root <> []) by (destruct root; [discriminate | discriminate]).
    assert (E : Py.startswith (os.path.join root [] ++ Py.join [os.sep] segs) [os.sep] = true).
    { rewrite startswith_app by (apply join_nil_not_nil; assumption).
      rewrite join_nil_startswith by assumption. exact Hroot. }
    rewrite E. reflexivity.
  - rewrite (join_not_abs cwd root Hroot).
    assert (Hc : cwd <> []) by (destruct cwd; [discriminate | discriminate]).
    assert (Hj : Py.startswith (os.path.join cwd []) [os.sep] = true)
      by (apply join_nil_abs; assumption).
    assert (Hjn : os.path.join cwd [] <> []).
    { destruct (os.path.join cwd []); [discriminate | discriminate]. }
    split; [rewrite startswith_app; assumption|].
    assert (E : Py.startswith (os.path.join root [] ++ Py.join [os.sep] segs) [os.sep] = false).
    { destruct root as [|x r].
      - exact HJ.
      - rewrite startswith_app by (apply join_nil_not_nil; discriminate).
        rewrite join_nil_startswith by discriminate. exact Hroot. }
    rewrite E, (join_not_abs cwd _ E).
    destruct root as [|x r].
    + rewrite app_nil_r, join_nil_idem. reflexivity.
    + rewrite (join_nil_app (os.path.join cwd []) (x :: r)) by discriminate.
      rewrite <- app_assoc. reflexivity.
Qed.

(** Below an absolute path, valid names are kept as they are by
    [normpath]. *)
Lemma norm_under a (segs : list str) :
  a <> [] -> segs <> [] -> forallb valid_name segs = true ->
  fold_left (os.path.norm_step 1)
            (Py.split (os.path.join a [] ++ Py.join [os.sep] segs) os.sep) [] =
  fold_left (os.path.norm_step 1) (Py.split a os.sep) [] ++ segs.
Proof.
  intros Ha Hne Hv. rewrite join_nil_unfold.
  assert (E0 : Py.eqb a [] = false) by (apply eqb_neq; assumption).
  rewrite E0. cbn [orb].
  pose proof (split_join os.sep segs Hne (names_no_sep segs Hv)) as HS.
  destruct (Py.endswith a [os.sep]) eqn:E.
  - destruct (exists_last Ha) as [a0 [c Ea]]. subst a.
    rewrite endswith_snoc in E. apply N.eqb_eq in E. subst c.
    rewrite <- app_assoc. cbn [app].
    rewrite !split_app_sep, HS, !fold_left_app. cbn [Py.split fold_left].
    unfold os.path.norm_step at 2. cbn [Py.eqb orb].
    apply norm_names. assumption.
  - rewrite <- app_assoc. cbn [app].
    rewrite split_app_sep, HS, fold_left_app. apply norm_names. assumption.
Qed.

Lemma list_ltb_app_false (a b : list str) : os.path.list_ltb (a ++ b) a = false.
Proof.
  induction a as [|x a IH]; cbn [app os.path.list_ltb]; [destruct b; reflexivity|].
  rewrite eqb_refl. exact IH.
Qed.

Lemma prefix_scan_app (a b : list str) : os.path.prefix_scan a (a ++ b) = a.
Proof.
  induction a as [|x a IH]; cbn [os.path.prefix_scan app]; [reflexivity|].
  rewrite eqb_refl, IH. reflexivity.
Qed.

Lemma commonprefix_app (a b : list str) : os.path.commonprefix a (a ++ b) = a.
Proof.
  unfold os.path.commonprefix. rewrite list_ltb_app_false.
  destruct (os.path.list_ltb a (a ++ b)); [apply prefix_scan_app|].
  rewrite <- (app_nil_r a) at 2. apply prefix_scan_app.
Qed.

Lemma abspath_eq p w :
  os.path.abspath p w = (Ret (os.path.abspath_in (cwd w) p), w).
Proof. reflexivity. Qed.

(** [relpath] of a path that lies below [root] through valid names:
    the names joined by separators. *)
Lemma relpath_below w root p (segs : list str) :
  Py.eqb p [] = false -> below (cwd w) root p segs ->
  segs <> [] -> forallb valid_name segs = true ->
  os.path.relpath p root w = (Ret (Py.join [os.sep] segs), w).
Proof.
  intros Hnil Hb Hne Hv. unfold below, components in Hb.
  unfold os.path.relpath. rewrite Hnil.
  unfold bind at 1. rewrite abspath_eq. cbv beta iota.
  unfold bind at 1. rewrite abspath_eq. cbv beta iota.
  rewrite Hb.
  rewrite commonprefix_app, Nat.sub_diag, skipn_app, Nat.sub_diag, skipn_all.
  cbn [repeat app].
  destruct segs as [|s rest]; [congruence|].
  cbn [skipn]. unfold ret. f_equal. f_equal.
  transitivity (os.path.join_all [] (s :: rest)).
  - cbn [os.path.join_all fold_left]. f_equal.
    cbn [forallb] in Hv. apply andb_true_iff in Hv. destruct Hv as [Hs _].
    unfold os.path.join. rewrite (valid_not_abs s Hs). reflexivity.
  - rewrite (join_all_names [] (s :: rest) Hne Hv). reflexivity.
Qed.

Lemma join_all_not_nil root (segs : list str) :
  segs <> [] -> forallb valid_name segs = true ->
  Py.eqb (os.path.join_all root segs) [] = false.
Proof.
  intros Hne Hv. rewrite (join_all_names root segs Hne Hv). apply app_not_nil.
  destruct segs as [|s rest]; [congruence|].
  cbn [forallb] in Hv. apply andb_true_iff in Hv. destruct Hv as [Hs _].
  apply valid_name_facts in Hs. destruct Hs as [H0 _].
  rewrite join_cons. intros E. apply app_eq_nil in E. tauto.
Qed.

(** The paths that [os.path.join] builds from [root] and valid names
    lie below [root], whatever [root] is, when the working directory
    is absolute (as [os.getcwd] gives it). *)
Lemma join_all_below cwd root (segs : list str) :
  os.path.isabs cwd = true -> segs <> [] -> forallb valid_name segs = true ->
  below cwd root (os.path.join_all root segs) segs.
Proof.
  intros Hcwd Hne Hv.
  destruct (abspath_start cwd root segs Hcwd Hne Hv) as [Ha Hp].
  unfold below, components, os.path.abspath_in. rewrite Hp.
  set (a := if os.path.isabs root then root else os.path.join cwd root) in *.
  assert (Hane : a <> []) by (destruct a; [discriminate | discriminate]).
  rewrite (normpath_components a Ha).
  assert (Hp' : Py.startswith (os.path.join a [] ++ Py.join [os.sep] segs) [os.sep] = true).
  { rewrite startswith_app by (apply join_nil_not_nil; assumption).
    apply join_nil_abs. assumption. }
  rewrite (normpath_components _ Hp').
  apply norm_under; assumption.
Qed.

(** *** The output path *)

Lemma name_prefix_not_abs stem ext c r :
  valid_name (stem ++ ext) = true -> c <> os.sep ->
  Py.startswith (stem ++ c :: r) [os.sep] = false.
Proof.
  intros H Hc. apply valid_name_facts in H. destruct H as [_ [H1 _]].
  destruct stem as [|x stem]; cbn [app]; rewrite startswith_char; apply N.eqb_neq.
  - assumption.
  - intros E. apply H1. left. assumption.
Qed.

Lemma dirs_not_abs (dirs : list str) x :
  forallb valid_name dirs = true -> Py.startswith x [os.sep] = false ->
  Py.startswith (concat (map (fun d => d ++ [os.sep]) dirs) ++ x) [os.sep] = false.
Proof.
  intros Hd Hx. destruct dirs as [|d dirs]; [exact Hx|].
  cbn [forallb] in Hd. apply andb_true_iff in Hd. destruct Hd as [Hd _].
  cbn [map concat]. rewrite <- !app_assoc.
  pose proof (valid_not_abs d Hd) as Ha.
  apply valid_name_facts in Hd. destruct Hd as [H0 _].
  rewrite startswith_app by assumption. exact Ha.
Qed.

(** The output path of a file below the input folder, whatever the
    folders are: the same directories below the output folder, and
    the file name rebuilt from its stem. *)
Lemma output_path_of_name w input_path input_folder output_folder
    (dirs : list str) file (height : option Z) (audio : bool) (tail : str) :
  Py.eqb input_path [] = false ->
  below (cwd w) input_folder input_path (dirs ++ [file]) ->
  forallb valid_name (dirs ++ [file]) = true ->
  (if audio then u8 ".mp3"
   else u8 "_" ++ Py.format height ++ u8 "p" ++ snd (os.path.splitext file)) = tail ->
  (exists c r, tail = c :: r /\ c <> os.sep) ->
  get_output_path input_path input_folder output_folder height audio w =
  (Ret (os.path.join_all output_folder
          (dirs ++ [fst (os.path.splitext file) ++ tail])), w).
Proof.
  intros Hnil Hb Hv Htail [c [r [Ec Hc]]].
  assert (Hne : dirs ++ [file] <> []) by (destruct dirs; discriminate).
  pose proof Hv as Hv'. rewrite forallb_snoc in Hv'.
  apply andb_true_iff in Hv'. destruct Hv' as [Hd Hf].
  unfold get_output_path, bind at 1.
  rewrite (relpath_below w input_folder input_path (dirs ++ [file]) Hnil Hb Hne Hv).
  cbv beta iota. rewrite join_snoc.
  rewrite (splitext_in_dir _ file (dirs_prefix dirs)
             (proj1 (proj2 (proj1 (valid_name_facts file) Hf)))).
  cbv beta iota. unfold ret. f_equal. f_equal.
  assert (Hx : Py.startswith (fst (os.path.splitext file) ++ tail) [os.sep] = false).
  { rewrite Ec. apply name_prefix_not_abs with (ext := snd (os.path.splitext file));
      [rewrite splitext_parts|]; assumption. }
  etransitivity; [|symmetry; apply (join_all_segments dirs output_folder _ Hd Hx)].
  rewrite <- Htail.
  destruct audio.
  - rewrite <- app_assoc. rewrite join_not_abs; [reflexivity|].
    rewrite Htail. apply dirs_not_abs; assumption.
  - rewrite <- !app_assoc. rewrite join_not_abs; [reflexivity|].
    rewrite <- Htail in Hx. apply dirs_not_abs; assumption.
Qed.

(** C2.  Let the input path lie below the input folder through the
    directories [dirs] (none, or any number of them) and the file name
    [file], all of them valid names of directory entries; the input
    folder, the output folder and the height are arbitrary.  Then the
    output path is reached from the output folder through the same
    directories; in resolution mode the file is named by its stem, an
    underscore, the height, [p] and its extension; in audio mode by
    its stem and [.mp3].  Stem and extension are the two parts
    [splitext] makes of the file name. *)
Theorem get_output_path_mirrors_input :
  forall w input_path input_folder output_folder (dirs : list str) file
         target_height any_height,
    Py.eqb input_path [] = false ->
    below (cwd w) input_folder input_path (dirs ++ [file]) ->
    forallb valid_name (dirs ++ [file]) = true ->
    let stem := fst (os.path.splitext file) in
    let ext := snd (os.path.splitext file) in
    stem ++ ext = file /\
    get_output_path input_path input_folder output_folder (Some target_height) false w =
    (Ret (os.path.join_all output_folder
            (dirs ++ [stem ++ u8 "_" ++ Py.str_of_int target_height ++ u8 "p" ++ ext])),
     w) /\
    get_output_path input_path input_folder output_folder any_height true w =
    (Ret (os.path.join_all output_folder (dirs ++ [stem ++ u8 ".mp3"])), w).
Proof.
  intros w p root out dirs file h h' Hnil Hb Hv. cbv zeta.
  split; [apply splitext_parts | split].
  - apply output_path_of_name; try assumption; [reflexivity|].
    eexists. eexists. split; [reflexivity | discriminate].
  - apply output_path_of_name; try assumption; [reflexivity|].
    eexists. eexists. split; [reflexivity | discriminate].
Qed.

(** C2 at 01.入力/a/b/c.mp4 with height 480. *)
Lemma get_output_path_mirrors_input_witness :
  let w := holding [] in
  let dirs := [u8 "a"; u8 "b"] in
  let file := u8 "c.mp4" in
  let input_path := u8 "01.入力/a/b/c.mp4" in
  let stem := fst (os.path.splitext file) in
  let ext := snd (os.path.splitext file) in
  stem ++ ext = file /\
  get_output_path input_path INPUT_FOLDER OUTPUT_FOLDER (Some 480%Z) false w =
  (Ret (os.path.join_all OUTPUT_FOLDER
          (dirs ++ [stem ++ u8 "_" ++ Py.str_of_int 480 ++ u8 "p" ++ ext])),
   w) /\
  get_output_path input_path INPUT_FOLDER OUTPUT_FOLDER None true w =
  (Ret (os.path.join_all OUTPUT_FOLDER (dirs ++ [stem ++ u8 ".mp3"])), w).
Proof.
  apply (get_output_path_mirrors_input (holding []) (u8 "01.入力/a/b/c.mp4")
           INPUT_FOLDER OUTPUT_FOLDER [u8 "a"; u8 "b"] (u8 "c.mp4") 480%Z None).
  - vm_compute. reflexivity.
  - vm_compute. reflexivity.
  - vm_compute. reflexivity.
Defined.

(** The paths that [get_input_files] builds, of a file directly in
    the input folder or any number of directories down, are such
    paths, whatever the folders are. *)
Lemma get_output_path_of_joined w input_folder output_folder (dirs : list str) file
    target_height :
  os.path.isabs (cwd w) = true ->
  forallb valid_name (dirs ++ [file]) = true ->
  get_output_path (os.path.join_all input_folder (dirs ++ [file]))
                  input_folder output_folder (Some target_height) false w =
  (Ret (os.path.join_all output_folder
          (dirs ++ [fst (os.path.splitext file) ++ u8 "_"
                      ++ Py.str_of_int target_height ++ u8 "p"
                      ++ snd (os.path.splitext file)])), w).
Proof.
  intros Hcwd Hv.
  assert (Hne : dirs ++ [file] <> []) by (destruct dirs; discriminate).
  apply output_path_of_name; try assumption.
  - apply join_all_not_nil; assumption.
  - apply join_all_below; assumption.
  - reflexivity.
  - eexists. eexists. split; [reflexivity | discriminate].
Qed.

(** The paths of the examples, spelled out; a path written with
    redundant parts gives the same result. *)
Example get_output_path_example :
  fst (get_output_path (u8 "01.入力/a/b/c.mp4") INPUT_FOLDER OUTPUT_FOLDER
         (Some 480%Z) false (holding [])) = Ret (u8 "02.出力/a/b/c_480p.mp4") /\
  fst (get_output_path (u8 "./01.入力//a/x/../b/c.mp4") INPUT_FOLDER OUTPUT_FOLDER
         (Some 480%Z) false (holding [])) = Ret (u8 "02.出力/a/b/c_480p.mp4") /\
  fst (get_output_path (u8 "01.入力/clip1.mp4") INPUT_FOLDER OUTPUT_FOLDER
         None true (holding [])) = Ret (u8 "02.出力/clip1.mp3").
Proof. repeat split; vm_compute; reflexivity. Qed.

(* ================================================================= *)
(** ** What no step changes *)

Lemma same_setting_refl w : same_setting w w.
Proof. repeat split. Qed.

Lemma same_setting_log w0 w e : same_setting w0 w -> same_setting w0 (log e w).
Proof. intros H. exact H. Qed.

Lemma same_setting_with_fs w0 w f : same_setting w0 w -> same_setting w0 (with_fs w f).
Proof. intros H. exact H. Qed.

Lemma same_setting_with_stdin w0 w l :
  same_setting w0 w -> same_setting w0 (with_stdin w l).
Proof. intros H. exact H. Qed.

Section Keeping.

Variable I : World -> Prop.

Lemma keeps_ret A (a : A) : keeps I (ret a).
Proof. intros w H. exact H. Qed.

Lemma keeps_raise A k msg : keeps I (@raise A k msg).
Proof. intros w H. exact H. Qed.

Lemma keeps_exit A code : keeps I (@sys.exit A code).
Proof. intros w H. exact H. Qed.

Lemma keeps_read A (f : World -> result A) : keeps I (fun w => (f w, w)).
Proof. intros w H. exact H. Qed.

Lemma keeps_try_except A (body : M A) cls handler :
  keeps I body -> (forall k msg, keeps I (handler k msg)) ->
  keeps I (try_except body cls handler).
Proof.
  intros Hb Hh w HI. unfold try_except. specialize (Hb w HI).
  destruct (body w) as [[a|[k msg|code]|] w1]; cbn [snd] in *; try assumption.
  destruct (cls k); cbn [snd]; [apply Hh|]; assumption.
Qed.

Lemma keeps_while_true A (body : M (option A)) n :
  keeps I body -> keeps I (while_true n body).
Proof.
  intros Hb. induction n as [|n IH]; cbn [while_true].
  - intros w H. exact H.
  - apply keeps_bind; [assumption|]. intros [a|]; [apply keeps_ret | assumption].
Qed.

Lemma keeps_for_enumerate A (body : nat -> A -> M unit) l :
  (forall i x, keeps I (body i x)) -> forall i, keeps I (for_enumerate i l body).
Proof.
  intros Hb. induction l as [|x l IH]; intros i; cbn [for_enumerate].
  - apply keeps_ret.
  - apply keeps_bind; [apply Hb | intros _; apply IH].
Qed.

End Keeping.

Section Setting.

Variable w0 : World.

Lemma setting_print s : keeps (same_setting w0) (print s).
Proof. intros w H. exact H. Qed.

Lemma setting_print_end s e : keeps (same_setting w0) (print_end s e).
Proof. intros w H. exact H. Qed.

Lemma setting_input prompt : keeps (same_setting w0) (input prompt).
Proof. intros w H. unfold input. cbn [stdin log]. destruct (stdin w); exact H. Qed.

Lemma setting_run args : keeps (same_setting w0) (subprocess.run args).
Proof.
  intros w H. unfold subprocess.run. destruct (proc w (trace w) args); exact H.
Qed.

Lemma setting_mkdir p : keeps (same_setting w0) (os.mkdir p).
Proof.
  intros w H. unfold os.mkdir.
  repeat match goal with
         | |- context [match ?x with _ => _ end] => destruct x
         end; exact H.
Qed.

Lemma setting_makedirs_rec n : forall name exist_ok,
  keeps (same_setting w0) (os.makedirs_rec n name exist_ok).
Proof.
  induction n as [|n IH]; intros name ok; cbn [os.makedirs_rec].
  - intros w H. exact H.
  - destruct (os.path.split name) as [head tail].
    destruct (if Py.eqb tail [] then os.path.split head else (head, tail)) as [head' tail'].
    apply keeps_bind; [apply keeps_read|]. intros head_exists.
    apply keeps_bind.
    { destruct (negb (Py.eqb head' []) && negb (Py.eqb tail' []) && negb head_exists).
      - apply keeps_bind.
        + apply keeps_try_except; [apply IH|]. intros k msg. apply keeps_ret.
        + intros _. apply keeps_ret.
      - apply keeps_ret. }
    intros [|]; [apply keeps_ret|].
    apply keeps_try_except; [apply setting_mkdir|].
    intros k msg. apply keeps_bind; [apply keeps_read|].
    intros d. destruct (negb ok || negb d); [apply keeps_raise | apply keeps_ret].
Qed.

Lemma setting_makedirs name exist_ok : keeps (same_setting w0) (os.makedirs name exist_ok).
Proof.
  intros w H. unfold os.makedirs. apply setting_makedirs_rec. exact H.
Qed.

Lemma setting_rmtree p : keeps (same_setting w0) (shutil.rmtree p).
Proof.
  intros w H. unfold shutil.rmtree. cbn [fs log].
  destruct (os.resolve (fs w) p) as [[|es]|]; try exact H.
  destruct (os.path_names p) as [[|n ns]|]; exact H.
Qed.

End Setting.

(** Following the structure of a computation. *)
Ltac setting_tac :=
  repeat
    (cbv beta;
     lazymatch goal with
     | |- keeps _ (ret _) => apply keeps_ret
     | |- keeps _ (raise _ _) => apply keeps_raise
     | |- keeps _ (sys.exit _) => apply keeps_exit
     | |- keeps _ (print _) => apply setting_print
     | |- keeps _ print_ => apply setting_print
     | |- keeps _ (print_end _ _) => apply setting_print_end
     | |- keeps _ (input _) => apply setting_input
     | |- keeps _ (subprocess.run _) => apply setting_run
     | |- keeps _ (os.makedirs _ _) => apply setting_makedirs
     | |- keeps _ (shutil.rmtree _) => apply setting_rmtree
     | |- keeps _ (bind _ _) => apply keeps_bind; intros
     | |- keeps _ (try_except _ _ _) => apply keeps_try_except; intros
     | |- keeps _ (for_enumerate _ _ _) => apply keeps_for_enumerate; intros
     | |- keeps _ (while_true _ _) => apply keeps_while_true
     | |- keeps _ (fun w => (_, w)) => apply keeps_read
     | |- keeps _ (if ?b then _ else _) => destruct b
     | |- keeps _ (match ?x with _ => _ end) => destruct x
     end).

Ltac setting_prog :=
  unfold clear_output_folder, get_output_path, convert_video, extract_audio,
    find_ffmpeg, get_ffmpeg_version, is_nvenc_available, get_input_files,
    parse_argument, get_target_height_round,
    os.path.relpath, os.path.abspath, os.getcwd, os.walk,
    os.path.exists_, os.path.isfile, os.path.isdir;
  setting_tac.

Lemma setting_get_target_height w0 : keeps (same_setting w0) get_target_height.
Proof.
  intros w H. unfold get_target_height.
  generalize (S (length (stdin w))). intros n. revert w H.
  change (keeps (same_setting w0) (while_true n get_target_height_round)).
  setting_prog.
Qed.

(* ================================================================= *)
(** ** The encodings of a job *)

(** [relpath] only reads the working directory. *)
Lemma relpath_reads p start w w' :
  cwd w' = cwd w ->
  os.path.relpath p start w' = (fst (os.path.relpath p start w), w').
Proof.
  intros H. unfold os.path.relpath. destruct (Py.eqb p []); [reflexivity|].
  unfold bind at 1. rewrite abspath_eq. cbv beta iota.
  unfold bind at 1. rewrite abspath_eq. cbv beta iota.
  unfold bind at 1. rewrite abspath_eq. cbv beta iota.
  unfold bind at 1. rewrite abspath_eq. cbv beta iota zeta.
  rewrite H.
  match goal with
  | |- context [match ?x with [] => _ | _ :: _ => _ end] => destruct x
  end; reflexivity.
Qed.

Lemma get_output_path_reads p root out height audio w w' :
  cwd w' = cwd w ->
  get_output_path p root out height audio w' =
  (fst (get_output_path p root out height audio w), w').
Proof.
  intros H. unfold get_output_path, bind.
  rewrite (relpath_reads p root w w' H).
  rewrite (relpath_reads p root w w eq_refl).
  cbn [fst].
  destruct (fst (os.path.relpath p root w)) as [r| |]; [|reflexivity..].
  destruct (os.path.splitext r); reflexivity.
Qed.

Lemma filter_not_encoding evs :
  Forall not_encoding evs -> filter is_encoding evs = [].
Proof.
  induction 1 as [|e evs He _ IH]; [reflexivity|].
  cbn [filter]. rewrite He. assumption.
Qed.

Lemma quiet_not_encoding e : quiet e -> not_encoding e.
Proof. intros [_ H]. exact H. Qed.

(** A run that starts no encoding. *)
Lemma files_in_order_none strict w0 cmd files (m : M unit) w :
  leads not_encoding any_fs w (snd (m w)) -> same_setting w0 (snd (m w)) ->
  (strict = true -> fst (m w) = Ret tt -> length files = 0) ->
  files_in_order strict w0 cmd files m w.
Proof.
  intros [[evs [T Hq]] _] Hs Hr. split; [assumption|]. exists evs, 0.
  rewrite (filter_not_encoding _ Hq). repeat split; auto with arith.
  intros S R. symmetry. auto.
Qed.

Lemma in_order_ret w0 cmd : in_order w0 cmd [] (ret tt).
Proof.
  intros w H. apply files_in_order_none; [|exact H|reflexivity].
  apply leads_refl. exact any_fs_refl.
Qed.

Lemma files_in_order_weaken strict w0 cmd files m w :
  files_in_order true w0 cmd files m w -> files_in_order strict w0 cmd files m w.
Proof.
  intros [Hs [evs [n [T [Hn [Hf Hr]]]]]]. split; [assumption|].
  exists evs, n. repeat split; auto.
Qed.

(** A step that starts no encoding, before the files are taken. *)
Lemma files_in_order_step strict w0 cmd files A (m : M A) (k : A -> M unit) w :
  leads not_encoding any_fs w (snd (m w)) -> same_setting w0 (snd (m w)) ->
  (forall a, fst (m w) = Ret a -> files_in_order strict w0 cmd files (k a) (snd (m w))) ->
  files_in_order strict w0 cmd files (bind m k) w.
Proof.
  intros [[evs [T Hq]] _] Hs Hk. unfold files_in_order, bind.
  destruct (m w) as [[a| |] w1]; cbn [snd fst] in *.
  - destruct (Hk a eq_refl) as [Hs' [evs' [n [T' [Hn [Hf Hr]]]]]].
    split; [assumption|]. exists (evs ++ evs'), n.
    rewrite T', T, app_assoc, filter_app, (filter_not_encoding _ Hq). auto.
  - split; [assumption|]. exists evs, 0.
    rewrite (filter_not_encoding _ Hq). repeat split; auto with arith; discriminate.
  - split; [assumption|]. exists evs, 0.
    rewrite (filter_not_encoding _ Hq). repeat split; auto with arith; discriminate.
Qed.

Lemma in_order_bind w0 cmd files A (m : M A) (k : A -> M unit) :
  within not_encoding any_fs m -> keeps (same_setting w0) m ->
  (forall a, in_order w0 cmd files (k a)) ->
  in_order w0 cmd files (bind m k).
Proof.
  intros Hm Hs Hk w H. apply files_in_order_step.
  - apply Hm.
  - apply Hs. assumption.
  - intros a _. apply Hk. apply Hs. assumption.
Qed.

(** The encodings of a run that goes through the files in order. *)
Lemma files_in_order_encodings strict w cmd files m :
  files_in_order strict w cmd files m w ->
  exists n,
    n <= length files /\
    encodings w (snd (m w)) = map (fun f => Spawn (cmd f)) (firstn n files) /\
    (strict = true -> fst (m w) = Ret tt -> n = length files).
Proof.
  intros [_ [evs [n [T [Hn [Hf Hr]]]]]]. exists n.
  unfold encodings, new_events. rewrite T, skipn_new_events. auto.
Qed.

(** [os.makedirs] is one event, whatever it creates. *)
Lemma makedirs_events name exist_ok w :
  trace (snd (os.makedirs name exist_ok w)) = trace w ++ [Makedirs name exist_ok].
Proof.
  unfold os.makedirs.
  rewrite (leads_no_event any_fs _ _
             (within_makedirs_rec no_event _ name exist_ok
                (log (Makedirs name exist_ok) w))).
  reflexivity.
Qed.

Section Job.

Variable w0 : World.
Variable command : str -> str -> list str.
Variable height : option Z.
Variable audio : bool.
Variable done : str.
Variable total_files : nat.
Variable body : nat -> str -> M unit.

Hypothesis command_encodes :
  forall input_file output_path, is_encoding (Spawn (command input_file output_path)) = true.

Hypothesis body_eq : forall i input_file,
  body i input_file =
  (print_end (progress i total_files input_file) [];;
   output_path <- get_output_path input_file INPUT_FOLDER OUTPUT_FOLDER height audio;;
   os.makedirs (os.path.dirname output_path) true;;
   (subprocess.run (command input_file output_path);; ret tt);;
   print done)%monad.

(** One file: at most its own encoding, and exactly that when the
    body returns. *)
Lemma body_step i input_file w :
  same_setting w0 w ->
  same_setting w0 (snd (body i input_file w)) /\
  exists evs,
    trace (snd (body i input_file w)) = trace w ++ evs /\
    (filter is_encoding evs =
       [Spawn (command input_file (output_of w0 input_file height audio))] \/
     filter is_encoding evs = [] /\ fst (body i input_file w) <> Ret tt).
Proof.
  intros Hs. split.
  { revert w Hs. change (keeps (same_setting w0) (body i input_file)).
    rewrite body_eq. setting_prog. }
  rewrite body_eq.
  match goal with |- context [trace (snd ?t)] => remember t as R eqn:E end.
  unfold bind at 1, print_end at 1 in E. cbv beta iota in E.
  set (w1 := log _ w) in E.
  assert (Hs1 : same_setting w0 w1) by exact Hs.
  assert (T1 : trace w1 = trace w ++ [Out (progress i total_files input_file ++ [])])
    by reflexivity.
  clearbody w1.
  unfold bind at 1 in E.
  rewrite (get_output_path_reads input_file INPUT_FOLDER OUTPUT_FOLDER height audio
             w0 w1 (proj1 Hs1)) in E.
  unfold output_of.
  destruct (fst (get_output_path input_file INPUT_FOLDER OUTPUT_FOLDER height audio w0))
    as [output_path| |].
  - unfold bind at 1 in E.
    pose proof (within_makedirs not_encoding (os.path.dirname output_path) true
                  eq_refl w1) as [[evs [T Hq]] _].
    destruct (os.makedirs (os.path.dirname output_path) true w1) as [[[]| |] w2];
      cbn [snd] in T.
    + unfold bind, subprocess.run, ret, print in E.
      destruct (proc w2 (trace w2) (command input_file output_path)) as [rc out|k msg];
        subst R; cbn [snd fst log trace].
      * exists ([Out (progress i total_files input_file ++ [])] ++ evs ++
                [Spawn (command input_file output_path); Out (done ++ newline)]).
        split.
        { rewrite T, T1. rewrite <- !app_assoc. reflexivity. }
        left. rewrite !filter_app, (filter_not_encoding _ Hq).
        cbn [filter app]. rewrite command_encodes. reflexivity.
      * exists ([Out (progress i total_files input_file ++ [])] ++ evs ++
                [Spawn (command input_file output_path)]).
        split.
        { rewrite T, T1. rewrite <- !app_assoc. reflexivity. }
        left. rewrite !filter_app, (filter_not_encoding _ Hq).
        cbn [filter app]. rewrite command_encodes. reflexivity.
    + subst R. cbn [snd fst].
      exists ([Out (progress i total_files input_file ++ [])] ++ evs). split.
      { rewrite T, T1. rewrite <- !app_assoc. reflexivity. }
      right. rewrite filter_app, (filter_not_encoding _ Hq). split; [reflexivity | discriminate].
    + subst R. cbn [snd fst].
      exists ([Out (progress i total_files input_file ++ [])] ++ evs). split.
      { rewrite T, T1. rewrite <- !app_assoc. reflexivity. }
      right. rewrite filter_app, (filter_not_encoding _ Hq). split; [reflexivity | discriminate].
  - subst R. cbn [snd fst].
    exists [Out (progress i total_files input_file ++ [])]. split; [exact T1|].
    right. split; [reflexivity | discriminate].
  - subst R. cbn [snd fst].
    exists [Out (progress i total_files input_file ++ [])]. split; [exact T1|].
    right. split; [reflexivity | discriminate].
Qed.

(** The loop over the files. *)
Lemma job_loop files : forall i,
  in_order w0 (fun f => command f (output_of w0 f height audio)) files
    (for_enumerate i files body).
Proof.
  induction files as [|f files IH]; intros i; cbn [for_enumerate].
  - apply in_order_ret.
  - intros w Hs. destruct (body_step i f w Hs) as [Hs1 [evs [T Hf]]].
    unfold files_in_order, bind.
    destruct (body i f w) as [[[]| |] w1]; cbn [snd fst] in *.
    + destruct (IH (S i) w1 Hs1) as [Hs2 [evs' [n [T' [Hn [Hf' Hr]]]]]].
      split; [assumption|]. exists (evs ++ evs'), (S n).
      destruct Hf as [Hf | [_ Hf]]; [|congruence].
      rewrite T', T, app_assoc, filter_app, Hf, Hf'. cbn [length firstn map app].
      repeat split; auto with arith.
    + split; [assumption|]. destruct Hf as [Hf | [Hf _]].
      * exists evs, 1. rewrite Hf. cbn [length firstn map].
        repeat split; auto with arith; discriminate.
      * exists evs, 0. rewrite Hf. cbn [length firstn map].
        repeat split; auto with arith; discriminate.
    + split; [assumption|]. destruct Hf as [Hf | [Hf _]].
      * exists evs, 1. rewrite Hf. cbn [length firstn map].
        repeat split; auto with arith; discriminate.
      * exists evs, 0. rewrite Hf. cbn [length firstn map].
        repeat split; auto with arith; discriminate.
Qed.

(** One file: its events, up to the point where something fails. *)
Lemma body_schedule i input_file w :
  same_setting w0 w ->
  exists k,
    k <= 4 /\
    trace (snd (body i input_file w)) =
    trace w ++
    firstn k (file_events (progress i total_files input_file)
                (output_of w0 input_file height audio)
                (command input_file (output_of w0 input_file height audio)) done) /\
    (fst (body i input_file w) = Ret tt -> k = 4).
Proof.
  intros Hs. rewrite body_eq.
  match goal with |- context [trace (snd ?t)] => remember t as R eqn:E end.
  unfold bind at 1, print_end at 1 in E. cbv beta iota in E.
  set (w1 := log _ w) in E.
  assert (Hs1 : same_setting w0 w1) by exact Hs.
  assert (T1 : trace w1 = trace w ++ [Out (progress i total_files input_file)]).
  { subst w1. cbn [log trace]. rewrite app_nil_r. reflexivity. }
  clearbody w1.
  unfold bind at 1 in E.
  rewrite (get_output_path_reads input_file INPUT_FOLDER OUTPUT_FOLDER height audio
             w0 w1 (proj1 Hs1)) in E.
  unfold output_of.
  destruct (fst (get_output_path input_file INPUT_FOLDER OUTPUT_FOLDER height audio w0))
    as [output_path| |].
  - unfold bind at 1 in E.
    pose proof (makedirs_events (os.path.dirname output_path) true w1) as T.
    destruct (os.makedirs (os.path.dirname output_path) true w1) as [[[]| |] w2];
      cbn [snd] in T.
    + unfold bind, subprocess.run, ret, print in E.
      destruct (proc w2 (trace w2) (command input_file output_path)) as [rc out|k msg];
        subst R; cbn [snd fst log trace].
      * exists 4. split; [auto|]. split; [|reflexivity].
        rewrite T, T1. rewrite <- !app_assoc. reflexivity.
      * exists 3. split; [auto|]. split; [|discriminate].
        rewrite T, T1. rewrite <- !app_assoc. reflexivity.
    + subst R. cbn [snd fst]. exists 2. split; [auto|]. split; [|discriminate].
      rewrite T, T1. rewrite <- !app_assoc. reflexivity.
    + subst R. cbn [snd fst]. exists 2. split; [auto|]. split; [|discriminate].
      rewrite T, T1. rewrite <- !app_assoc. reflexivity.
  - subst R. cbn [snd fst]. exists 1. split; [auto|]. split; [exact T1 | discriminate].
  - subst R. cbn [snd fst]. exists 1. split; [auto|]. split; [exact T1 | discriminate].
Qed.

(** The loop over the files: an initial part of their events, all of
    them when it returns. *)
Lemma loop_schedule files : forall i w,
  same_setting w0 w ->
  same_setting w0 (snd (for_enumerate i files body w)) /\
  exists k,
    trace (snd (for_enumerate i files body w)) =
    trace w ++
    firstn k (job_events i total_files files (fun f => output_of w0 f height audio)
                command done) /\
    k <= length (job_events i total_files files (fun f => output_of w0 f height audio)
                   command done) /\
    (fst (for_enumerate i files body w) = Ret tt ->
     k = length (job_events i total_files files (fun f => output_of w0 f height audio)
                   command done)).
Proof.
  induction files as [|f files IH]; intros i w Hs; cbn [for_enumerate job_events].
  - split; [exact Hs|]. exists 0. cbn [ret snd fst firstn length].
    rewrite app_nil_r. auto.
  - destruct (body_step i f w Hs) as [Hs1 _].
    destruct (body_schedule i f w Hs) as [k1 [Hk1 [T1 R1]]].
    unfold bind. rewrite length_app.
    change (length (file_events (progress i total_files f)
                      (output_of w0 f height audio)
                      (command f (output_of w0 f height audio)) done)) with 4.
    destruct (body i f w) as [[[]| |] w1]; cbn [snd fst] in Hs1, T1, R1 |- *.
    + destruct (IH (S i) w1 Hs1) as [Hs2 [k2 [T2 [Hk2 R2]]]].
      split; [exact Hs2|]. exists (4 + k2).
      rewrite (R1 eq_refl) in T1. split; [|split].
      * rewrite T2, T1, <- app_assoc. reflexivity.
      * apply Nat.add_le_mono_l. assumption.
      * intros R. f_equal. auto.
    + split; [exact Hs1|]. exists k1. split; [|split].
      * rewrite T1. f_equal. rewrite firstn_app.
        replace (k1 - length (file_events (progress i total_files f)
                                (output_of w0 f height audio)
                                (command f (output_of w0 f height audio)) done))
          with 0 by (cbn [file_events length]; lia).
        cbn [firstn]. rewrite app_nil_r. reflexivity.
      * lia.
      * discriminate.
    + split; [exact Hs1|]. exists k1. split; [|split].
      * rewrite T1. f_equal. rewrite firstn_app.
        replace (k1 - length (file_events (progress i total_files f)
                                (output_of w0 f height audio)
                                (command f (output_of w0 f height audio)) done))
          with 0 by (cbn [file_events length]; lia).
        cbn [firstn]. rewrite app_nil_r. reflexivity.
      * lia.
      * discriminate.
Qed.

Lemma loop_scheduled files i w :
  same_setting w0 w ->
  scheduled w0
    (job_events i total_files files (fun f => output_of w0 f height audio) command done)
    (for_enumerate i files body) w.
Proof.
  intros Hs. destruct (loop_schedule files i w Hs) as [Hs1 [k [T [Hk R]]]].
  split; [exact Hs1|]. exists [], k. cbn [app]. auto.
Qed.

End Job.

Ltac encoding_side :=
  lazymatch goal with
  | |- not_encoding _ => first [reflexivity | vm_compute; reflexivity]
  | _ => idtac
  end.

Lemma convert_video_command input_path output_path target_height video_codec
    audio_codec ffmpeg_path :
  convert_video input_path output_path target_height video_codec audio_codec
    ffmpeg_path =
  (subprocess.run
     (convert_command ffmpeg_path input_path output_path target_height video_codec
        audio_codec);;
   ret tt)%monad.
Proof.
  unfold convert_video, convert_command.
  destruct (Py.eqb audio_codec (u8 "aac")); reflexivity.
Qed.

Lemma is_nvenc_available_returns ffmpeg_path w :
  exists nvenc, fst (is_nvenc_available ffmpeg_path w) = Ret nvenc.
Proof.
  unfold is_nvenc_available, try_except, bind, subprocess.run.
  destruct (proc w (trace w) [ffmpeg_path; u8 "-encoders"]) as [rc out|k msg].
  - eexists. reflexivity.
  - exists false. reflexivity.
Qed.

Lemma clear_output_folder_no_encoding : within not_encoding any_fs clear_output_folder.
Proof. within_prog; encoding_side. Qed.

Lemma clear_output_folder_setting w0 : keeps (same_setting w0) clear_output_folder.
Proof. setting_prog. Qed.

Lemma convert_loop_in_order w0 ffmpeg_path input_files target_height (nvenc : bool) :
  in_order w0 (convert_job_command w0 (ffmpeg_path, target_height, nvenc)) input_files
    (clear_output_folder;;
     print (u8 "動画の変換を開始します。");;
     for_enumerate 0 input_files (fun i input_file =>
       print_end (progress i (length input_files) input_file) [];;
       output_path <- get_output_path input_file INPUT_FOLDER OUTPUT_FOLDER
                        (Some target_height) false;;
       os.makedirs (os.path.dirname output_path) true;;
       convert_video input_file output_path target_height
         (if nvenc then u8 "h264_nvenc" else u8 "libx264") (u8 "aac") ffmpeg_path;;
       print (u8 "変換完了！")))%monad.
Proof.
  apply in_order_bind;
    [exact clear_output_folder_no_encoding | apply clear_output_folder_setting |].
  intros _. apply in_order_bind.
  { within_prog; encoding_side. }
  { setting_prog. }
  intros _.
  apply (job_loop w0
           (fun f out => convert_command ffmpeg_path f out target_height
                           (if nvenc then u8 "h264_nvenc" else u8 "libx264") (u8 "aac"))
           (Some target_height) false (u8 "変換完了！") (length input_files)).
  - intros f out. reflexivity.
  - intros i f. reflexivity.
Qed.

(** The resolution job from any world of the run: the height is the
    one the prompt returns, the codec the one the probe chooses. *)
Lemma convert_job_order w0 ffmpeg_path input_files w :
  same_setting w0 w ->
  exists target_height nvenc,
    files_in_order true w0
      (convert_job_command w0 (ffmpeg_path, target_height, nvenc)) input_files
      (process_convert_resolution ffmpeg_path input_files) w /\
    (forall h, fst (get_target_height w) = Ret h ->
       h = target_height /\
       fst (is_nvenc_available ffmpeg_path (snd (get_target_height w))) = Ret nvenc).
Proof.
  intros Hs.
  assert (Hq1 : leads not_encoding any_fs w (snd (get_target_height w))).
  { apply (within_weaken quiet not_encoding any_fs any_fs _ _ quiet_not_encoding
             (fun _ _ H => H)).
    apply get_target_height_quiet; [exact any_fs_refl | exact any_fs_trans]. }
  assert (Hs1 : same_setting w0 (snd (get_target_height w))).
  { apply setting_get_target_height. assumption. }
  destruct (fst (get_target_height w)) as [h| |] eqn:Eh.
  - destruct (is_nvenc_available_returns ffmpeg_path (snd (get_target_height w)))
      as [nvenc Hn].
    exists h, nvenc. split; [|intros h' Hh'; injection Hh' as <-; auto].
    unfold process_convert_resolution.
    apply files_in_order_step; [assumption..|].
    intros h' Hh'. rewrite Eh in Hh'. injection Hh' as <-.
    revert Hn Hs1. generalize (snd (get_target_height w)). clear Hq1.
    intros w1 Hn Hs1.
    assert (Hs2 : same_setting w0 (snd (is_nvenc_available ffmpeg_path w1))).
    { revert Hs1. generalize w1.
      change (keeps (same_setting w0) (is_nvenc_available ffmpeg_path)). setting_prog. }
    apply files_in_order_step; [|assumption|].
    { generalize w1.
      change (within not_encoding any_fs (is_nvenc_available ffmpeg_path)).
      within_prog; encoding_side. }
    intros b Hb. rewrite Hn in Hb. injection Hb as <-.
    revert Hs2. generalize (snd (is_nvenc_available ffmpeg_path w1)). intros w2 Hs2.
    destruct nvenc.
    + apply files_in_order_step.
      { match goal with
        | |- leads _ _ ?w (snd (?m ?w)) =>
          generalize w; change (within not_encoding any_fs m)
        end.
        within_prog; encoding_side. }
      { exact Hs2. }
      intros vc Hvc. change (Ret (u8 "h264_nvenc") = Ret vc) in Hvc.
      injection Hvc as <-.
      apply convert_loop_in_order. exact Hs2.
    + exact (convert_loop_in_order w0 ffmpeg_path input_files h false w2 Hs2).
  - exists 0%Z, false. split; [|discriminate].
    unfold process_convert_resolution.
    apply files_in_order_step; [assumption..|]. intros h' Hh'. congruence.
  - exists 0%Z, false. split; [|discriminate].
    unfold process_convert_resolution.
    apply files_in_order_step; [assumption..|]. intros h' Hh'. congruence.
Qed.

(** X1.  In every run in which the prompt returns the height [h],
    [process_convert_resolution] starts one encoding for each file of
    its list, in the order of the list, each with the height [h], the
    audio codec aac, the output path derived from the file in the
    starting directory, and the one video codec the probe of the
    encoder chose (h264_nvenc when it reports it, libx264 otherwise).
    It stops early only when it does not return normally. *)
Theorem process_convert_resolution_encodes_in_order :
  forall ffmpeg_path input_files w target_height,
    fst (get_target_height w) = Ret target_height ->
    exists nvenc n,
      fst (is_nvenc_available ffmpeg_path (snd (get_target_height w))) = Ret nvenc /\
      n <= length input_files /\
      encodings w (snd (process_convert_resolution ffmpeg_path input_files w)) =
      map (fun input_file =>
             Spawn (convert_command ffmpeg_path input_file
                      (output_of w input_file (Some target_height) false)
                      target_height
                      (if nvenc : bool then u8 "h264_nvenc" else u8 "libx264")
                      (u8 "aac")))
          (firstn n input_files) /\
      (fst (process_convert_resolution ffmpeg_path input_files w) = Ret tt ->
       n = length input_files).
Proof.
  intros p files w h Hh.
  destruct (convert_job_order w p files w (same_setting_refl w))
    as [h' [nvenc [Hq Hv]]].
  destruct (Hv h Hh) as [<- Hn]. exists nvenc.
  destruct (files_in_order_encodings _ _ _ _ _ Hq) as [n [Hle [He Hr]]].
  exists n. auto.
Qed.

(** X1 when the user types 480, the encoder is the system one and
    does not report h264_nvenc. *)
Lemma process_convert_resolution_encodes_in_order_witness :
  let w := typing [u8 "480"] in
  let files := [os.path.join INPUT_FOLDER (u8 "a.mp4");
                os.path.join INPUT_FOLDER (u8 "b.avi")] in
  exists nvenc n,
    fst (is_nvenc_available SYSTEM_FFMPEG_PATH (snd (get_target_height w))) = Ret nvenc /\
    n <= length files /\
    encodings w (snd (process_convert_resolution SYSTEM_FFMPEG_PATH files w)) =
    map (fun input_file =>
           Spawn (convert_command SYSTEM_FFMPEG_PATH input_file
                    (output_of w input_file (Some 480%Z) false)
                    480%Z
                    (if nvenc : bool then u8 "h264_nvenc" else u8 "libx264")
                    (u8 "aac")))
        (firstn n files) /\
    (fst (process_convert_resolution SYSTEM_FFMPEG_PATH files w) = Ret tt ->
     n = length files).
Proof.
  exact (process_convert_resolution_encodes_in_order SYSTEM_FFMPEG_PATH
           [os.path.join INPUT_FOLDER (u8 "a.mp4");
            os.path.join INPUT_FOLDER (u8 "b.avi")]
           (typing [u8 "480"]) 480%Z eq_refl).
Defined.

Lemma extract_loop_in_order w0 ffmpeg_path input_files :
  in_order w0 (extract_job_command w0 ffmpeg_path) input_files
    (print_;;
     clear_output_folder;;
     print (u8 "音声の抽出を開始します。");;
     for_enumerate 0 input_files (fun i input_file =>
       print_end (progress i (length input_files) input_file) [];;
       output_path <- get_output_path input_file INPUT_FOLDER OUTPUT_FOLDER None true;;
       os.makedirs (os.path.dirname output_path) true;;
       extract_audio input_file output_path (u8 "mp3") (u8 "192k") ffmpeg_path;;
       print (u8 "抽出完了！")))%monad.
Proof.
  apply in_order_bind.
  { within_prog; encoding_side. }
  { setting_prog. }
  intros _. apply in_order_bind;
    [exact clear_output_folder_no_encoding | apply clear_output_folder_setting |].
  intros _. apply in_order_bind.
  { within_prog; encoding_side. }
  { setting_prog. }
  intros _.
  apply (job_loop w0
           (fun f out => extract_command ffmpeg_path f out (u8 "mp3") (u8 "192k"))
           None true (u8 "抽出完了！") (length input_files)).
  - intros f out. reflexivity.
  - intros i f. reflexivity.
Qed.

(** The audio job from any world of the run; it is strict once the
    user has answered y. *)
Lemma extract_job_order w0 ffmpeg_path input_files w :
  same_setting w0 w ->
  files_in_order false w0 (extract_job_command w0 ffmpeg_path) input_files
    (process_extract_audio ffmpeg_path input_files) w /\
  (forall line rest, stdin w = line :: rest -> Py.lower (Py.strip line) = u8 "y" ->
     files_in_order true w0 (extract_job_command w0 ffmpeg_path) input_files
       (process_extract_audio ffmpeg_path input_files) w).
Proof.
  intros Hs0.
  assert (Hq : leads not_encoding any_fs w
                 (snd (input (u8 "音声抽出を開始しますか？ (y/n): ") w))).
  { apply within_input; [exact any_fs_refl | reflexivity]. }
  assert (Hs : same_setting w0 (snd (input (u8 "音声抽出を開始しますか？ (y/n): ") w))).
  { apply setting_input. assumption. }
  split.
  - unfold process_extract_audio.
    apply files_in_order_step; [assumption..|].
    intros line' Hl. cbv zeta.
    destruct (negb (Py.eqb (Py.lower (Py.strip line')) (u8 "y"))).
    + apply files_in_order_none; [|exact Hs|discriminate].
      apply leads_refl. exact any_fs_refl.
    + apply files_in_order_weaken. apply extract_loop_in_order. assumption.
  - intros line rest Hin Hyes. apply eqb_eq in Hyes.
    unfold process_extract_audio.
    apply files_in_order_step; [assumption..|].
    intros line' Hl.
    assert (El : line' = line).
    { unfold input in Hl. cbn [stdin log] in Hl. rewrite Hin in Hl.
      cbn [fst] in Hl. injection Hl as <-. reflexivity. }
    subst line'. rewrite Hyes. cbn [negb].
    apply extract_loop_in_order. assumption.
Qed.

(** X2.  Once the user has answered y, [process_extract_audio] starts
    one extraction for each file of its list, in the order of the
    list, each to mp3 at 192k and to the output path derived from the
    file in the starting directory.  It stops early only when it does
    not return normally. *)
Theorem process_extract_audio_encodes_in_order :
  forall ffmpeg_path input_files w line rest,
    stdin w = line :: rest ->
    Py.lower (Py.strip line) = u8 "y" ->
    exists n,
      n <= length input_files /\
      encodings w (snd (process_extract_audio ffmpeg_path input_files w)) =
      map (fun input_file =>
             Spawn (extract_command ffmpeg_path input_file
                      (output_of w input_file None true) (u8 "mp3") (u8 "192k")))
          (firstn n input_files) /\
      (fst (process_extract_audio ffmpeg_path input_files w) = Ret tt ->
       n = length input_files).
Proof.
  intros p files w line rest Hin Hyes.
  destruct (extract_job_order w p files w (same_setting_refl w)) as [_ H].
  destruct (files_in_order_encodings _ _ _ _ _ (H line rest Hin Hyes))
    as [n [Hle [He Hr]]].
  exists n. auto.
Qed.

(** X2 when the user answers Y at the prompt. *)
Lemma process_extract_audio_encodes_in_order_witness :
  let w := typing [u8 "Y"] in
  let files := [os.path.join INPUT_FOLDER (u8 "a.mp4");
                os.path.join INPUT_FOLDER (u8 "b.avi")] in
  exists n,
    n <= length files /\
    encodings w (snd (process_extract_audio SYSTEM_FFMPEG_PATH files w)) =
    map (fun input_file =>
           Spawn (extract_command SYSTEM_FFMPEG_PATH input_file
                    (output_of w input_file None true) (u8 "mp3") (u8 "192k")))
        (firstn n files) /\
    (fst (process_extract_audio SYSTEM_FFMPEG_PATH files w) = Ret tt ->
     n = length files).
Proof.
  apply (process_extract_audio_encodes_in_order SYSTEM_FFMPEG_PATH
           [os.path.join INPUT_FOLDER (u8 "a.mp4");
            os.path.join INPUT_FOLDER (u8 "b.avi")]
           (typing [u8 "Y"]) (u8 "Y") []).
  - reflexivity.
  - vm_compute. reflexivity.
Defined.

(* ================================================================= *)
(** ** The encodings of a whole run *)

Lemma keeps_same_input w0 A (m : M A) :
  within any_event eq m -> keeps (same_setting w0) m -> keeps (same_input w0) m.
Proof.
  intros Hw Hk w [Hs Hf]. split; [apply Hk; assumption|].
  destruct (Hw w) as [_ E]. rewrite <- E. assumption.
Qed.

Lemma found_in_missing f : os.lookup f INPUT_FOLDER = None -> found_in f = [].
Proof.
  intros E. unfold found_in. rewrite (resolve_valid _ _ INPUT_FOLDER_valid), E.
  reflexivity.
Qed.

Lemma same_input_makedirs_input w0 : keeps (same_input w0) (os.makedirs INPUT_FOLDER true).
Proof.
  intros w [Hs Hf]. rewrite (makedirs_valid _ true w INPUT_FOLDER_valid).
  destruct (os.lookup (fs w) INPUT_FOLDER) as [[|es]|] eqn:E; cbn [snd];
    split; try exact Hs; try exact Hf.
  unfold evolve. cbn [fs]. rewrite (found_in_new_input _ E), <- Hf.
  symmetry. apply found_in_missing. exact E.
Qed.

Lemma same_input_makedirs_output w0 : keeps (same_input w0) (os.makedirs OUTPUT_FOLDER true).
Proof.
  intros w [Hs Hf]. rewrite (makedirs_valid _ true w OUTPUT_FOLDER_valid).
  destruct (os.lookup (fs w) OUTPUT_FOLDER) as [[|es]|] eqn:E; cbn [snd];
    split; try exact Hs; try exact Hf.
  unfold evolve. cbn [fs]. rewrite found_in_new_output. exact Hf.
Qed.

Lemma some_order_step strict w0 C (chosen : C -> Prop) cmd files A (m : M A)
    (k : A -> M unit) w (c0 : C) :
  chosen c0 ->
  within not_encoding any_fs m -> keeps (same_input w0) m -> same_input w0 w ->
  (forall a w1, fst (m w) = Ret a -> same_input w0 w1 ->
     some_order strict w0 chosen cmd files (k a) w1) ->
  some_order strict w0 chosen cmd files (bind m k) w.
Proof.
  intros H0 Hw Hk HJ Hc. specialize (Hw w). specialize (Hk w HJ).
  destruct (fst (m w)) as [a| |] eqn:E.
  - destruct (Hc a (snd (m w)) eq_refl Hk) as [c [Hch Ho]].
    exists c. split; [assumption|].
    apply files_in_order_step; [assumption | apply Hk |].
    intros a' E'. rewrite E in E'. injection E' as <-. assumption.
  - exists c0. split; [assumption|].
    apply files_in_order_step; [assumption | apply Hk |].
    intros a' E'. congruence.
  - exists c0. split; [assumption|].
    apply files_in_order_step; [assumption | apply Hk |].
    intros a' E'. congruence.
Qed.

Lemma bind_value A B (m : M A) (k : A -> M B) w b (Q : Prop) :
  fst (bind m k w) = Ret b -> (forall a w1, fst (k a w1) = Ret b -> Q) -> Q.
Proof.
  unfold bind. destruct (m w) as [[a| |] w1]; cbn [fst]; intros H HQ;
    [eapply HQ; eassumption | discriminate..].
Qed.

Lemma find_ffmpeg_is_ffmpeg w p : fst (find_ffmpeg w) = Ret (Some p) -> is_ffmpeg p.
Proof.
  rewrite find_ffmpeg_cases.
  destruct (os.resolve (fs w) BIN_FFMPEG_PATH) as [[|es]|];
    try (intros H; injection H as <-; left; reflexivity);
    (destruct (proc w (trace w) [SYSTEM_FFMPEG_PATH; u8 "-version"]) as [rc out|k msg];
     [destruct (rc =? 0)%Z|]; intros H; try discriminate;
     injection H as <-; right; reflexivity).
Qed.

Ltac start_step c0 H0 :=
  apply (some_order_step _ _ _ _ _ _ _ _ _ _ c0 H0);
  [ within_prog; encoding_side
  | apply keeps_same_input; [within_prog; try exact I | setting_prog]
  | assumption
  | ].

(** Writing events one after the other. *)
Lemma logs_evolve evs : forall w,
  fold_left (fun w e => log e w) evs w = evolve w (fs w) evs.
Proof.
  induction evs as [|e evs IH]; intros w; cbn [fold_left].
  - destruct w. unfold evolve. cbn [cli_mode cwd fs stdin trace proc].
    rewrite app_nil_r. reflexivity.
  - rewrite IH. unfold evolve, log. cbn [cli_mode cwd fs stdin trace proc].
    rewrite <- app_assoc. reflexivity.
Qed.

(** [main] as what it does from the call of [find_ffmpeg] on. *)
Ltac past_header :=
  unfold at_find_ffmpeg; rewrite <- logs_evolve; unfold header_events;
  cbv beta iota zeta delta [fold_left];
  unfold main; unfold bind at 1; unfold parse_argument at 1;
  cbv beta iota zeta;
  unfold print_; do 8 (rewrite bind_print; cbv beta);
  reflexivity.

Lemma header_not_encoding mode : Forall not_encoding (header_events mode).
Proof. unfold header_events. repeat constructor. Qed.

Lemma encodings_none w w' : leads not_encoding any_fs w w' -> encodings w w' = [].
Proof.
  intros L. destruct (leads_new_events _ _ _ _ L) as [_ H].
  apply filter_not_encoding. assumption.
Qed.

Lemma some_order_from strict w0 C (chosen : C -> Prop) cmd files (m m' : M unit)
    w w' pre :
  m w = m' w' -> trace w' = trace w ++ pre -> Forall not_encoding pre ->
  some_order strict w0 chosen cmd files m' w' ->
  some_order strict w0 chosen cmd files m w.
Proof.
  intros E T Hpre [c [Hc [Hs [evs [n [T' [Hn [Hf Hr]]]]]]]].
  exists c. split; [assumption|]. unfold files_in_order. rewrite E.
  split; [assumption|]. exists (pre ++ evs), n.
  rewrite T', T, <- app_assoc, filter_app, (filter_not_encoding _ Hpre). auto.
Qed.

(** The run up to the job: a job that goes through the files it is
    given, with the encoder [find_ffmpeg] has returned, makes [main]
    go through the files found at the start. *)
Lemma main_some_order strict w C (chosen : C -> Prop) cmd (c0 : C) :
  chosen c0 ->
  (forall p w1,
     fst (find_ffmpeg (at_find_ffmpeg w)) = Ret (Some p) -> same_setting w w1 ->
     some_order strict w chosen cmd (found_in (fs w))
       (match cli_mode w with
        | convert => process_convert_resolution p (found_in (fs w))
        | extract => process_extract_audio p (found_in (fs w))
        end) w1) ->
  some_order strict w chosen cmd (found_in (fs w)) main w.
Proof.
  intros H0 Hjob.
  eapply some_order_from
    with (w' := at_find_ffmpeg w) (pre := header_events (cli_mode w)).
  { past_header. }
  { reflexivity. }
  { apply header_not_encoding. }
  assert (J : same_input w (at_find_ffmpeg w))
    by (split; [repeat split | reflexivity]).
  start_step c0 H0. intros found w10 Hfound J10.
  destruct found as [p|].
  - start_step c0 H0. intros p' w11 Hp J11.
    assert (Ep : p' = p).
    { apply (bind_value _ _ _ _ _ _ _ Hp). intros _ wa Hp1.
      apply (bind_value _ _ _ _ _ _ _ Hp1). intros version wb Hp2.
      apply (bind_value _ _ _ _ _ _ _ Hp2). intros _ wc Hp3.
      apply (bind_value _ _ _ _ _ _ _ Hp3). intros _ wd Hp4.
      cbn [ret fst] in Hp4. injection Hp4 as <-. reflexivity. }
    subst p'.
    apply (some_order_step _ _ _ _ _ _ _ _ _ _ c0 H0);
      [apply within_makedirs; reflexivity | apply same_input_makedirs_input
       | assumption |].
    intros _ w12 _ J12.
    apply (some_order_step _ _ _ _ _ _ _ _ _ _ c0 H0);
      [apply within_makedirs; reflexivity | apply same_input_makedirs_output
       | assumption |].
    intros _ w13 _ J13.
    start_step c0 H0. intros files w14 Hfiles J14.
    rewrite get_input_files_found in Hfiles. cbn [fst] in Hfiles.
    injection Hfiles as <-. rewrite (proj2 J13).
    destruct (Nat.eqb (length (found_in (fs w))) 0) eqn:E0.
    + exists c0. split; [assumption|].
      apply files_in_order_none.
      * apply within_print; [exact any_fs_refl | reflexivity].
      * exact (proj1 J14).
      * intros _ _. apply Nat.eqb_eq. assumption.
    + apply Hjob; [exact Hfound | exact (proj1 J14)].
  - start_step c0 H0. intros a w11 Ha J11.
    change (Raise (SystemExit 1) = Ret a) in Ha. discriminate.
Qed.

(** When [find_ffmpeg] returns no path, the run ends without any
    encoding. *)
Lemma main_without_path w :
  (forall p, fst (find_ffmpeg (at_find_ffmpeg w)) <> Ret (Some p)) ->
  encodings w (snd (main w)) = [] /\ fst (main w) <> Ret tt.
Proof.
  intros Hno.
  assert (L0 : leads not_encoding any_fs w (at_find_ffmpeg w)).
  { split; [|exact I]. exists (header_events (cli_mode w)).
    split; [reflexivity | apply header_not_encoding]. }
  assert (L1 : leads not_encoding any_fs (at_find_ffmpeg w)
                 (snd (find_ffmpeg (at_find_ffmpeg w)))).
  { generalize (at_find_ffmpeg w).
    change (within not_encoding any_fs find_ffmpeg). within_prog; encoding_side. }
  pose proof (leads_trans _ _ any_fs_trans _ _ _ L0 L1) as L. clear L0 L1.
  evar (m' : M unit).
  assert (Em : main w = m' (at_find_ffmpeg w)) by (subst m'; past_header).
  subst m'. rewrite Em. clear Em.
  match goal with |- context [fst ?t] => remember t as R eqn:ER end.
  unfold bind at 1 in ER.
  destruct (find_ffmpeg (at_find_ffmpeg w)) as [[[p|]| |] w9];
    cbn [fst snd] in Hno, L.
  - exfalso. apply (Hno p). reflexivity.
  - cbv beta iota in ER. unfold bind at 1 in ER. rewrite bind_print in ER.
    unfold sys.exit at 1 in ER. subst R. cbn [fst snd]. split; [|discriminate].
    apply encodings_none.
    eapply leads_trans; [exact any_fs_trans | exact L |].
    apply leads_log; [exact any_fs_refl | reflexivity].
  - subst R. cbn [fst snd]. split; [|discriminate]. apply encodings_none. exact L.
  - subst R. cbn [fst snd]. split; [|discriminate]. apply encodings_none. exact L.
Qed.

(** The events of a run start with the header, and go on with those
    of the call of [find_ffmpeg]. *)
Lemma main_starts_with_the_header w :
  exists rest,
    new_events w (snd (main w)) =
    header_events (cli_mode w)
    ++ new_events (at_find_ffmpeg w) (snd (find_ffmpeg (at_find_ffmpeg w)))
    ++ rest.
Proof.
  assert (L1 : leads any_event any_fs (at_find_ffmpeg w)
                 (snd (find_ffmpeg (at_find_ffmpeg w)))).
  { generalize (at_find_ffmpeg w).
    change (within any_event any_fs find_ffmpeg). within_prog; exact I. }
  destruct (leads_new_events _ _ _ _ L1) as [T1 _]. clear L1.
  evar (m' : M unit).
  assert (Em : main w = m' (at_find_ffmpeg w)) by (subst m'; past_header).
  subst m'. rewrite Em. clear Em.
  assert (T0 : trace (at_find_ffmpeg w) = trace w ++ header_events (cli_mode w))
    by reflexivity.
  revert T0 T1. generalize (at_find_ffmpeg w). intros cw T0 T1.
  unfold bind at 1.
  destruct (find_ffmpeg cw) as [[found| |] w9]; cbn [fst snd] in T1 |- *.
  - match goal with
    | |- context [snd (?k w9)] =>
      assert (L : leads any_event any_fs w9 (snd (k w9)))
    end.
    { generalize w9.
      match goal with
      | |- forall w, leads ?P ?F w (snd (?m w)) => change (within P F m)
      end.
      unfold process_convert_resolution, process_extract_audio.
      repeat
        (cbv beta;
         lazymatch goal with
         | |- within _ _ get_target_height =>
           apply (within_weaken quiet any_event any_fs any_fs _ _
                    (fun _ _ => I) (fun _ _ H => H));
           apply get_target_height_quiet; [exact any_fs_refl | exact any_fs_trans]
         | |- within _ _ (bind _ _) =>
           apply within_bind; [exact any_fs_trans | | intros]
         | |- within _ _ (if ?b then _ else _) => destruct b
         | |- within _ _ (match ?x with _ => _ end) => destruct x
         | |- within _ _ _ => progress (within_prog; try exact I)
         end). }
    destruct (leads_new_events _ _ _ _ L) as [T2 _].
    match type of L with
    | leads _ _ _ ?w' => exists (new_events w9 w')
    end.
    unfold new_events at 1. rewrite T2, T1, T0, <- !app_assoc.
    apply skipn_new_events.
  - exists []. unfold new_events at 1. rewrite T1, T0, <- !app_assoc, app_nil_r.
    apply skipn_new_events.
  - exists []. unfold new_events at 1. rewrite T1, T0, <- !app_assoc, app_nil_r.
    apply skipn_new_events.
Qed.

(** X3.  The encodings of a run of [main] are those of the input
    files that [get_input_files] finds at the start, in the order in
    which it finds them, each at most once, and all with the encoder
    that [find_ffmpeg] has returned: the events of the run start with
    the header and the call of [find_ffmpeg]; when that call returns
    a path, every encoding runs that path, and when it returns none
    (or raises) there is no encoding.  In the resolution mode the
    encodings share one height and one video codec, and a run that
    returns normally has encoded every file found; in the audio mode
    they are extractions to mp3. *)
Theorem main_encodes_the_files_found : forall w,
  exists input_files ffmpeg_path n,
    get_input_files w = (Ret input_files, w) /\
    (ffmpeg_path = BIN_FFMPEG_PATH \/ ffmpeg_path = SYSTEM_FFMPEG_PATH) /\
    (exists rest,
       new_events w (snd (main w)) =
       header_events (cli_mode w)
       ++ new_events (at_find_ffmpeg w) (snd (find_ffmpeg (at_find_ffmpeg w)))
       ++ rest) /\
    match fst (find_ffmpeg (at_find_ffmpeg w)) with
    | Ret (Some p) => ffmpeg_path = p
    | _ => n = 0
    end /\
    n <= length input_files /\
    match cli_mode w with
    | convert =>
      exists target_height (nvenc : bool),
        encodings w (snd (main w)) =
        map (fun input_file =>
               Spawn (convert_command ffmpeg_path input_file
                        (output_of w input_file (Some target_height) false)
                        target_height
                        (if nvenc then u8 "h264_nvenc" else u8 "libx264")
                        (u8 "aac")))
            (firstn n input_files) /\
        (fst (main w) = Ret tt -> n = length input_files)
    | extract =>
      encodings w (snd (main w)) =
      map (fun input_file =>
             Spawn (extract_command ffmpeg_path input_file
                      (output_of w input_file None true) (u8 "mp3") (u8 "192k")))
          (firstn n input_files)
    end.
Proof.
  intros w. exists (found_in (fs w)).
  pose proof (main_starts_with_the_header w) as Hh.
  destruct (fst (find_ffmpeg (at_find_ffmpeg w))) as [[p|]| |] eqn:Ef.
  - pose proof (find_ffmpeg_is_ffmpeg _ _ Ef) as Hp.
    destruct (cli_mode w) eqn:Emode.
    + destruct (main_some_order true w (str * Z * bool)
                  (fun c => fst (fst c) = p) (convert_job_command w)
                  (p, 0%Z, false) eq_refl)
        as [[[p' h] nvenc] [Ep Ho]].
      { intros p' w1 Hp' Hs. rewrite Emode.
        rewrite Ef in Hp'. injection Hp' as <-.
        destruct (convert_job_order w p (found_in (fs w)) w1 Hs) as [h [nvenc [Ho _]]].
        exists (p, h, nvenc). split; [reflexivity | assumption]. }
      cbn [fst] in Ep. subst p'.
      destruct (files_in_order_encodings _ _ _ _ _ Ho) as [n [Hle [He Hr]]].
      exists p, n. repeat split; try assumption.
      exists h, nvenc. split; [exact He | auto].
    + destruct (main_some_order false w str (fun c => c = p) (extract_job_command w)
                  p eq_refl)
        as [p' [Ep Ho]].
      { intros p' w1 Hp' Hs. rewrite Emode.
        rewrite Ef in Hp'. injection Hp' as <-.
        destruct (extract_job_order w p (found_in (fs w)) w1 Hs) as [Ho _].
        exists p. split; [reflexivity | assumption]. }
      subst p'.
      destruct (files_in_order_encodings _ _ _ _ _ Ho) as [n [Hle [He Hr]]].
      exists p, n. repeat split; assumption.
  - destruct (main_without_path w) as [He Hr].
    { intros p. rewrite Ef. discriminate. }
    exists BIN_FFMPEG_PATH, 0.
    repeat split; auto with arith.
    destruct (cli_mode w); [|exact He].
    exists 0%Z, false. split; [exact He | intros R; contradiction].
  - destruct (main_without_path w) as [He Hr].
    { intros p. rewrite Ef. discriminate. }
    exists BIN_FFMPEG_PATH, 0.
    repeat split; auto with arith.
    destruct (cli_mode w); [|exact He].
    exists 0%Z, false. split; [exact He | intros R; contradiction].
  - destruct (main_without_path w) as [He Hr].
    { intros p. rewrite Ef. discriminate. }
    exists BIN_FFMPEG_PATH, 0.
    repeat split; auto with arith.
    destruct (cli_mode w); [|exact He].
    exists 0%Z, false. split; [exact He | intros R; contradiction].
Qed.

(* ================================================================= *)
(** ** The output paths of the files found *)

Lemma rfind_negative s c : (Py.rfind s c < 0)%Z -> ~ In c s.
Proof.
  induction s as [|x s IH]; cbn [Py.rfind In]; intros H; [tauto|].
  destruct (0 <=? Py.rfind s c)%Z eqn:E.
  - apply Z.leb_le in E. lia.
  - apply Z.leb_gt in E. destruct (N.eqb_spec x c) as [Ex|Ex]; [lia|].
    intros [F|F]; [congruence | exact (IH E F)].
Qed.

(** From the last [c] on, there is no other [c]. *)
Lemma rfind_from s c :
  (0 <= Py.rfind s c)%Z ->
  exists e, Py.from s (Py.rfind s c) = c :: e /\ ~ In c e.
Proof.
  induction s as [|x s IH]; cbn [Py.rfind]; intros H; [lia|].
  destruct (0 <=? Py.rfind s c)%Z eqn:E.
  - apply Z.leb_le in E. destruct (IH E) as [e [He Hn]]. exists e. split; [|assumption].
    unfold Py.from in *. rewrite Z2Nat.inj_add by lia.
    replace (Z.to_nat (Py.rfind s c) + Z.to_nat 1) with (S (Z.to_nat (Py.rfind s c)))
      by lia.
    exact He.
  - apply Z.leb_gt in E. destruct (N.eqb_spec x c) as [Ex|Ex]; [|lia].
    exists s. subst x. split; [reflexivity | apply rfind_negative; assumption].
Qed.

(** An extension is empty, or a dot and then no other dot. *)
Lemma splitext_extension p :
  snd (os.path.splitext p) = [] \/
  exists e, snd (os.path.splitext p) = os.extsep :: e /\ ~ In os.extsep e.
Proof.
  unfold os.path.splitext.
  destruct ((Py.rfind p os.sep <? Py.rfind p os.extsep)%Z
            && negb (forallb (N.eqb os.extsep)
                       (Py.slice p (Py.rfind p os.sep + 1) (Py.rfind p os.extsep))))
    eqn:E; [|left; reflexivity].
  right. cbn [snd]. apply rfind_from.
  apply andb_true_iff in E. destruct E as [E _]. apply Z.ltb_lt in E.
  pose proof (rfind_bounds p os.sep). lia.
Qed.

Lemma supported_extension file :
  supported file = true ->
  exists e, snd (os.path.splitext file) = os.extsep :: e /\ ~ In os.extsep e.
Proof.
  intros H. destruct (splitext_extension file) as [E | E]; [|assumption].
  unfold supported in H. rewrite E in H. vm_compute in H. discriminate.
Qed.

(** Where the last [c] is decides both sides of it. *)
Lemma last_occurrence (c : Py.char) : forall (e1 e2 a1 a2 : str),
  ~ In c e1 -> ~ In c e2 ->
  a1 ++ c :: e1 = a2 ++ c :: e2 -> a1 = a2 /\ e1 = e2.
Proof.
  intros e1 e2 a1. revert e1 e2.
  induction a1 as [|x a1 IH]; intros e1 e2 a2 H1 H2 E; destruct a2 as [|y a2];
    cbn [app] in E.
  - injection E as E. auto.
  - injection E as Ec E. exfalso. apply H1. rewrite E. apply in_or_app.
    right. left. reflexivity.
  - injection E as Ec E. exfalso. apply H2. rewrite <- E. apply in_or_app.
    right. left. reflexivity.
  - injection E as Ex E. destruct (IH e1 e2 a2 H1 H2 E) as [Ea Ee].
    subst. auto.
Qed.

Lemma uint_digits d a :
  In a (String.list_ascii_of_string (DecimalString.NilEmpty.string_of_uint d)) ->
  (48 <= Ascii.N_of_ascii a <= 57)%N.
Proof.
  induction d as [|d IH|d IH|d IH|d IH|d IH|d IH|d IH|d IH|d IH|d IH];
    cbn [DecimalString.NilEmpty.string_of_uint String.list_ascii_of_string In];
    intros H; [tauto|..];
    (destruct H as [<-|H]; [vm_compute; split; discriminate | exact (IH H)]).
Qed.

(** [str(n)] is made of digits and the sign. *)
Lemma str_of_int_chars n c :
  In c (Py.str_of_int n) -> c = 45%N \/ (48 <= c <= 57)%N.
Proof.
  unfold Py.str_of_int. intros H. apply in_map_iff in H. destruct H as [a [<- H]].
  destruct (Z.to_int n) as [d|d];
    cbn [DecimalString.NilEmpty.string_of_int String.list_ascii_of_string In] in H.
  - right. apply (uint_digits d). assumption.
  - destruct H as [<-|H]; [left; reflexivity | right; apply (uint_digits d); assumption].
Qed.

Lemma stem_no_sep file : ~ In os.sep file -> ~ In os.sep (fst (os.path.splitext file)).
Proof.
  intros H F. apply H. rewrite <- (splitext_parts file). apply in_or_app. auto.
Qed.

Lemma extension_no_sep file : ~ In os.sep file -> ~ In os.sep (snd (os.path.splitext file)).
Proof.
  intros H F. apply H. rewrite <- (splitext_parts file). apply in_or_app. auto.
Qed.

(** The name of an output file is the name of an entry. *)
Lemma output_name_valid file tail c :
  valid_name file = true -> ~ In os.sep tail -> In c tail -> c <> os.extsep ->
  valid_name (fst (os.path.splitext file) ++ tail) = true.
Proof.
  intros Hv Hs Hc Hd. apply valid_name_facts in Hv. destruct Hv as [_ [Hf _]].
  assert (Hin : In c (fst (os.path.splitext file) ++ tail))
    by (apply in_or_app; auto).
  apply valid_name_facts. repeat split.
  - intros E. rewrite E in Hin. destruct Hin.
  - intros F. apply in_app_or in F. destruct F as [F|F]; [|auto].
    exact (stem_no_sep file Hf F).
  - intros E. rewrite E in Hin. destruct Hin as [Hin|[]]. apply Hd. symmetry. exact Hin.
  - intros E. rewrite E in Hin. destruct Hin as [Hin|[Hin|[]]]; apply Hd; symmetry;
      exact Hin.
Qed.

Lemma convert_tail_no_sep file h :
  ~ In os.sep file ->
  ~ In os.sep (u8 "_" ++ Py.format (Some h) ++ u8 "p" ++ snd (os.path.splitext file)).
Proof.
  intros Hf F. change (u8 "_") with [95%N] in F. change (u8 "p") with [112%N] in F.
  cbn [app In Py.format] in F. destruct F as [F|F]; [discriminate|].
  apply in_app_or in F. destruct F as [F|F].
  - apply str_of_int_chars in F. unfold os.sep in F. destruct F as [F|F]; [discriminate|lia].
  - cbn [app In] in F. destruct F as [F|F]; [discriminate|].
    exact (extension_no_sep file Hf F).
Qed.

Lemma marked_name (stem mark e : str) (c : Py.char) :
  stem ++ 95%N :: mark ++ 112%N :: c :: e = (stem ++ 95%N :: mark ++ [112%N]) ++ c :: e.
Proof.
  rewrite <- app_assoc. cbn [app]. f_equal. f_equal. rewrite <- app_assoc. reflexivity.
Qed.

(** The files [get_input_files] finds in a well-formed tree, as the
    names that lead to them. *)
Lemma found_file_names w root input_files p :
  get_input_files w = (Ret input_files, w) ->
  os.resolve (fs w) INPUT_FOLDER = Some root -> well_formed root = true ->
  In p input_files ->
  exists dirs file,
    file_at root (dirs ++ [file]) /\ supported file = true /\
    forallb valid_name (dirs ++ [file]) = true /\
    p = os.path.join_all INPUT_FOLDER (dirs ++ [file]).
Proof.
  intros Hg Hr W Hin. rewrite get_input_files_found in Hg. injection Hg as <-.
  rewrite found_in_collect, Hr, collect_walk in Hin.
  apply in_map_iff in Hin. destruct Hin as [segs [<- Hs]].
  destruct (positions_valid root segs W Hs) as [Hv Hne].
  destruct (exists_last Hne) as [dirs [file ->]].
  apply positions_file_at in Hs. destruct Hs as [Hf Hsup]. rewrite last_last in Hsup.
  exists dirs, file. auto.
Qed.

Lemma output_of_names w (dirs : list str) file (height : option Z) (audio : bool) tail :
  os.path.isabs (cwd w) = true ->
  forallb valid_name (dirs ++ [file]) = true ->
  (if audio then u8 ".mp3"
   else u8 "_" ++ Py.format height ++ u8 "p" ++ snd (os.path.splitext file)) = tail ->
  get_output_path (os.path.join_all INPUT_FOLDER (dirs ++ [file]))
    INPUT_FOLDER OUTPUT_FOLDER height audio w =
  (Ret (os.path.join_all OUTPUT_FOLDER (dirs ++ [fst (os.path.splitext file) ++ tail])),
   w).
Proof.
  intros Hcwd Hv Ht.
  assert (Hne : dirs ++ [file] <> []) by (destruct dirs; discriminate).
  apply output_path_of_name; try assumption.
  - apply join_all_not_nil; assumption.
  - apply join_all_below; assumption.
  - subst tail. destruct audio; eexists; eexists; (split; [reflexivity | discriminate]).
Qed.

(** X4.  In a well-formed input tree and an absolute working
    directory, every file that [get_input_files] finds has an output
    path: [get_output_path] returns, for the file reached through the
    directories [dirs], the path through the same directories below
    the output folder, with the height mark before the extension in
    the resolution mode and the extension mp3 in the audio mode. *)
Theorem found_files_have_mirrored_outputs :
  forall w root input_files p target_height any_height,
    os.path.isabs (cwd w) = true ->
    get_input_files w = (Ret input_files, w) ->
    os.resolve (fs w) INPUT_FOLDER = Some root -> well_formed root = true ->
    In p input_files ->
    exists dirs file,
      file_at root (dirs ++ [file]) /\
      p = os.path.join_all INPUT_FOLDER (dirs ++ [file]) /\
      get_output_path p INPUT_FOLDER OUTPUT_FOLDER (Some target_height) false w =
      (Ret (os.path.join_all OUTPUT_FOLDER
              (dirs ++ [fst (os.path.splitext file) ++ u8 "_"
                          ++ Py.str_of_int target_height ++ u8 "p"
                          ++ snd (os.path.splitext file)])), w) /\
      get_output_path p INPUT_FOLDER OUTPUT_FOLDER any_height true w =
      (Ret (os.path.join_all OUTPUT_FOLDER
              (dirs ++ [fst (os.path.splitext file) ++ u8 ".mp3"])), w).
Proof.
  intros w root files p h h' Hcwd Hg Hr W Hin.
  destruct (found_file_names w root files p Hg Hr W Hin)
    as [dirs [file [Hf [_ [Hv ->]]]]].
  exists dirs, file. repeat split; try assumption.
  - apply (output_of_names w dirs file (Some h) false); auto.
  - apply (output_of_names w dirs file h' true); auto.
Qed.

(** X4 in a tree with a clip in a subfolder. *)
Lemma found_files_have_mirrored_outputs_witness :
  let w := holding [(INPUT_FOLDER, Dir [(u8 "a", Dir [(u8 "c.MP4", File)])])] in
  exists dirs file,
    file_at (Dir [(u8 "a", Dir [(u8 "c.MP4", File)])]) (dirs ++ [file]) /\
    u8 "01.入力/a/c.MP4" = os.path.join_all INPUT_FOLDER (dirs ++ [file]) /\
    get_output_path (u8 "01.入力/a/c.MP4") INPUT_FOLDER OUTPUT_FOLDER (Some 480%Z) false w =
    (Ret (os.path.join_all OUTPUT_FOLDER
            (dirs ++ [fst (os.path.splitext file) ++ u8 "_"
                        ++ Py.str_of_int 480 ++ u8 "p"
                        ++ snd (os.path.splitext file)])), w) /\
    get_output_path (u8 "01.入力/a/c.MP4") INPUT_FOLDER OUTPUT_FOLDER None true w =
    (Ret (os.path.join_all OUTPUT_FOLDER
            (dirs ++ [fst (os.path.splitext file) ++ u8 ".mp3"])), w).
Proof.
  apply (found_files_have_mirrored_outputs
           (holding [(INPUT_FOLDER, Dir [(u8 "a", Dir [(u8 "c.MP4", File)])])])
           (Dir [(u8 "a", Dir [(u8 "c.MP4", File)])])
           [u8 "01.入力/a/c.MP4"] (u8 "01.入力/a/c.MP4") 480%Z None).
  - vm_compute. reflexivity.
  - vm_compute. reflexivity.
  - vm_compute. reflexivity.
  - vm_compute. reflexivity.
  - left. reflexivity.
Defined.

(** X5.  In the resolution mode no two files found share an output
    path: in a well-formed input tree and an absolute working
    directory, the output paths that [get_output_path] derives for
    two different files that [get_input_files] finds are different,
    so that no conversion writes over the result of another. *)
Theorem convert_outputs_are_distinct :
  forall w root input_files p1 p2 target_height,
    os.path.isabs (cwd w) = true ->
    get_input_files w = (Ret input_files, w) ->
    os.resolve (fs w) INPUT_FOLDER = Some root -> well_formed root = true ->
    In p1 input_files -> In p2 input_files ->
    p1 <> p2 ->
    Py.eqb (output_of w p1 (Some target_height) false)
           (output_of w p2 (Some target_height) false) = false.
Proof.
  intros w root files p1 p2 h Hcwd Hg Hr W H1 H2 Hne.
  apply eqb_neq. intros E. apply Hne. clear Hne. unfold output_of in E.
  destruct (found_file_names w root files p1 Hg Hr W H1)
    as [d1 [f1 [_ [S1 [V1 ->]]]]].
  destruct (found_file_names w root files p2 Hg Hr W H2)
    as [d2 [f2 [_ [S2 [V2 ->]]]]].
  rewrite (output_of_names w d1 f1 (Some h) false _ Hcwd V1 eq_refl) in E.
  rewrite (output_of_names w d2 f2 (Some h) false _ Hcwd V2 eq_refl) in E.
  cbn [fst] in E.
  pose proof V1 as V1'. pose proof V2 as V2'.
  rewrite forallb_snoc in V1', V2'.
  apply andb_true_iff in V1', V2'. destruct V1' as [D1 F1]. destruct V2' as [D2 F2].
  pose proof (proj1 (valid_name_facts f1) F1) as [_ [N1 _]].
  pose proof (proj1 (valid_name_facts f2) F2) as [_ [N2 _]].
  apply join_all_injective in E.
  - apply app_inj_tail in E. destruct E as [Ed En]. subst d2.
    destruct (supported_extension f1 S1) as [e1 [X1 Y1]].
    destruct (supported_extension f2 S2) as [e2 [X2 Y2]].
    rewrite X1, X2 in En. cbn [Py.format] in En.
    change (u8 "_") with [95%N] in En. change (u8 "p") with [112%N] in En.
    cbn [app] in En. rewrite !marked_name in En.
    apply last_occurrence in En; [|assumption..].
    destruct En as [Ea Ee]. apply app_inv_tail in Ea.
    assert (Ef : f1 = f2).
    { rewrite <- (splitext_parts f1), <- (splitext_parts f2), X1, X2, Ea, Ee.
      reflexivity. }
    subst f2. reflexivity.
  - destruct d1; discriminate.
  - destruct d2; discriminate.
  - rewrite forallb_snoc. apply andb_true_iff. split; [exact D1|].
    apply (output_name_valid f1 _ 95%N F1 (convert_tail_no_sep f1 h N1)).
    + left. reflexivity.
    + discriminate.
  - rewrite forallb_snoc. apply andb_true_iff. split; [exact D2|].
    apply (output_name_valid f2 _ 95%N F2 (convert_tail_no_sep f2 h N2)).
    + left. reflexivity.
    + discriminate.
Qed.

(** X5 in a folder with two clips of the same name and different
    extensions. *)
Lemma convert_outputs_are_distinct_witness :
  let w := holding [(INPUT_FOLDER, Dir [(u8 "a.mp4", File); (u8 "a.avi", File)])] in
  Py.eqb (output_of w (u8 "01.入力/a.mp4") (Some 480%Z) false)
         (output_of w (u8 "01.入力/a.avi") (Some 480%Z) false) = false.
Proof.
  apply (convert_outputs_are_distinct
           (holding [(INPUT_FOLDER, Dir [(u8 "a.mp4", File); (u8 "a.avi", File)])])
           (Dir [(u8 "a.mp4", File); (u8 "a.avi", File)])
           [u8 "01.入力/a.mp4"; u8 "01.入力/a.avi"]
           (u8 "01.入力/a.mp4") (u8 "01.入力/a.avi") 480%Z).
  - vm_compute. reflexivity.
  - vm_compute. reflexivity.
  - vm_compute. reflexivity.
  - vm_compute. reflexivity.
  - left. reflexivity.
  - right. left. reflexivity.
  - vm_compute. discriminate.
Defined.

(** X6.  In the audio mode two files found share an output path
    exactly when they lie in the same directory and their names
    differ at most in the extension: the later extraction then writes
    over the earlier one. *)
Theorem audio_outputs_collide_on_equal_stems :
  forall w root input_files p1 p2 any_height,
    os.path.isabs (cwd w) = true ->
    get_input_files w = (Ret input_files, w) ->
    os.resolve (fs w) INPUT_FOLDER = Some root -> well_formed root = true ->
    In p1 input_files -> In p2 input_files ->
    (get_output_path p1 INPUT_FOLDER OUTPUT_FOLDER any_height true w =
     get_output_path p2 INPUT_FOLDER OUTPUT_FOLDER any_height true w <->
     exists dirs f1 f2,
       forallb valid_name (dirs ++ [f1]) = true /\
       forallb valid_name (dirs ++ [f2]) = true /\
       p1 = os.path.join_all INPUT_FOLDER (dirs ++ [f1]) /\
       p2 = os.path.join_all INPUT_FOLDER (dirs ++ [f2]) /\
       fst (os.path.splitext f1) = fst (os.path.splitext f2)).
Proof.
  intros w root files p1 p2 h Hcwd Hg Hr W H1 H2. split.
  - intros E.
    destruct (found_file_names w root files p1 Hg Hr W H1)
      as [d1 [f1 [_ [S1 [V1 ->]]]]].
    destruct (found_file_names w root files p2 Hg Hr W H2)
      as [d2 [f2 [_ [S2 [V2 ->]]]]].
    rewrite (output_of_names w d1 f1 h true _ Hcwd V1 eq_refl) in E.
    rewrite (output_of_names w d2 f2 h true _ Hcwd V2 eq_refl) in E.
    injection E as E.
    pose proof V1 as V1'. pose proof V2 as V2'.
    rewrite forallb_snoc in V1', V2'.
    apply andb_true_iff in V1', V2'. destruct V1' as [D1 F1]. destruct V2' as [D2 F2].
    apply join_all_injective in E.
    + apply app_inj_tail in E. destruct E as [Ed En]. subst d2.
      apply app_inv_tail in En. exists d1, f1, f2. auto.
    + destruct d1; discriminate.
    + destruct d2; discriminate.
    + rewrite forallb_snoc. apply andb_true_iff. split; [exact D1|].
      apply (output_name_valid f1 (u8 ".mp3") 109%N F1).
      * intros F. vm_compute in F. intuition discriminate.
      * right. left. reflexivity.
      * discriminate.
    + rewrite forallb_snoc. apply andb_true_iff. split; [exact D2|].
      apply (output_name_valid f2 (u8 ".mp3") 109%N F2).
      * intros F. vm_compute in F. intuition discriminate.
      * right. left. reflexivity.
      * discriminate.
  - intros [dirs [f1 [f2 [V1 [V2 [-> [-> E]]]]]]].
    rewrite (output_of_names w dirs f1 h true _ Hcwd V1 eq_refl).
    rewrite (output_of_names w dirs f2 h true _ Hcwd V2 eq_refl).
    rewrite E. reflexivity.
Qed.

(** X6 at a.mp4 and a.avi in the input folder: both go to a.mp3. *)
Lemma audio_outputs_collide_on_equal_stems_witness :
  let w := holding [(INPUT_FOLDER, Dir [(u8 "a.mp4", File); (u8 "a.avi", File)])] in
  get_output_path (u8 "01.入力/a.mp4") INPUT_FOLDER OUTPUT_FOLDER None true w =
  get_output_path (u8 "01.入力/a.avi") INPUT_FOLDER OUTPUT_FOLDER None true w <->
  exists dirs f1 f2,
    forallb valid_name (dirs ++ [f1]) = true /\
    forallb valid_name (dirs ++ [f2]) = true /\
    u8 "01.入力/a.mp4" = os.path.join_all INPUT_FOLDER (dirs ++ [f1]) /\
    u8 "01.入力/a.avi" = os.path.join_all INPUT_FOLDER (dirs ++ [f2]) /\
    fst (os.path.splitext f1) = fst (os.path.splitext f2).
Proof.
  apply (audio_outputs_collide_on_equal_stems
           (holding [(INPUT_FOLDER, Dir [(u8 "a.mp4", File); (u8 "a.avi", File)])])
           (Dir [(u8 "a.mp4", File); (u8 "a.avi", File)])
           [u8 "01.入力/a.mp4"; u8 "01.入力/a.avi"]
           (u8 "01.入力/a.mp4") (u8 "01.入力/a.avi") None).
  - vm_compute. reflexivity.
  - vm_compute. reflexivity.
  - vm_compute. reflexivity.
  - vm_compute. reflexivity.
  - left. reflexivity.
  - right. left. reflexivity.
Defined.

(* ================================================================= *)
(** ** What a run leaves in place *)

Lemma survives_refl f : survives f f.
Proof. intros segs _ H. exact H. Qed.

Lemma survives_trans f g h : survives f g -> survives g h -> survives f h.
Proof. intros H1 H2 segs Hs H. apply H2; [assumption|]. apply H1; assumption. Qed.

(** A new entry at the end of a directory hides nothing. *)
Lemma update_append_file_at x : forall names es segs,
  file_at (Dir es) segs ->
  file_at (Dir (os.update names (fun es => es ++ [x]) es)) segs.
Proof.
  induction names as [|n names IH]; intros es segs H; cbn [os.update].
  - inversion H as [es' name Hin|es' name child segs' Hin Hc]; subst.
    + apply file_here. apply in_or_app. auto.
    + apply file_below with (child := child); [apply in_or_app; auto | assumption].
  - inversion H as [es' name Hin|es' name child segs' Hin Hc]; subst.
    + apply file_here.
      apply in_map_iff. exists (name, File). split; [|assumption].
      cbn [fst snd]. destruct (Py.eqb name n); reflexivity.
    + destruct child as [|sub]; [inversion Hc|].
      destruct (Py.eqb name n) eqn:E.
      * apply file_below with (child := Dir (os.update names (fun es => es ++ [x]) sub)).
        -- apply in_map_iff. exists (name, Dir sub). split; [|assumption].
           cbn [fst snd]. rewrite E. reflexivity.
        -- apply IH. assumption.
      * apply file_below with (child := Dir sub); [|assumption].
        apply in_map_iff. exists (name, Dir sub). split; [|assumption].
        cbn [fst snd]. rewrite E. reflexivity.
Qed.

Lemma survives_remove f : survives f (os.remove OUTPUT_FOLDER f).
Proof.
  intros segs Hs H.
  inversion H as [es' name Hin|es' name child segs' Hin Hc]; subst; cbn [hd] in Hs.
  - apply file_here. apply filter_In. split; [assumption|].
    cbn [fst]. apply negb_true_iff, eqb_neq. assumption.
  - apply file_below with (child := child); [|assumption].
    apply filter_In. split; [assumption|].
    cbn [fst]. apply negb_true_iff, eqb_neq. assumption.
Qed.

Lemma survives_append f x : survives f (f ++ [x]).
Proof. intros segs _ H. exact (update_append_file_at x [] f segs H). Qed.

Lemma within_mkdir_survives P p : within P survives (os.mkdir p).
Proof.
  intros w. unfold os.mkdir.
  assert (L : leads P survives w w).
  { split; [|apply survives_refl]. exists []. rewrite app_nil_r.
    split; [reflexivity | constructor]. }
  repeat match goal with
         | |- context [match ?x with _ => _ end] => destruct x
         end; try exact L.
  split.
  - exists []. rewrite app_nil_r. split; [reflexivity | constructor].
  - cbn [snd fs with_fs]. intros segs _ H. apply update_append_file_at. assumption.
Qed.

Lemma within_makedirs_rec_survives P n : forall name exist_ok,
  within P survives (os.makedirs_rec n name exist_ok).
Proof.
  induction n as [|n IH]; intros name ok; cbn [os.makedirs_rec].
  - intros w. apply leads_refl. exact survives_refl.
  - destruct (os.path.split name) as [head tail].
    destruct (if Py.eqb tail [] then os.path.split head else (head, tail)) as [head' tail'].
    apply within_bind; try exact survives_trans.
    { apply within_read. exact survives_refl. }
    intros head_exists.
    apply within_bind; try exact survives_trans.
    { destruct (negb (Py.eqb head' []) && negb (Py.eqb tail' []) && negb head_exists).
      - apply within_bind; try exact survives_trans.
        + apply within_try_except; try exact survives_trans; [apply IH|].
          intros k msg. apply within_ret. exact survives_refl.
        + intros _. apply within_ret. exact survives_refl.
      - apply within_ret. exact survives_refl. }
    intros [|]; [apply within_ret; exact survives_refl|].
    apply within_try_except; try exact survives_trans; [apply within_mkdir_survives|].
    intros k msg. apply within_bind; try exact survives_trans.
    { apply within_read. exact survives_refl. }
    intros d. destruct (negb ok || negb d).
    + apply within_raise. exact survives_refl.
    + apply within_ret. exact survives_refl.
Qed.

Lemma within_makedirs_survives name exist_ok :
  within any_event survives (os.makedirs name exist_ok).
Proof.
  intros w. unfold os.makedirs.
  eapply leads_trans;
    [exact survives_trans | apply leads_log; [exact survives_refl | exact I] |].
  apply within_makedirs_rec_survives.
Qed.

Lemma within_clear_survives : within any_event survives clear_output_folder.
Proof.
  intros w. rewrite clear_output_folder_cases.
  assert (L : forall f evs, survives (fs w) f ->
                leads any_event survives w (evolve w f evs)).
  { intros f evs H. split; [|exact H]. exists evs. split; [reflexivity|].
    apply Forall_forall. intros e _. exact I. }
  destruct (os.lookup (fs w) OUTPUT_FOLDER) as [[|es]|]; cbn [snd]; apply L.
  - apply survives_refl.
  - eapply survives_trans; [apply survives_remove | apply survives_append].
  - apply survives_append.
Qed.

Ltac survival_side :=
  first [exact survives_refl | exact survives_trans | exact I].

Ltac survival_tac :=
  repeat
    (cbv beta;
     lazymatch goal with
     | |- within _ _ clear_output_folder => apply within_clear_survives
     | |- within _ _ get_target_height =>
       apply (within_weaken quiet any_event survives survives _ _
                (fun _ _ => I) (fun _ _ H => H));
       apply get_target_height_quiet; [exact survives_refl | exact survives_trans]
     | |- within _ _ (ret _) => apply within_ret; survival_side
     | |- within _ _ (raise _ _) => apply within_raise; survival_side
     | |- within _ _ (sys.exit _) => apply within_exit; survival_side
     | |- within _ _ (print _) => apply within_print; survival_side
     | |- within _ _ print_ => apply within_print; survival_side
     | |- within _ _ (print_end _ _) => apply within_print_end; survival_side
     | |- within _ _ (input _) => apply within_input; survival_side
     | |- within _ _ (subprocess.run _) => apply within_run; survival_side
     | |- within _ _ (os.makedirs _ _) => apply within_makedirs_survives
     | |- within _ _ (bind _ _) => apply within_bind; [survival_side | | intros]
     | |- within _ _ (try_except _ _ _) =>
       apply within_try_except; [survival_side | | intros]
     | |- within _ _ (for_enumerate _ _ _) =>
       apply within_for_enumerate; [survival_side | survival_side | intros]
     | |- within _ _ (fun w => (_, w)) => apply within_read; survival_side
     | |- within _ _ (if ?b then _ else _) => destruct b
     | |- within _ _ (match ?x with _ => _ end) => destruct x
     end).

Lemma main_survives : within any_event survives main.
Proof.
  unfold main, process_convert_resolution, process_extract_audio,
    get_output_path, convert_video, extract_audio,
    find_ffmpeg, get_ffmpeg_version, is_nvenc_available, get_input_files,
    parse_argument, os.path.relpath, os.path.abspath, os.getcwd, os.walk,
    os.path.exists_, os.path.isfile, os.path.isdir.
  survival_tac.
Qed.

(** X7.  The file operations of a run never remove a file outside
    the output folder: every file that is in the working directory
    when [main] starts, and not below the output folder, is still at
    the same place when [main] ends, however it ends. *)
Theorem main_keeps_files_outside_output :
  forall w segs,
    hd [] segs <> OUTPUT_FOLDER ->
    file_at (Dir (fs w)) segs -> file_at (Dir (fs (snd (main w)))) segs.
Proof.
  intros w segs Hs H. destruct (main_survives w) as [_ S]. apply S; assumption.
Qed.

(** X7 at an input clip, in a run that converts it. *)
Lemma main_keeps_files_outside_output_witness :
  let w := mkWorld convert (u8 "/work")
             [(INPUT_FOLDER, Dir [(u8 "a.mp4", File)]);
              (OUTPUT_FOLDER, Dir [(u8 "old_480p.mp4", File)])]
             [u8 "480"] [] (fun _ _ => Completed 0 []) in
  file_at (Dir (fs (snd (main w)))) [INPUT_FOLDER; u8 "a.mp4"].
Proof.
  apply (main_keeps_files_outside_output
           (mkWorld convert (u8 "/work")
              [(INPUT_FOLDER, Dir [(u8 "a.mp4", File)]);
               (OUTPUT_FOLDER, Dir [(u8 "old_480p.mp4", File)])]
              [u8 "480"] [] (fun _ _ => Completed 0 []))
           [INPUT_FOLDER; u8 "a.mp4"]).
  - vm_compute. discriminate.
  - apply file_below with (child := Dir [(u8 "a.mp4", File)]).
    + left. reflexivity.
    + apply file_here. left. reflexivity.
Defined.

(* ================================================================= *)
(** ** The programs a run starts *)

Lemma leads_bind P F A B (m : M A) (k : A -> M B) w :
  (forall f g h, F f g -> F g h -> F f h) ->
  leads P F w (snd (m w)) ->
  (forall a, fst (m w) = Ret a -> leads P F (snd (m w)) (snd (k a (snd (m w))))) ->
  leads P F w (snd (bind m k w)).
Proof.
  intros Ht Hm Hk. unfold bind.
  destruct (m w) as [[a| |] w1]; cbn [fst snd] in *; try assumption.
  eapply leads_trans; [exact Ht | exact Hm | apply Hk; reflexivity].
Qed.

Lemma find_ffmpeg_runs w :
  leads (runs (ffmpeg_of w)) any_fs w (snd (find_ffmpeg w)) /\
  forall p, fst (find_ffmpeg w) = Ret (Some p) -> p = ffmpeg_of w.
Proof.
  unfold find_ffmpeg, ffmpeg_of, os.path.isfile, bind, subprocess.run, ret.
  cbn [fst snd].
  destruct (os.resolve (fs w) BIN_FFMPEG_PATH) as [[|es]|].
  - split; [apply leads_refl; exact any_fs_refl|].
    intros p H. injection H as <-. reflexivity.
  - split.
    + destruct (proc w (trace w) [SYSTEM_FFMPEG_PATH; u8 "-version"]) as [rc out|k msg];
        [destruct (returncode {| returncode := rc; stdout := out |} =? 0)%Z|];
        cbn [snd]; apply leads_log; try exact any_fs_refl; reflexivity.
    + destruct (proc w (trace w) [SYSTEM_FFMPEG_PATH; u8 "-version"]) as [rc out|k msg];
        [destruct (returncode {| returncode := rc; stdout := out |} =? 0)%Z|];
        cbn [fst]; intros p H; try discriminate. injection H as <-. reflexivity.
  - split.
    + destruct (proc w (trace w) [SYSTEM_FFMPEG_PATH; u8 "-version"]) as [rc out|k msg];
        [destruct (returncode {| returncode := rc; stdout := out |} =? 0)%Z|];
        cbn [snd]; apply leads_log; try exact any_fs_refl; reflexivity.
    + destruct (proc w (trace w) [SYSTEM_FFMPEG_PATH; u8 "-version"]) as [rc out|k msg];
        [destruct (returncode {| returncode := rc; stdout := out |} =? 0)%Z|];
        cbn [fst]; intros p H; try discriminate. injection H as <-. reflexivity.
Qed.

Ltac runs_side :=
  lazymatch goal with
  | |- runs _ _ => first [exact I | reflexivity | vm_compute; reflexivity]
  | _ => idtac
  end.

Lemma get_target_height_runs p : within (runs p) any_fs get_target_height.
Proof.
  intros w. unfold get_target_height.
  generalize (S (length (stdin w))). intros n. revert w.
  change (within (runs p) any_fs (while_true n get_target_height_round)).
  within_prog; runs_side.
Qed.

Ltac as_within :=
  match goal with
  | |- leads ?P ?F ?w (snd (?m ?w)) => generalize w; change (within P F m)
  end.

Lemma main_runs w : leads (runs (ffmpeg_of w)) any_fs w (snd (main w)).
Proof.
  remember (ffmpeg_of w) as p eqn:Ep.
  unfold main.
  apply leads_bind; [exact any_fs_trans | apply leads_refl; exact any_fs_refl |].
  intros [mode description] _. change (snd (parse_argument w)) with w. cbv beta iota.
  do 8 (apply leads_bind;
        [exact any_fs_trans | apply leads_log; [exact any_fs_refl | exact I] | intros _ _]).
  match goal with
  | |- leads _ _ ?w8 _ =>
    assert (E8 : ffmpeg_of w8 = p) by (rewrite Ep; reflexivity);
    generalize dependent w8
  end.
  intros w8 E8. destruct (find_ffmpeg_runs w8) as [Hl Hv]. rewrite E8 in Hl, Hv.
  apply leads_bind; [exact any_fs_trans | exact Hl |].
  intros found Hfound. clear Hl E8.
  destruct found as [q|].
  - apply Hv in Hfound. subst q. clear Hv.
    generalize (snd (find_ffmpeg w8)). clear w8. intros w9.
    apply leads_bind; [exact any_fs_trans | |].
    { as_within. within_prog; runs_side. }
    intros q Hq.
    assert (Eq : q = p).
    { apply (bind_value _ _ _ _ _ _ _ Hq). intros _ wa Hq1.
      apply (bind_value _ _ _ _ _ _ _ Hq1). intros version wb Hq2.
      apply (bind_value _ _ _ _ _ _ _ Hq2). intros _ wc Hq3.
      apply (bind_value _ _ _ _ _ _ _ Hq3). intros _ wd Hq4.
      cbn [ret fst] in Hq4. injection Hq4 as <-. reflexivity. }
    subst q. clear Hq.
    match goal with |- leads _ _ ?w10 _ => generalize w10 end.
    clear w9. intros w10. revert w10.
    match goal with
    | |- forall w, leads ?P ?F w (snd (?m w)) => change (within P F m)
    end.
    unfold process_convert_resolution, process_extract_audio.
    repeat
      (cbv beta;
       lazymatch goal with
       | |- within _ _ get_target_height => apply get_target_height_runs
       | |- within _ _ (bind _ _) => apply within_bind; [exact any_fs_trans | | intros]
       | |- within _ _ (if ?b then _ else _) => destruct b
       | |- within _ _ (match ?x with _ => _ end) => destruct x
       | |- within _ _ _ => progress (within_prog; runs_side)
       end).
  - generalize (snd (find_ffmpeg w8)). clear w8 Hv Hfound. intros w9.
    apply leads_bind; [exact any_fs_trans | |].
    { as_within. within_prog; runs_side. }
    intros a Ha. change (Raise (SystemExit 1) = Ret a) in Ha. discriminate.
Qed.

(** X8.  A run starts no program but its one encoder: every child
    process of [main], the queries and the encodings alike, runs the
    bundled bin/ffmpeg.exe when that is a file at the start, and
    ffmpeg.exe of the search path otherwise. *)
Theorem main_runs_one_encoder : forall w,
  Forall (runs (ffmpeg_of w)) (new_events w (snd (main w))) /\
  (ffmpeg_of w = BIN_FFMPEG_PATH <-> os.path.isfile BIN_FFMPEG_PATH w = (Ret true, w)).
Proof.
  intros w. split.
  - apply (leads_new_events _ _ _ _ (main_runs w)).
  - unfold ffmpeg_of, os.path.isfile. cbn [fst].
    destruct (os.resolve (fs w) BIN_FFMPEG_PATH) as [[|es]|]; split; intros H;
      try reflexivity; try discriminate.
Qed.

(* ================================================================= *)
(** ** The ends of a run before any job *)

Lemma hoare_step A B (I I' : World -> Prop) (V : A -> Prop) (m : M A)
    (k : A -> M B) (Q : result B -> World -> Prop) :
  (forall w, I w -> exists a, fst (m w) = Ret a /\ V a /\ I' (snd (m w))) ->
  (forall a, V a -> hoare I' (k a) Q) ->
  hoare I (bind m k) Q.
Proof.
  intros Hm Hk w HI. destruct (Hm w HI) as [a [E [Va HI']]]. unfold bind.
  destruct (m w) as [r w1]. cbn [fst snd] in *. subst r. apply (Hk a Va w1 HI').
Qed.

Lemma hoare_pass A B (I : World -> Prop) (m : M A) (k : A -> M B)
    (Q : result B -> World -> Prop) :
  returns m -> keeps I m -> (forall a, hoare I (k a) Q) -> hoare I (bind m k) Q.
Proof.
  intros Hr Hk Hq. apply (hoare_step _ _ I I (fun _ => True)).
  - intros w HI. destruct (Hr w) as [a E]. exists a. repeat split; auto.
  - intros a _. apply Hq.
Qed.

Lemma hoare_stop A B (I : World -> Prop) (m : M A) (k : A -> M B)
    (Q : result B -> World -> Prop) :
  (forall w, I w -> exists e, fst (m w) = Raise e /\ Q (Raise e) (snd (m w))) ->
  hoare I (bind m k) Q.
Proof.
  intros Hm w HI. destruct (Hm w HI) as [e [E HQ]]. unfold bind.
  destruct (m w) as [r w1]. cbn [fst snd] in *. subst r. exact HQ.
Qed.

Lemma keeps_same_files w0 A (m : M A) :
  within any_event eq m -> keeps (same_setting w0) m -> keeps (same_files w0) m.
Proof.
  intros Hw Hk w [Hs Hf]. split; [apply Hk; assumption|].
  destruct (Hw w) as [_ E]. rewrite <- E. assumption.
Qed.

Lemma written_events (evs : list event) :
  Forall (fun e => exists s, e = Out s) evs -> exists outs, evs = map Out outs.
Proof.
  induction 1 as [|e evs [s ->] _ [outs ->]].
  - exists []. reflexivity.
  - exists (s :: outs). reflexivity.
Qed.

Lemma keeps_only_written w0 A (m : M A) :
  within (fun e => exists s, e = Out s) eq m -> keeps (same_setting w0) m ->
  keeps (only_written w0 []) m.
Proof.
  intros Hw Hk w [[Hs Hf] [outs T]]. destruct (Hw w) as [[evs [T' Ho]] E].
  split; [split; [apply Hk; assumption | rewrite <- E; assumption]|].
  destruct (written_events evs Ho) as [outs' ->].
  exists (outs ++ outs'). rewrite T', T, !app_nil_r, map_app, app_assoc. reflexivity.
Qed.

Lemma get_ffmpeg_version_returns ffmpeg_path : returns (get_ffmpeg_version ffmpeg_path).
Proof.
  intros w. unfold get_ffmpeg_version, try_except, bind, subprocess.run.
  destruct (proc w (trace w) [ffmpeg_path; u8 "-version"]) as [rc out|k msg].
  - cbn [returncode stdout]. destruct (rc =? 0)%Z; eexists; reflexivity.
  - eexists. reflexivity.
Qed.

(** The lines about the encoder return its path. *)
Lemma encoder_lines_value ffmpeg_path w :
  fst ((print (u8 "このツールは以下のFFmpegを使用して動画を変換します。");;
        version <- get_ffmpeg_version ffmpeg_path;;
        print version;;
        print_;;
        ret ffmpeg_path)%monad w) = Ret ffmpeg_path.
Proof.
  rewrite bind_print. unfold bind at 1.
  destruct (get_ffmpeg_version_returns ffmpeg_path
              (log (Out (u8 "このツールは以下のFFmpegを使用して動画を変換します。" ++ newline)) w))
    as [v E].
  destruct (get_ffmpeg_version ffmpeg_path _) as [r w1]. cbn [fst] in E. subst r.
  reflexivity.
Qed.

Lemma find_ffmpeg_found w0 w :
  encoder_found w0 -> same_files w0 w ->
  exists p, fst (find_ffmpeg w) = Ret (Some p).
Proof.
  intros Hf [[_ [Hp _]] Hfs]. rewrite find_ffmpeg_cases, Hfs, Hp.
  destruct Hf as [Hb | Hs].
  - rewrite Hb. eexists. reflexivity.
  - destruct (Hs (trace w)) as [out E]. rewrite E.
    destruct (os.resolve (fs w0) BIN_FFMPEG_PATH) as [[|es]|]; eexists; reflexivity.
Qed.

Lemma find_ffmpeg_refused w0 w :
  encoder_refused w0 -> same_files w0 w ->
  find_ffmpeg w = (Ret None, log (Spawn [SYSTEM_FFMPEG_PATH; u8 "-version"]) w).
Proof.
  intros [Hb Hs] [[_ [Hp _]] Hfs].
  unfold find_ffmpeg, bind, os.path.isfile, subprocess.run, ret.
  rewrite Hfs.
  destruct (os.resolve (fs w0) BIN_FFMPEG_PATH) as [[|es]|];
    [exfalso; apply Hb; reflexivity | |];
    cbv beta; rewrite Hp; destruct (Hs (trace w)) as [rc [out [E Hrc]]];
    rewrite E; cbn [returncode]; apply Z.eqb_neq in Hrc; rewrite Hrc; reflexivity.
Qed.

Ltac pass_written :=
  apply hoare_pass;
  [ intros ?; eexists; reflexivity
  | apply keeps_only_written;
    [within_prog; try fs_side; try (eexists; reflexivity) | setting_prog]
  | intros ? ].

Ltac pass_files :=
  apply hoare_pass;
  [ intros ?; eexists; reflexivity
  | apply keeps_same_files; [within_prog; try exact I | setting_prog]
  | intros ? ].

Lemma main_without_encoder w0 :
  encoder_refused w0 ->
  hoare (only_written w0 []) main
    (fun r w =>
       r = Raise (SystemExit 1) /\
       only_written w0 [Spawn [SYSTEM_FFMPEG_PATH; u8 "-version"];
                        Out (no_encoder_message ++ newline)] w).
Proof.
  intros Href. unfold main.
  pass_written. destruct a as [mode description]. cbv beta iota.
  do 8 pass_written.
  apply (hoare_step _ _ _
           (only_written w0 [Spawn [SYSTEM_FFMPEG_PATH; u8 "-version"]])
           (fun found => found = None)).
  { intros w [Hf [outs T]]. exists None.
    rewrite (find_ffmpeg_refused w0 w Href Hf). repeat split; try apply Hf.
    exists outs. cbn [snd log trace]. rewrite T, !app_nil_r, <- app_assoc.
    reflexivity. }
  intros found ->.
  apply hoare_stop. intros w [Hf [outs T]].
  exists (SystemExit 1). split; [reflexivity|]. split; [reflexivity|].
  split; [exact Hf|]. exists outs.
  unfold no_encoder_message. rewrite bind_print. unfold sys.exit at 1.
  unfold snd at 1. unfold log at 1. unfold trace at 1.
  rewrite T. rewrite <- app_assoc. f_equal. rewrite <- app_assoc. reflexivity.
Qed.

(** X9.  When there is no bundled encoder and the one of the search
    path answers the version query with a status other than 0, [main]
    writes its header, makes that one query, writes the line that
    ffmpeg was not found and exits with status 1; it creates no
    folder and changes nothing in the file system. *)
Theorem main_exits_when_encoder_refuses : forall w,
  encoder_refused w ->
  fst (main w) = Raise (SystemExit 1) /\
  fs (snd (main w)) = fs w /\
  exists outs,
    new_events w (snd (main w)) =
    map Out outs ++ [Spawn [SYSTEM_FFMPEG_PATH; u8 "-version"];
                     Out (no_encoder_message ++ newline)].
Proof.
  intros w Href.
  destruct (main_without_encoder w Href w) as [Hr [[_ Hf] [outs T]]].
  { split; [split; [apply same_setting_refl | reflexivity]|].
    exists []. rewrite !app_nil_r. reflexivity. }
  repeat split; try assumption.
  exists outs. unfold new_events. rewrite T. apply skipn_new_events.
Qed.

(** X9 where the query of the encoder ends with status 1. *)
Lemma main_exits_when_encoder_refuses_witness :
  let w := mkWorld convert (u8 "/work") [] [] [] (fun _ _ => Completed 1 []) in
  fst (main w) = Raise (SystemExit 1) /\
  fs (snd (main w)) = fs w /\
  exists outs,
    new_events w (snd (main w)) =
    map Out outs ++ [Spawn [SYSTEM_FFMPEG_PATH; u8 "-version"];
                     Out (no_encoder_message ++ newline)].
Proof.
  apply (main_exits_when_encoder_refuses
           (mkWorld convert (u8 "/work") [] [] [] (fun _ _ => Completed 1 []))).
  split.
  - vm_compute. discriminate.
  - intros t. exists 1%Z, []. split; [reflexivity | discriminate].
Defined.

Lemma found_in_ensure_input f : found_in (ensure INPUT_FOLDER f) = found_in f.
Proof.
  unfold ensure. destruct (os.lookup f INPUT_FOLDER) eqn:E; [reflexivity|].
  rewrite (found_in_new_input f E). symmetry. apply found_in_missing. assumption.
Qed.

Lemma found_in_ensure_output f : found_in (ensure OUTPUT_FOLDER f) = found_in f.
Proof.
  unfold ensure. destruct (os.lookup f OUTPUT_FOLDER); [reflexivity|].
  apply found_in_new_output.
Qed.

Lemma lookup_ensure_input f :
  os.lookup (ensure INPUT_FOLDER f) OUTPUT_FOLDER = os.lookup f OUTPUT_FOLDER.
Proof.
  unfold ensure. destruct (os.lookup f INPUT_FOLDER); [reflexivity|].
  rewrite lookup_app. destruct (os.lookup f OUTPUT_FOLDER); [reflexivity|].
  vm_compute. reflexivity.
Qed.

Lemma makedirs_ensures d w :
  valid_name d = true -> os.lookup (fs w) d <> Some File ->
  os.makedirs d true w = (Ret tt, evolve w (ensure d (fs w)) [Makedirs d true]).
Proof.
  intros Hv Hn. rewrite (makedirs_valid d true w Hv). unfold ensure.
  destruct (os.lookup (fs w) d) as [[|es]|]; try reflexivity.
  exfalso. apply Hn. reflexivity.
Qed.

Lemma makedirs_refuses d w :
  valid_name d = true -> os.lookup (fs w) d = Some File ->
  os.makedirs d true w =
  (Raise (Exc FileExistsError d), evolve w (fs w) [Makedirs d true]).
Proof.
  intros Hv Hn. rewrite (makedirs_valid d true w Hv), Hn. reflexivity.
Qed.

(** The run up to the folders, when the encoder is there. *)
Lemma main_to_the_folders w0 (Q : result unit -> World -> Prop) :
  encoder_found w0 ->
  (forall mode ffmpeg_path,
     hoare (same_files w0)
       (os.makedirs INPUT_FOLDER true;;
        os.makedirs OUTPUT_FOLDER true;;
        input_files <- get_input_files;;
        if Nat.eqb (length input_files) 0 then
          print (INPUT_FOLDER ++ u8 "フォルダに変換元のファイルを保存してから実行してください。")
        else
          match mode with
          | convert => process_convert_resolution ffmpeg_path input_files
          | extract => process_extract_audio ffmpeg_path input_files
          end)%monad Q) ->
  hoare (same_files w0) main Q.
Proof.
  intros Hfound Hrest. unfold main.
  pass_files. destruct a as [mode description]. cbv beta iota.
  do 8 pass_files.
  apply (hoare_step _ _ _ (same_files w0) (fun found => exists p, found = Some p)).
  { intros w Hf. destruct (find_ffmpeg_found w0 w Hfound Hf) as [p E].
    exists (Some p). split; [assumption|]. split; [exists p; reflexivity|].
    assert (K : keeps (same_files w0) find_ffmpeg).
    { apply keeps_same_files; [within_prog; try exact I | setting_prog]. }
    apply (K w Hf). }
  intros found [p ->].
  apply hoare_pass.
  - intros w. exists p. apply encoder_lines_value.
  - apply keeps_same_files; [within_prog; try exact I | setting_prog].
  - intros ffmpeg_path. apply Hrest.
Qed.

Lemma main_without_input w0 :
  encoder_found w0 -> found_in (fs w0) = [] ->
  os.lookup (fs w0) INPUT_FOLDER <> Some File ->
  os.lookup (fs w0) OUTPUT_FOLDER <> Some File ->
  hoare (same_files w0) main
    (fun r w =>
       r = Ret tt /\
       fs w = ensure OUTPUT_FOLDER (ensure INPUT_FOLDER (fs w0)) /\
       exists t, trace w = t ++ [Out (no_input_message ++ newline)]).
Proof.
  intros Hfound Hnone Hin Hout. apply main_to_the_folders; [assumption|].
  intros mode ffmpeg_path.
  apply (hoare_step _ _ _
           (fun w => same_setting w0 w /\ fs w = ensure INPUT_FOLDER (fs w0))
           (fun _ => True)).
  { intros w [Hs Hf]. exists tt.
    rewrite (makedirs_ensures _ w INPUT_FOLDER_valid) by (rewrite Hf; assumption).
    rewrite Hf. repeat split; apply Hs. }
  intros _ _.
  apply (hoare_step _ _ _
           (fun w => same_setting w0 w /\
                     fs w = ensure OUTPUT_FOLDER (ensure INPUT_FOLDER (fs w0)))
           (fun _ => True)).
  { intros w [Hs Hf]. exists tt.
    rewrite (makedirs_ensures _ w OUTPUT_FOLDER_valid)
      by (rewrite Hf, lookup_ensure_input; assumption).
    rewrite Hf. repeat split; apply Hs. }
  intros _ _.
  apply (hoare_step _ _ _
           (fun w => same_setting w0 w /\
                     fs w = ensure OUTPUT_FOLDER (ensure INPUT_FOLDER (fs w0)))
           (fun input_files => input_files = [])).
  { intros w [Hs Hf]. exists []. rewrite get_input_files_found.
    unfold fst, snd. rewrite Hf, found_in_ensure_output, found_in_ensure_input, Hnone.
    repeat split; try reflexivity; apply Hs. }
  intros input_files ->. cbv beta iota delta [length Nat.eqb].
  intros w [Hs Hf]. cbv beta iota delta [fst snd print].
  split; [reflexivity|]. split; [exact Hf|].
  exists (trace w). unfold no_input_message. reflexivity.
Qed.

(** X10.  When the encoder is there and [get_input_files] finds no
    file, [main] returns normally: it creates the input folder and
    the output folder when they are missing, leaves everything else
    as it is, and its last line tells the user to put files into the
    input folder. *)
Theorem main_prepares_folders_without_input : forall w,
  encoder_found w ->
  get_input_files w = (Ret [], w) ->
  os.lookup (fs w) INPUT_FOLDER <> Some File ->
  os.lookup (fs w) OUTPUT_FOLDER <> Some File ->
  fst (main w) = Ret tt /\
  fs (snd (main w)) = ensure OUTPUT_FOLDER (ensure INPUT_FOLDER (fs w)) /\
  exists t, trace (snd (main w)) = t ++ [Out (no_input_message ++ newline)].
Proof.
  intros w Hfound Hg Hin Hout.
  rewrite get_input_files_found in Hg. injection Hg as Hnone.
  apply (main_without_input w Hfound Hnone Hin Hout w).
  split; [apply same_setting_refl | reflexivity].
Qed.

(** X10 at the first run in an empty working directory. *)
Lemma main_prepares_folders_without_input_witness :
  fst (main (holding [])) = Ret tt /\
  fs (snd (main (holding []))) =
  ensure OUTPUT_FOLDER (ensure INPUT_FOLDER (fs (holding []))) /\
  exists t, trace (snd (main (holding []))) = t ++ [Out (no_input_message ++ newline)].
Proof.
  apply (main_prepares_folders_without_input (holding [])).
  - right. intros t. exists []. reflexivity.
  - reflexivity.
  - discriminate.
  - discriminate.
Defined.

Lemma main_at_a_file w0 :
  encoder_found w0 ->
  hoare (same_files w0) main
    (fun r w =>
       (os.lookup (fs w0) INPUT_FOLDER = Some File ->
        r = Raise (Exc FileExistsError INPUT_FOLDER) /\ fs w = fs w0) /\
       (os.lookup (fs w0) INPUT_FOLDER <> Some File ->
        os.lookup (fs w0) OUTPUT_FOLDER = Some File ->
        r = Raise (Exc FileExistsError OUTPUT_FOLDER) /\
        fs w = ensure INPUT_FOLDER (fs w0))).
Proof.
  intros Hfound. apply main_to_the_folders; [assumption|].
  intros mode ffmpeg_path.
  destruct (os.lookup (fs w0) INPUT_FOLDER) as [[|es]|] eqn:Ein.
  - apply hoare_stop. intros w [Hs Hf].
    exists (Exc FileExistsError INPUT_FOLDER).
    rewrite (makedirs_refuses _ w INPUT_FOLDER_valid) by (rewrite Hf; assumption).
    split; [reflexivity|]. split.
    + intros _. split; [reflexivity | exact Hf].
    + intros H. exfalso. apply H. reflexivity.
  - apply (hoare_step _ _ _
             (fun w => same_setting w0 w /\ fs w = ensure INPUT_FOLDER (fs w0))
             (fun _ => True)).
    { intros w [Hs Hf]. exists tt.
      rewrite (makedirs_ensures _ w INPUT_FOLDER_valid)
        by (rewrite Hf, Ein; discriminate).
      rewrite Hf. repeat split; apply Hs. }
    intros _ _.
    destruct (os.lookup (fs w0) OUTPUT_FOLDER) as [[|es']|] eqn:Eout;
      try (intros w _; split; intros; discriminate).
    apply hoare_stop. intros w [Hs Hf].
    exists (Exc FileExistsError OUTPUT_FOLDER).
    rewrite (makedirs_refuses _ w OUTPUT_FOLDER_valid)
      by (rewrite Hf, lookup_ensure_input; assumption).
    split; [reflexivity|]. split; [discriminate|].
    intros _ _. split; [reflexivity | exact Hf].
  - apply (hoare_step _ _ _
             (fun w => same_setting w0 w /\ fs w = ensure INPUT_FOLDER (fs w0))
             (fun _ => True)).
    { intros w [Hs Hf]. exists tt.
      rewrite (makedirs_ensures _ w INPUT_FOLDER_valid)
        by (rewrite Hf, Ein; discriminate).
      rewrite Hf. repeat split; apply Hs. }
    intros _ _.
    destruct (os.lookup (fs w0) OUTPUT_FOLDER) as [[|es']|] eqn:Eout;
      try (intros w _; split; intros; discriminate).
    apply hoare_stop. intros w [Hs Hf].
    exists (Exc FileExistsError OUTPUT_FOLDER).
    rewrite (makedirs_refuses _ w OUTPUT_FOLDER_valid)
      by (rewrite Hf, lookup_ensure_input; assumption).
    split; [reflexivity|]. split; [discriminate|].
    intros _ _. split; [reflexivity | exact Hf].
Qed.

(** X11.  When the encoder is there and the name of the input folder
    is taken by a regular file, [main] raises FileExistsError for it
    and changes nothing; when only the name of the output folder is
    taken by a regular file, [main] raises FileExistsError for that
    one, after it has made sure that the input folder exists.  In
    both cases it does so before looking for input files. *)
Theorem main_stops_at_a_file_in_place_of_a_folder : forall w,
  encoder_found w ->
  (os.lookup (fs w) INPUT_FOLDER = Some File ->
   fst (main w) = Raise (Exc FileExistsError INPUT_FOLDER) /\
   fs (snd (main w)) = fs w) /\
  (os.lookup (fs w) INPUT_FOLDER <> Some File ->
   os.lookup (fs w) OUTPUT_FOLDER = Some File ->
   fst (main w) = Raise (Exc FileExistsError OUTPUT_FOLDER) /\
   fs (snd (main w)) = ensure INPUT_FOLDER (fs w)).
Proof.
  intros w Hfound.
  apply (main_at_a_file w Hfound w).
  split; [apply same_setting_refl | reflexivity].
Qed.

(** X11 where a file has the name of the output folder. *)
Lemma main_stops_at_a_file_in_place_of_a_folder_witness :
  let w := holding [(OUTPUT_FOLDER, File)] in
  (os.lookup (fs w) INPUT_FOLDER = Some File ->
   fst (main w) = Raise (Exc FileExistsError INPUT_FOLDER) /\
   fs (snd (main w)) = fs w) /\
  (os.lookup (fs w) INPUT_FOLDER <> Some File ->
   os.lookup (fs w) OUTPUT_FOLDER = Some File ->
   fst (main w) = Raise (Exc FileExistsError OUTPUT_FOLDER) /\
   fs (snd (main w)) = ensure INPUT_FOLDER (fs w)).
Proof.
  apply (main_stops_at_a_file_in_place_of_a_folder (holding [(OUTPUT_FOLDER, File)])).
  right. intros t. exists []. reflexivity.
Defined.

(* ================================================================= *)
(** ** The course of a job *)

Lemma scheduled_step w0 schedule A (m : M A) (k : A -> M unit) w :
  leads not_encoding any_fs w (snd (m w)) -> same_setting w0 (snd (m w)) ->
  (forall a, fst (m w) = Ret a -> scheduled w0 schedule (k a) (snd (m w))) ->
  scheduled w0 schedule (bind m k) w.
Proof.
  intros [[evs [T Hq]] _] Hs Hk. unfold scheduled, bind.
  destruct (m w) as [[a| |] w1]; cbn [snd fst] in *.
  - destruct (Hk a eq_refl) as [Hs' [pre [n [T' [Hpre [Hn Hr]]]]]].
    split; [assumption|]. exists (evs ++ pre), n.
    rewrite T', T, <- !app_assoc. repeat split; auto.
    apply Forall_app. auto.
  - split; [assumption|]. exists evs, 0.
    cbn [firstn]. rewrite app_nil_r. repeat split; auto with arith; discriminate.
  - split; [assumption|]. exists evs, 0.
    cbn [firstn]. rewrite app_nil_r. repeat split; auto with arith; discriminate.
Qed.

Lemma scheduled_bind w0 schedule A (m : M A) (k : A -> M unit) :
  within not_encoding any_fs m -> keeps (same_setting w0) m ->
  (forall a w, same_setting w0 w -> scheduled w0 schedule (k a) w) ->
  forall w, same_setting w0 w -> scheduled w0 schedule (bind m k) w.
Proof.
  intros Hm Hs Hk w H. apply scheduled_step.
  - apply Hm.
  - apply Hs. assumption.
  - intros a _. apply Hk. apply Hs. assumption.
Qed.

(** The events of a run that follows a schedule. *)
Lemma scheduled_events w schedule m :
  scheduled w schedule m w ->
  exists pre k,
    new_events w (snd (m w)) = pre ++ firstn k schedule /\
    Forall not_encoding pre /\
    k <= length schedule /\
    (fst (m w) = Ret tt -> k = length schedule).
Proof.
  intros [_ [pre [k [T H]]]]. exists pre, k.
  unfold new_events. rewrite T, skipn_new_events. auto.
Qed.

Lemma convert_loop_scheduled w0 ffmpeg_path input_files target_height (nvenc : bool) :
  forall w, same_setting w0 w ->
  scheduled w0
    (job_events 0 (length input_files) input_files
       (fun f => output_of w0 f (Some target_height) false)
       (fun f out => convert_command ffmpeg_path f out target_height
                       (if nvenc then u8 "h264_nvenc" else u8 "libx264") (u8 "aac"))
       (u8 "変換完了！"))
    (clear_output_folder;;
     print (u8 "動画の変換を開始します。");;
     for_enumerate 0 input_files (fun i input_file =>
       print_end (progress i (length input_files) input_file) [];;
       output_path <- get_output_path input_file INPUT_FOLDER OUTPUT_FOLDER
                        (Some target_height) false;;
       os.makedirs (os.path.dirname output_path) true;;
       convert_video input_file output_path target_height
         (if nvenc then u8 "h264_nvenc" else u8 "libx264") (u8 "aac") ffmpeg_path;;
       print (u8 "変換完了！")))%monad w.
Proof.
  apply scheduled_bind;
    [exact clear_output_folder_no_encoding | apply clear_output_folder_setting |].
  intros _. apply scheduled_bind.
  { within_prog; encoding_side. }
  { setting_prog. }
  intros _ w Hs.
  apply (loop_scheduled w0
           (fun f out => convert_command ffmpeg_path f out target_height
                           (if nvenc then u8 "h264_nvenc" else u8 "libx264") (u8 "aac"))
           (Some target_height) false (u8 "変換完了！") (length input_files)).
  - intros f out. reflexivity.
  - intros i f. reflexivity.
  - assumption.
Qed.

(** X12.  The course of the resolution job, once the prompt has
    returned the height: after a start without any encoding (the
    probe of the encoder, the reset of the output folder, the start
    line) the job does, for each file in the order of the list, four
    things in this order: it writes the progress line with the
    number of the file and the number of files, creates the directory
    of the output file with [exist_ok], starts the encoding, and
    writes the completion line, whatever the exit status of the
    encoding.  A run that does not return normally stops somewhere in
    this course; a run that returns has gone through all of it. *)
Theorem process_convert_resolution_follows_the_schedule :
  forall ffmpeg_path input_files w target_height,
    fst (get_target_height w) = Ret target_height ->
    exists (nvenc : bool) pre k,
      let schedule :=
        job_events 0 (length input_files) input_files
          (fun f => output_of w f (Some target_height) false)
          (fun f out => convert_command ffmpeg_path f out target_height
                          (if nvenc then u8 "h264_nvenc" else u8 "libx264") (u8 "aac"))
          (u8 "変換完了！") in
      fst (is_nvenc_available ffmpeg_path (snd (get_target_height w))) = Ret nvenc /\
      new_events w (snd (process_convert_resolution ffmpeg_path input_files w)) =
      pre ++ firstn k schedule /\
      Forall not_encoding pre /\
      k <= length schedule /\
      (fst (process_convert_resolution ffmpeg_path input_files w) = Ret tt ->
       k = length schedule).
Proof.
  intros p files w h Eh.
  assert (Hq1 : leads not_encoding any_fs w (snd (get_target_height w))).
  { apply (within_weaken quiet not_encoding any_fs any_fs _ _ quiet_not_encoding
             (fun _ _ H => H)).
    apply get_target_height_quiet; [exact any_fs_refl | exact any_fs_trans]. }
  assert (Hs1 : same_setting w (snd (get_target_height w))).
  { apply setting_get_target_height. apply same_setting_refl. }
  destruct (is_nvenc_available_returns p (snd (get_target_height w))) as [nvenc Hn].
  exists nvenc.
  cut (scheduled w
         (job_events 0 (length files) files
            (fun f => output_of w f (Some h) false)
            (fun f out => convert_command p f out h
                            (if nvenc then u8 "h264_nvenc" else u8 "libx264") (u8 "aac"))
            (u8 "変換完了！"))
         (process_convert_resolution p files) w).
  { intros Hq. destruct (scheduled_events _ _ _ Hq) as [pre [k H]].
    exists pre, k. cbv zeta. tauto. }
  unfold process_convert_resolution.
  apply scheduled_step; [assumption..|].
  intros h' Hh'. rewrite Eh in Hh'. injection Hh' as <-.
  revert Hn Hs1. generalize (snd (get_target_height w)). clear Hq1.
  intros w1 Hn Hs1.
  assert (Hs2 : same_setting w (snd (is_nvenc_available p w1))).
  { revert Hs1. generalize w1.
    change (keeps (same_setting w) (is_nvenc_available p)). setting_prog. }
  apply scheduled_step; [|assumption|].
  { generalize w1.
    change (within not_encoding any_fs (is_nvenc_available p)).
    within_prog; encoding_side. }
  intros b Hb. rewrite Hn in Hb. injection Hb as <-.
  revert Hs2. generalize (snd (is_nvenc_available p w1)). intros w2 Hs2.
  destruct nvenc.
  - apply scheduled_step.
    { match goal with
      | |- leads _ _ ?w (snd (?m ?w)) =>
        generalize w; change (within not_encoding any_fs m)
      end.
      within_prog; encoding_side. }
    { exact Hs2. }
    intros vc Hvc. change (Ret (u8 "h264_nvenc") = Ret vc) in Hvc.
    injection Hvc as <-.
    apply (convert_loop_scheduled w p files h true). exact Hs2.
  - exact (convert_loop_scheduled w p files h false w2 Hs2).
Qed.

(** X12 when the user types 480 and there are two clips. *)
Lemma process_convert_resolution_follows_the_schedule_witness :
  let w := typing [u8 "480"] in
  let files := [os.path.join INPUT_FOLDER (u8 "a.mp4");
                os.path.join INPUT_FOLDER (u8 "b.avi")] in
  exists (nvenc : bool) pre k,
    let schedule :=
      job_events 0 (length files) files
        (fun f => output_of w f (Some 480%Z) false)
        (fun f out => convert_command SYSTEM_FFMPEG_PATH f out 480%Z
                        (if nvenc then u8 "h264_nvenc" else u8 "libx264") (u8 "aac"))
        (u8 "変換完了！") in
    fst (is_nvenc_available SYSTEM_FFMPEG_PATH (snd (get_target_height w))) = Ret nvenc /\
    new_events w (snd (process_convert_resolution SYSTEM_FFMPEG_PATH files w)) =
    pre ++ firstn k schedule /\
    Forall not_encoding pre /\
    k <= length schedule /\
    (fst (process_convert_resolution SYSTEM_FFMPEG_PATH files w) = Ret tt ->
     k = length schedule).
Proof.
  exact (process_convert_resolution_follows_the_schedule SYSTEM_FFMPEG_PATH
           [os.path.join INPUT_FOLDER (u8 "a.mp4");
            os.path.join INPUT_FOLDER (u8 "b.avi")]
           (typing [u8 "480"]) 480%Z eq_refl).
Defined.

Lemma extract_loop_scheduled w0 ffmpeg_path input_files :
  forall w, same_setting w0 w ->
  scheduled w0
    (job_events 0 (length input_files) input_files
       (fun f => output_of w0 f None true)
       (fun f out => extract_command ffmpeg_path f out (u8 "mp3") (u8 "192k"))
       (u8 "抽出完了！"))
    (print_;;
     clear_output_folder;;
     print (u8 "音声の抽出を開始します。");;
     for_enumerate 0 input_files (fun i input_file =>
       print_end (progress i (length input_files) input_file) [];;
       output_path <- get_output_path input_file INPUT_FOLDER OUTPUT_FOLDER None true;;
       os.makedirs (os.path.dirname output_path) true;;
       extract_audio input_file output_path (u8 "mp3") (u8 "192k") ffmpeg_path;;
       print (u8 "抽出完了！")))%monad w.
Proof.
  apply scheduled_bind.
  { within_prog; encoding_side. }
  { setting_prog. }
  intros _. apply scheduled_bind;
    [exact clear_output_folder_no_encoding | apply clear_output_folder_setting |].
  intros _. apply scheduled_bind.
  { within_prog; encoding_side. }
  { setting_prog. }
  intros _ w Hs.
  apply (loop_scheduled w0
           (fun f out => extract_command ffmpeg_path f out (u8 "mp3") (u8 "192k"))
           None true (u8 "抽出完了！") (length input_files)).
  - intros f out. reflexivity.
  - intros i f. reflexivity.
  - assumption.
Qed.

(** X13.  The course of the audio job, once the user has answered y:
    after a start without any extraction (the question, the reset of
    the output folder, the start line) the job does, for each file in
    the order of the list, four things in this order: it writes the
    progress line, creates the directory of the output file with
    [exist_ok], starts the extraction, and writes the completion
    line, whatever the exit status of the extraction.  A run that
    does not return normally stops somewhere in this course; a run
    that returns has gone through all of it. *)
Theorem process_extract_audio_follows_the_schedule :
  forall ffmpeg_path input_files w line rest,
    stdin w = line :: rest ->
    Py.lower (Py.strip line) = u8 "y" ->
    exists pre k,
      let schedule :=
        job_events 0 (length input_files) input_files
          (fun f => output_of w f None true)
          (fun f out => extract_command ffmpeg_path f out (u8 "mp3") (u8 "192k"))
          (u8 "抽出完了！") in
      new_events w (snd (process_extract_audio ffmpeg_path input_files w)) =
      pre ++ firstn k schedule /\
      Forall not_encoding pre /\
      k <= length schedule /\
      (fst (process_extract_audio ffmpeg_path input_files w) = Ret tt ->
       k = length schedule).
Proof.
  intros p files w line rest Hin Hyes. apply eqb_eq in Hyes.
  apply scheduled_events.
  unfold process_extract_audio.
  apply scheduled_step.
  { apply within_input; [exact any_fs_refl | reflexivity]. }
  { apply setting_input. apply same_setting_refl. }
  intros line' Hl.
  assert (El : line' = line).
  { unfold input in Hl. cbn [stdin log] in Hl. rewrite Hin in Hl.
    cbn [fst] in Hl. injection Hl as <-. reflexivity. }
  subst line'. rewrite Hyes. cbn [negb].
  apply extract_loop_scheduled.
  apply setting_input. apply same_setting_refl.
Qed.

(** X13 when the user answers Y and there are two clips. *)
Lemma process_extract_audio_follows_the_schedule_witness :
  let w := typing [u8 "Y"] in
  let files := [os.path.join INPUT_FOLDER (u8 "a.mp4");
                os.path.join INPUT_FOLDER (u8 "b.avi")] in
  exists pre k,
    let schedule :=
      job_events 0 (length files) files
        (fun f => output_of w f None true)
        (fun f out => extract_command SYSTEM_FFMPEG_PATH f out (u8 "mp3") (u8 "192k"))
        (u8 "抽出完了！") in
    new_events w (snd (process_extract_audio SYSTEM_FFMPEG_PATH files w)) =
    pre ++ firstn k schedule /\
    Forall not_encoding pre /\
    k <= length schedule /\
    (fst (process_extract_audio SYSTEM_FFMPEG_PATH files w) = Ret tt ->
     k = length schedule).
Proof.
  apply (process_extract_audio_follows_the_schedule SYSTEM_FFMPEG_PATH
           [os.path.join INPUT_FOLDER (u8 "a.mp4");
            os.path.join INPUT_FOLDER (u8 "b.avi")]
           (typing [u8 "Y"]) (u8 "Y") []).
  - reflexivity.
  - vm_compute. reflexivity.
Defined.

(* ================================================================= *)
(** ** The directories a job creates *)

Lemma lookup_update n names g es m :
  os.lookup (os.update (n :: names) g es) m =
  match os.lookup es m with
  | Some c =>
    Some (if Py.eqb m n
          then match c with Dir sub => Dir (os.update names g sub) | File => File end
          else c)
  | None => None
  end.
Proof.
  cbn [os.update]. induction es as [|[k c] es IH]; [reflexivity|].
  cbn [map os.lookup fst snd].
  destruct (Py.eqb k n) eqn:E1; cbn [os.lookup fst snd];
    destruct (Py.eqb k m) eqn:E2; try exact IH.
  - apply eqb_eq in E2. subst k. rewrite E1. reflexivity.
  - apply eqb_eq in E2. subst k. rewrite E1. reflexivity.
Qed.

(** A new entry at the end of a directory leaves every directory a
    directory. *)
Lemma get_update_dir x : forall names path es0 es,
  os.get (Dir es0) path = Some (Dir es) ->
  exists es', os.get (Dir (os.update names (fun e => e ++ [x]) es0)) path = Some (Dir es').
Proof.
  induction names as [|n names IH]; intros path es0 es H.
  - cbn [os.update]. destruct path as [|m path]; cbn [os.get] in *.
    + eexists. reflexivity.
    + rewrite lookup_app. destruct (os.lookup es0 m) as [c|]; [|discriminate].
      exists es. assumption.
  - destruct path as [|m path].
    + cbn [os.get]. eexists. reflexivity.
    + cbn [os.get] in *. rewrite lookup_update.
      destruct (os.lookup es0 m) as [c|]; [|discriminate].
      destruct (Py.eqb m n); [|exists es; assumption].
      destruct c as [|sub].
      * destruct path; cbn [os.get] in H; discriminate.
      * apply (IH path sub es). assumption.
Qed.

(** The new entry is a directory where [mkdir] puts it. *)
Lemma get_update_new name : forall parent es0 es,
  os.get (Dir es0) parent = Some (Dir es) -> os.lookup es name = None ->
  os.get (Dir (os.update parent (fun e => e ++ [(name, Dir [])]) es0))
    (parent ++ [name]) = Some (Dir []).
Proof.
  induction parent as [|n parent IH]; intros es0 es H Hn.
  - cbn [os.get] in H. injection H as ->.
    cbn [os.update app os.get]. rewrite lookup_app, Hn.
    cbn [os.lookup]. rewrite eqb_refl. reflexivity.
  - cbn [os.get app] in *. rewrite lookup_update.
    destruct (os.lookup es0 n) as [c|]; [|discriminate].
    rewrite eqb_refl. destruct c as [|sub].
    + destruct parent; cbn [os.get] in H; discriminate.
    + apply (IH sub es); assumption.
Qed.

Lemma mkdir_post p w :
  fst (os.mkdir p w) = Ret tt -> is_directory (fs (snd (os.mkdir p w))) p.
Proof.
  unfold os.mkdir, is_directory, os.resolve.
  destruct (os.path_names p) as [names|]; [|discriminate].
  destruct (Py.eqb p []); [discriminate|].
  destruct names as [|n names]; [discriminate|].
  destruct (os.get (Dir (fs w)) (removelast (n :: names))) as [[|es]|] eqn:Eg;
    try discriminate.
  destruct (os.lookup es (last (n :: names) [])) eqn:El; [discriminate|].
  intros _. cbn [snd fs with_fs]. exists [].
  rewrite (app_removelast_last (l := n :: names) []) at 2 by discriminate.
  apply (get_update_new _ _ _ es); assumption.
Qed.

Lemma dirs_stay_refl f : dirs_stay f f.
Proof. intros p H. exact H. Qed.

Lemma dirs_stay_trans f g h : dirs_stay f g -> dirs_stay g h -> dirs_stay f h.
Proof. intros H1 H2 p H. apply H2, H1, H. Qed.

Lemma within_mkdir_dirs P p : within P dirs_stay (os.mkdir p).
Proof.
  intros w. unfold os.mkdir.
  assert (L : leads P dirs_stay w w).
  { split; [|apply dirs_stay_refl]. exists []. rewrite app_nil_r.
    split; [reflexivity | constructor]. }
  repeat match goal with
         | |- context [match ?x with _ => _ end] => destruct x
         end; try exact L.
  split.
  - exists []. rewrite app_nil_r. split; [reflexivity | constructor].
  - cbn [snd fs with_fs]. intros q [es' H]. unfold is_directory, os.resolve in *.
    destruct (Py.eqb q []); [discriminate|].
    destruct (os.path_names q) as [path|]; [|discriminate].
    apply (get_update_dir _ _ path (fs w) es'). assumption.
Qed.

Lemma within_makedirs_rec_dirs P n : forall name exist_ok,
  within P dirs_stay (os.makedirs_rec n name exist_ok).
Proof.
  induction n as [|n IH]; intros name ok; cbn [os.makedirs_rec].
  - intros w. apply leads_refl. exact dirs_stay_refl.
  - destruct (os.path.split name) as [head tail].
    destruct (if Py.eqb tail [] then os.path.split head else (head, tail)) as [head' tail'].
    apply within_bind; try exact dirs_stay_trans.
    { apply within_read. exact dirs_stay_refl. }
    intros head_exists.
    apply within_bind; try exact dirs_stay_trans.
    { destruct (negb (Py.eqb head' []) && negb (Py.eqb tail' []) && negb head_exists).
      - apply within_bind; try exact dirs_stay_trans.
        + apply within_try_except; try exact dirs_stay_trans; [apply IH|].
          intros k msg. apply within_ret. exact dirs_stay_refl.
        + intros _. apply within_ret. exact dirs_stay_refl.
      - apply within_ret. exact dirs_stay_refl. }
    intros [|]; [apply within_ret; exact dirs_stay_refl|].
    apply within_try_except; try exact dirs_stay_trans; [apply within_mkdir_dirs|].
    intros k msg. apply within_bind; try exact dirs_stay_trans.
    { apply within_read. exact dirs_stay_refl. }
    intros d. destruct (negb ok || negb d).
    + apply within_raise. exact dirs_stay_refl.
    + apply within_ret. exact dirs_stay_refl.
Qed.

Lemma within_makedirs_dirs name exist_ok :
  within any_event dirs_stay (os.makedirs name exist_ok).
Proof.
  intros w. unfold os.makedirs.
  eapply leads_trans;
    [exact dirs_stay_trans | apply leads_log; [exact dirs_stay_refl | exact I] |].
  apply within_makedirs_rec_dirs.
Qed.

(** When [os.makedirs(name, exist_ok=True)] returns, [name] is a
    directory (for a name that does not end in [.]). *)
Lemma makedirs_post name w :
  fst (os.makedirs name true w) = Ret tt ->
  Py.eqb (last_part name) os.curdir = false ->
  is_directory (fs (snd (os.makedirs name true w))) name.
Proof.
  unfold os.makedirs, last_part.
  generalize (log (Makedirs name true) w). clear w. intros w.
  cbn [os.makedirs_rec].
  destruct (os.path.split name) as [head tail].
  destruct (if Py.eqb tail [] then os.path.split head else (head, tail)) as [head' tail'].
  intros Hr Hdot.
  match type of Hr with fst ?t = _ => remember t as R eqn:E end.
  unfold bind at 1, os.path.exists_ at 1 in E. cbv beta iota in E.
  unfold bind at 1 in E.
  match type of E with
  | context [match ?m w with _ => _ end] => destruct (m w) as [[stop| |] w2] eqn:Es
  end; [|subst R; discriminate..].
  assert (Hstop : stop = false).
  { destruct (negb (Py.eqb head' []) && negb (Py.eqb tail' [])
              && negb match os.resolve (fs w) head' with Some _ => true | None => false end).
    - unfold bind at 1 in Es.
      match type of Es with
      | context [match ?t with _ => _ end] => destruct t as [[[]| |] w3]
      end; try discriminate.
      unfold ret in Es. injection Es as <- _. assumption.
    - unfold ret in Es. injection Es as <- _. reflexivity. }
  subst stop. unfold try_except in E.
  pose proof (mkdir_post name w2) as Hm.
  destruct (os.mkdir name w2) as [[[]|[k msg|code]|] w3]; cbn [fst snd] in Hm;
    try (subst R; discriminate).
  - subst R. apply Hm. reflexivity.
  - destruct (isOSError k); [|subst R; discriminate].
    unfold bind, os.path.isdir, is_directory in *.
    destruct (os.resolve (fs w3) name) as [[|es]|] eqn:Er; cbn [negb orb] in E;
      subst R; try discriminate.
    exists es. exact Er.
Qed.

Lemma bind_returns A B (m : M A) (k : A -> M B) w b :
  fst (bind m k w) = Ret b ->
  exists a, fst (m w) = Ret a /\
            fst (k a (snd (m w))) = Ret b /\
            snd (bind m k w) = snd (k a (snd (m w))).
Proof.
  unfold bind. destruct (m w) as [[a| |] w1]; cbn [fst snd]; try discriminate.
  intros H. exists a. auto.
Qed.

Ltac dirs_side :=
  first [exact dirs_stay_refl | exact dirs_stay_trans | exact I].

Ltac dirs_tac :=
  repeat
    (cbv beta;
     lazymatch goal with
     | |- within _ _ (ret _) => apply within_ret; dirs_side
     | |- within _ _ (raise _ _) => apply within_raise; dirs_side
     | |- within _ _ (print _) => apply within_print; dirs_side
     | |- within _ _ print_ => apply within_print; dirs_side
     | |- within _ _ (print_end _ _) => apply within_print_end; dirs_side
     | |- within _ _ (subprocess.run _) => apply within_run; dirs_side
     | |- within _ _ (os.makedirs _ _) => apply within_makedirs_dirs
     | |- within _ _ (bind _ _) => apply within_bind; [dirs_side | | intros]
     | |- within _ _ (for_enumerate _ _ _) =>
       apply within_for_enumerate; [dirs_side | dirs_side | intros]
     | |- within _ _ (fun w => (_, w)) => apply within_read; dirs_side
     | |- within _ _ (if ?b then _ else _) => destruct b
     | |- within _ _ (match ?x with _ => _ end) => destruct x
     end).

Section Directories.

Variable w0 : World.
Variable command : str -> str -> list str.
Variable height : option Z.
Variable audio : bool.
Variable done : str.
Variable total_files : nat.
Variable body : nat -> str -> M unit.

Hypothesis body_eq : forall i input_file,
  body i input_file =
  (print_end (progress i total_files input_file) [];;
   output_path <- get_output_path input_file INPUT_FOLDER OUTPUT_FOLDER height audio;;
   os.makedirs (os.path.dirname output_path) true;;
   (subprocess.run (command input_file output_path);; ret tt);;
   print done)%monad.

Lemma body_setting i input_file : keeps (same_setting w0) (body i input_file).
Proof. rewrite body_eq. setting_prog. Qed.

Lemma body_dirs_stay i input_file : within any_event dirs_stay (body i input_file).
Proof.
  rewrite body_eq. unfold get_output_path, os.path.relpath, os.path.abspath, os.getcwd.
  dirs_tac.
Qed.

(** One file: when the body returns, the directory of the output
    file is there. *)
Lemma body_dirs i input_file w :
  same_setting w0 w ->
  fst (body i input_file w) = Ret tt ->
  Py.eqb (last_part (os.path.dirname (output_of w0 input_file height audio)))
    os.curdir = false ->
  is_directory (fs (snd (body i input_file w)))
    (os.path.dirname (output_of w0 input_file height audio)).
Proof.
  intros Hs. rewrite body_eq.
  match goal with |- context [fs (snd ?t)] => remember t as R eqn:E end.
  unfold bind at 1, print_end at 1 in E. cbv beta iota in E.
  set (w1 := log _ w) in E.
  assert (Hs1 : same_setting w0 w1) by exact Hs.
  clearbody w1.
  unfold bind at 1 in E.
  rewrite (get_output_path_reads input_file INPUT_FOLDER OUTPUT_FOLDER height audio
             w0 w1 (proj1 Hs1)) in E.
  unfold output_of.
  destruct (fst (get_output_path input_file INPUT_FOLDER OUTPUT_FOLDER height audio w0))
    as [output_path| |]; [|subst R; discriminate..].
  unfold bind at 1 in E.
  pose proof (makedirs_post (os.path.dirname output_path) w1) as Hm.
  destruct (os.makedirs (os.path.dirname output_path) true w1) as [[[]| |] w2];
    cbn [fst snd] in Hm; [|subst R; discriminate..].
  unfold bind, subprocess.run, ret, print in E.
  destruct (proc w2 (trace w2) (command input_file output_path)) as [rc out|k msg];
    subst R; cbn [fst snd]; [|discriminate].
  intros _ Hdot. cbn [log fs]. apply Hm; [reflexivity | assumption].
Qed.

(** The loop: when it returns, the directory of every output file is
    there. *)
Lemma loop_dirs files : forall i w,
  same_setting w0 w ->
  fst (for_enumerate i files body w) = Ret tt ->
  forall input_file, In input_file files ->
    Py.eqb (last_part (os.path.dirname (output_of w0 input_file height audio)))
      os.curdir = false ->
    is_directory (fs (snd (for_enumerate i files body w)))
      (os.path.dirname (output_of w0 input_file height audio)).
Proof.
  induction files as [|f files IH]; intros i w Hs Hr input_file Hin Hdot;
    [destruct Hin|].
  cbn [for_enumerate] in *.
  destruct (bind_returns _ _ _ _ _ _ Hr) as [[] [Hb [Hrest ->]]].
  assert (Hs1 : same_setting w0 (snd (body i f w))) by (apply body_setting; assumption).
  destruct Hin as [<- | Hin].
  - pose proof (body_dirs i f w Hs Hb Hdot) as Hd.
    assert (L : within any_event dirs_stay (for_enumerate (S i) files body)).
    { apply within_for_enumerate;
        [exact dirs_stay_refl | exact dirs_stay_trans | intros; apply body_dirs_stay]. }
    destruct (L (snd (body i f w))) as [_ Hstay]. apply Hstay. assumption.
  - apply IH; assumption.
Qed.

End Directories.

(** X14.  When the resolution job returns normally, the directory of
    every output file is there: for each file of the list, the
    directory part of the output path that [get_output_path] derives
    for it names a directory of the file system the job leaves (for
    a directory part that does not end in [.]). *)
Theorem process_convert_resolution_creates_the_directories :
  forall ffmpeg_path input_files w target_height,
    fst (get_target_height w) = Ret target_height ->
    fst (process_convert_resolution ffmpeg_path input_files w) = Ret tt ->
    forall input_file, In input_file input_files ->
      Py.eqb (last_part (os.path.dirname
                           (output_of w input_file (Some target_height) false)))
        os.curdir = false ->
      is_directory (fs (snd (process_convert_resolution ffmpeg_path input_files w)))
        (os.path.dirname (output_of w input_file (Some target_height) false)).
Proof.
  intros p files w h Eh Hr f Hin Hdot.
  unfold process_convert_resolution in *.
  destruct (bind_returns _ _ _ _ _ _ Hr) as [h' [E1 [Hr1 ->]]].
  rewrite Eh in E1. injection E1 as <-. clear Hr.
  assert (Hs1 : same_setting w (snd (get_target_height w))).
  { apply setting_get_target_height. apply same_setting_refl. }
  revert Hr1 Hs1. generalize (snd (get_target_height w)). intros w1 Hr1 Hs1.
  destruct (bind_returns _ _ _ _ _ _ Hr1) as [nvenc [E2 [Hr2 ->]]]. clear Hr1.
  assert (Hs2 : same_setting w (snd (is_nvenc_available p w1))).
  { revert Hs1. generalize w1.
    change (keeps (same_setting w) (is_nvenc_available p)). setting_prog. }
  revert Hr2 Hs2. generalize (snd (is_nvenc_available p w1)). clear E2.
  intros w2 Hr2 Hs2.
  destruct (bind_returns _ _ _ _ _ _ Hr2) as [vc [E3 [Hr3 ->]]]. clear Hr2.
  assert (Hs3 : same_setting w
                  (snd ((if nvenc
                         then print (u8 "GPUを使用して動画のエンコーディングを行います。");;
                              print_;; ret (u8 "h264_nvenc")
                         else ret (u8 "libx264"))%monad w2))).
  { destruct nvenc; exact Hs2. }
  revert Hr3 Hs3. clear E3.
  generalize (snd ((if nvenc
                    then print (u8 "GPUを使用して動画のエンコーディングを行います。");;
                         print_;; ret (u8 "h264_nvenc")
                    else ret (u8 "libx264"))%monad w2)).
  intros w3 Hr3 Hs3.
  destruct (bind_returns _ _ _ _ _ _ Hr3) as [[] [_ [Hr4 ->]]]. clear Hr3.
  assert (Hs4 : same_setting w (snd (clear_output_folder w3)))
    by (apply clear_output_folder_setting; assumption).
  revert Hr4 Hs4. generalize (snd (clear_output_folder w3)). intros w4 Hr4 Hs4.
  destruct (bind_returns _ _ _ _ _ _ Hr4) as [[] [_ [Hr5 ->]]]. clear Hr4.
  assert (Hs5 : same_setting w (snd (print (u8 "動画の変換を開始します。") w4)))
    by exact Hs4.
  revert Hr5 Hs5. generalize (snd (print (u8 "動画の変換を開始します。") w4)).
  intros w5 Hr5 Hs5.
  apply (loop_dirs w
           (fun f out => convert_command p f out h vc (u8 "aac"))
           (Some h) false (u8 "変換完了！") (length files)); try assumption.
  intros i f'. reflexivity.
Qed.

(** X14 at a clip in a subfolder, when the user types 480. *)
Lemma process_convert_resolution_creates_the_directories_witness :
  let w := typing [u8 "480"] in
  let files := [u8 "01.入力/a.mp4"; u8 "01.入力/sub/b.avi"] in
  is_directory (fs (snd (process_convert_resolution SYSTEM_FFMPEG_PATH files w)))
    (os.path.dirname (output_of w (u8 "01.入力/sub/b.avi") (Some 480%Z) false)).
Proof.
  apply (process_convert_resolution_creates_the_directories SYSTEM_FFMPEG_PATH
           [u8 "01.入力/a.mp4"; u8 "01.入力/sub/b.avi"] (typing [u8 "480"]) 480%Z).
  - vm_compute. reflexivity.
  - vm_compute. reflexivity.
  - right. left. reflexivity.
  - vm_compute. reflexivity.
Defined.

(** X15.  When the audio job returns normally after the user has
    answered y, the directory of every output file is there: for each
    file of the list, the directory part of the output path that
    [get_output_path] derives for it names a directory of the file
    system the job leaves (for a directory part that does not end in
    [.]). *)
Theorem process_extract_audio_creates_the_directories :
  forall ffmpeg_path input_files w line rest,
    stdin w = line :: rest ->
    Py.lower (Py.strip line) = u8 "y" ->
    fst (process_extract_audio ffmpeg_path input_files w) = Ret tt ->
    forall input_file, In input_file input_files ->
      Py.eqb (last_part (os.path.dirname (output_of w input_file None true)))
        os.curdir = false ->
      is_directory (fs (snd (process_extract_audio ffmpeg_path input_files w)))
        (os.path.dirname (output_of w input_file None true)).
Proof.
  intros p files w line rest Hin Hyes Hr f Hf Hdot. apply eqb_eq in Hyes.
  unfold process_extract_audio in *.
  destruct (bind_returns _ _ _ _ _ _ Hr) as [line' [E1 [Hr1 ->]]]. clear Hr.
  assert (El : line' = line).
  { unfold input in E1. cbn [stdin log] in E1. rewrite Hin in E1.
    cbn [fst] in E1. injection E1 as <-. reflexivity. }
  subst line'. rewrite Hyes in *. cbn [negb] in *.
  assert (Hs1 : same_setting w
                  (snd (input (u8 "音声抽出を開始しますか？ (y/n): ") w))).
  { apply setting_input. apply same_setting_refl. }
  revert Hr1 Hs1. clear E1.
  generalize (snd (input (u8 "音声抽出を開始しますか？ (y/n): ") w)).
  intros w1 Hr1 Hs1.
  destruct (bind_returns _ _ _ _ _ _ Hr1) as [[] [_ [Hr2 ->]]]. clear Hr1.
  assert (Hs2 : same_setting w (snd (print_ w1))) by exact Hs1.
  revert Hr2 Hs2. generalize (snd (print_ w1)). intros w2 Hr2 Hs2.
  destruct (bind_returns _ _ _ _ _ _ Hr2) as [[] [_ [Hr3 ->]]]. clear Hr2.
  assert (Hs3 : same_setting w (snd (clear_output_folder w2)))
    by (apply clear_output_folder_setting; assumption).
  revert Hr3 Hs3. generalize (snd (clear_output_folder w2)). intros w3 Hr3 Hs3.
  destruct (bind_returns _ _ _ _ _ _ Hr3) as [[] [_ [Hr4 ->]]]. clear Hr3.
  assert (Hs4 : same_setting w (snd (print (u8 "音声の抽出を開始します。") w3)))
    by exact Hs3.
  revert Hr4 Hs4. generalize (snd (print (u8 "音声の抽出を開始します。") w3)).
  intros w4 Hr4 Hs4.
  apply (loop_dirs w
           (fun f out => extract_command p f out (u8 "mp3") (u8 "192k"))
           None true (u8 "抽出完了！") (length files)); try assumption.
  intros i f'. reflexivity.
Qed.

(** X15 at a clip in a subfolder, when the user answers y. *)
Lemma process_extract_audio_creates_the_directories_witness :
  let w := typing [u8 "y"] in
  let files := [u8 "01.入力/a.mp4"; u8 "01.入力/sub/b.avi"] in
  is_directory (fs (snd (process_extract_audio SYSTEM_FFMPEG_PATH files w)))
    (os.path.dirname (output_of w (u8 "01.入力/sub/b.avi") None true)).
Proof.
  apply (process_extract_audio_creates_the_directories SYSTEM_FFMPEG_PATH
           [u8 "01.入力/a.mp4"; u8 "01.入力/sub/b.avi"] (typing [u8 "y"]) (u8 "y") []).
  - reflexivity.
  - vm_compute. reflexivity.
  - vm_compute. reflexivity.
  - right. left. reflexivity.
  - vm_compute. reflexivity.
Defined.

(* ================================================================= *)
(** ** The end of the input *)

(** X16.  When there is nothing left to read, each job ends at its
    first question with the EOFError of [input]: the resolution job
    has written only the prompt for the height, the audio job only
    its question; neither has queried the encoder, reset the output
    folder or changed the file system. *)
Theorem jobs_stop_at_the_end_of_input :
  forall ffmpeg_path input_files w,
    stdin w = [] ->
    process_convert_resolution ffmpeg_path input_files w =
    (Raise (Exc EOFError (u8 "EOF when reading a line")), advance w [] height_prompt) /\
    process_extract_audio ffmpeg_path input_files w =
    (Raise (Exc EOFError (u8 "EOF when reading a line")),
     advance w [] [Out confirm_prompt]).
Proof.
  intros p files w Hin. split.
  - unfold process_convert_resolution, bind at 1, get_target_height.
    rewrite Hin. cbn [length].
    rewrite (prompt_loop_eof [] w 1 Hin (Forall_nil _) (Nat.lt_0_succ 0)).
    reflexivity.
  - unfold process_extract_audio, bind at 1, input. cbn [stdin log].
    rewrite Hin. unfold log, advance, confirm_prompt. rewrite Hin. reflexivity.
Qed.

(** X16 in a session where nobody types. *)
Lemma jobs_stop_at_the_end_of_input_witness :
  let w := holding [(OUTPUT_FOLDER, Dir [(u8 "old.mp3", File)])] in
  let files := [u8 "01.入力/a.mp4"] in
  process_convert_resolution SYSTEM_FFMPEG_PATH files w =
  (Raise (Exc EOFError (u8 "EOF when reading a line")), advance w [] height_prompt) /\
  process_extract_audio SYSTEM_FFMPEG_PATH files w =
  (Raise (Exc EOFError (u8 "EOF when reading a line")),
   advance w [] [Out confirm_prompt]).
Proof.
  exact (jobs_stop_at_the_end_of_input SYSTEM_FFMPEG_PATH [u8 "01.入力/a.mp4"]
           (holding [(OUTPUT_FOLDER, Dir [(u8 "old.mp3", File)])]) eq_refl).
Defined.
